(** * Gmail tool server: a shallow embedding of mcp_server/gmail/index.js

    The server bridges tool calls to the mail provider's HTTP API.  The
    embedding follows the source function by function:

    - JavaScript strings are [string]s, read as sequences of units; where
      the source turns a string into a [Buffer] the units are taken as the
      bytes of the text (exact for ASCII text, and for other text once it is
      UTF-8 encoded);
    - an argument object is a record of optional fields, [None] standing for
      a property that is [undefined];
    - everything a handler does to the outside (files, clock, provider
      calls) goes through an explicit [world], threaded by the [js] monad,
      in which a handler either returns a value or throws an [error];
    - the provider is an oracle: each endpoint answers from the trace of
      network events issued so far and the parameters of the call. *)

From Stdlib Require Import ZArith String Ascii List Lia Bool.
From stdpp Require Import base option list strings gmap pretty.

Local Open Scope string_scope.
Local Open Scope list_scope.
Local Open Scope Z_scope.

(** ** Strings *)

Definition CRLF : string := String "013" (String "010" EmptyString).

(** [s.includes(p)] *)
Fixpoint includes (p s : string) : bool :=
  String.prefix p s ||
  match s with
  | EmptyString => false
  | String _ s' => includes p s'
  end.

(** [s.slice(0, n)] for [n] within the non-negative range. *)
Fixpoint slice0 (n : nat) (s : string) : string :=
  match n, s with
  | O, _ => EmptyString
  | S _, EmptyString => EmptyString
  | S n', String c s' => String c (slice0 n' s')
  end.

(** [xs.join(sep)] *)
Fixpoint join (sep : string) (xs : list string) : string :=
  match xs with
  | [] => EmptyString
  | [x] => x
  | x :: rest => x +:+ sep +:+ join sep rest
  end.

(** Truthiness of an optional string or number: [undefined], [null], the
    empty string and zero are falsy. *)
Definition truthy_str (v : option string) : bool :=
  match v with
  | Some s => negb (String.eqb s "")
  | None => false
  end.

Definition truthy_num (v : option Z) : bool :=
  match v with
  | Some n => negb (n =? 0)
  | None => false
  end.

(** [a || b] on strings *)
Definition or_else (v : option string) (d : string) : string :=
  match v with
  | Some s => if String.eqb s "" then d else s
  | None => d
  end.

(** ** Credentials and tokens *)

(** The token file: [{ access_token, refresh_token, expiry_date,
    ...provider fields }]. *)
Record token_bundle := {
  access_token : option string;
  refresh_token : option string;
  expiry_date : option Z;
  provider_fields : list (string * string);
}.

Record client_config := {
  client_id : string;
  client_secret : string;
}.

(** The credentials file: [{ installed: {...} }] or [{ web: {...} }]. *)
Record credentials := {
  installed : option client_config;
  web : option client_config;
}.

(** The body of the ['tokens'] listener, up to the write of the file: the
    three guarded assignments on the captured [token]. *)
Definition on_tokens (tokens token : token_bundle) : token_bundle :=
  let token :=
    if truthy_str (refresh_token tokens)
    then {| access_token := access_token token;
            refresh_token := refresh_token tokens;
            expiry_date := expiry_date token;
            provider_fields := provider_fields token |}
    else token in
  let token :=
    if truthy_str (access_token tokens)
    then {| access_token := access_token tokens;
            refresh_token := refresh_token token;
            expiry_date := expiry_date token;
            provider_fields := provider_fields token |}
    else token in
  if truthy_num (expiry_date tokens)
  then {| access_token := access_token token;
          refresh_token := refresh_token token;
          expiry_date := expiry_date tokens;
          provider_fields := provider_fields token |}
  else token.

(** ** Errors, provider calls and replies *)

Record error := {
  message : string;
  code : option Z;
}.

(** [new Error(msg)] *)
Definition Error (msg : string) : error := {| message := msg; code := None |}.

Record label_body := {
  lb_name : option string;
  lb_labelListVisibility : string;
  lb_messageListVisibility : string;
  lb_color : option (option string * option string);
}.

(** One constructor per provider endpoint the handlers use, carrying the
    parameters of the request (the constant [userId: 'me'] is left out). *)
Inductive api_call :=
  | MessagesList (maxResults : Z) (q : string) (labelIds : option (list string))
  | MessagesGet (id : option string) (format : string) (metadataHeaders : option (list string))
  | MessagesTrash (id : string)
  | MessagesModify (id : string) (addLabelIds removeLabelIds : option (list string))
  | MessagesBatchModify (ids : option (list string)) (addLabelIds removeLabelIds : list string)
  | MessagesSend (raw : string) (threadId : option string)
  | LabelsList
  | LabelsCreate (requestBody : label_body)
  | LabelsDelete (id : option string).

Inductive net_event :=
  | OAuthRefresh
  | Api (c : api_call).

Inductive reply (T : Type) :=
  | Failure (e : error)
  | Success (data : T).
Arguments Failure {T} e.
Arguments Success {T} data.

Record message_ref := {
  ref_id : string;
  ref_threadId : string;
}.

Record list_data := {
  messages : option (list message_ref);
  resultSizeEstimate : option Z;
}.

Record header := {
  h_name : string;
  h_value : string;
}.

Record body_part := {
  mimeType : string;
  part_data : option string;
}.

Record message_payload := {
  headers : list header;
  body_data : option string;
  parts : option (list body_part);
}.

Record message_data := {
  m_id : string;
  m_threadId : string;
  m_labelIds : list string;
  m_snippet : string;
  payload : message_payload;
}.

Record label_data := {
  l_id : string;
  l_name : string;
  l_type : string;
}.

Record sent_data := {
  sent_id : string;
  sent_threadId : string;
}.

(** The provider: every endpoint answers from the events issued before the
    call and the call itself. *)
Record gmail_api := {
  messages_list : list net_event -> api_call -> reply list_data;
  messages_get : list net_event -> api_call -> reply message_data;
  messages_trash : list net_event -> api_call -> reply unit;
  messages_modify : list net_event -> api_call -> reply unit;
  messages_batchModify : list net_event -> api_call -> reply unit;
  messages_send : list net_event -> api_call -> reply sent_data;
  labels_list : list net_event -> api_call -> reply (list label_data);
  labels_create : list net_event -> api_call -> reply label_data;
  labels_delete : list net_event -> api_call -> reply unit;
}.

(** ** The world *)

(** What a handler can observe and change: the two environment variables and
    the default paths, the credentials and token files ([None] when the file
    does not exist), whether the token file can be written, the other files
    by path, the clock in milliseconds, the draws [Math.random] will give
    (each as the base-36 digits of its fraction), the provider, and the
    trace of network events so far. *)
Record world := {
  env_GOOGLE_CREDENTIALS_PATH : option string;
  env_GOOGLE_TOKEN_PATH : option string;
  default_credentials_path : string;
  default_token_path : string;
  credentials_file : option credentials;
  token_file : option token_bundle;
  token_file_writable : bool;
  files : gmap string string;
  now : N;
  random : list (list nat);
  gmail : gmail_api;
  net : list net_event;
}.

Definition set_net (w : world) (t : list net_event) : world :=
  {| env_GOOGLE_CREDENTIALS_PATH := env_GOOGLE_CREDENTIALS_PATH w;
     env_GOOGLE_TOKEN_PATH := env_GOOGLE_TOKEN_PATH w;
     default_credentials_path := default_credentials_path w;
     default_token_path := default_token_path w;
     credentials_file := credentials_file w;
     token_file := token_file w;
     token_file_writable := token_file_writable w;
     files := files w;
     now := now w;
     random := random w;
     gmail := gmail w;
     net := t |}.

Definition set_random (w : world) (r : list (list nat)) : world :=
  {| env_GOOGLE_CREDENTIALS_PATH := env_GOOGLE_CREDENTIALS_PATH w;
     env_GOOGLE_TOKEN_PATH := env_GOOGLE_TOKEN_PATH w;
     default_credentials_path := default_credentials_path w;
     default_token_path := default_token_path w;
     credentials_file := credentials_file w;
     token_file := token_file w;
     token_file_writable := token_file_writable w;
     files := files w;
     now := now w;
     random := r;
     gmail := gmail w;
     net := net w |}.

Definition set_token_file (w : world) (t : token_bundle) : world :=
  {| env_GOOGLE_CREDENTIALS_PATH := env_GOOGLE_CREDENTIALS_PATH w;
     env_GOOGLE_TOKEN_PATH := env_GOOGLE_TOKEN_PATH w;
     default_credentials_path := default_credentials_path w;
     default_token_path := default_token_path w;
     credentials_file := credentials_file w;
     token_file := Some t;
     token_file_writable := token_file_writable w;
     files := files w;
     now := now w;
     random := random w;
     gmail := gmail w;
     net := net w |}.

(** Provider calls in a trace, in order. *)
Definition api_calls (t : list net_event) : list api_call :=
  omap (fun ev => match ev with Api c => Some c | OAuthRefresh => None end) t.

(** ** The monad of handlers *)

Inductive outcome (A : Type) :=
  | Returned (a : A)
  | Thrown (e : error).
Arguments Returned {A} a.
Arguments Thrown {A} e.

Definition js (A : Type) : Type := world -> outcome A * world.

Definition ret {A} (a : A) : js A := fun w => (Returned a, w).

Definition throw {A} (e : error) : js A := fun w => (Thrown e, w).

Definition bind {A B} (m : js A) (k : A -> js B) : js B :=
  fun w =>
    match m w with
    | (Returned a, w') => k a w'
    | (Thrown e, w') => (Thrown e, w')
    end.

(** [try { m } catch (error) { h error }] *)
Definition try_catch {A} (m : js A) (h : error -> js A) : js A :=
  fun w =>
    match m w with
    | (Returned a, w') => (Returned a, w')
    | (Thrown e, w') => h e w'
    end.

Notation "'let*' x ':=' m 'in' k" := (bind m (fun x => k))
  (at level 10, x name, m at level 100, k at level 200).

(** [await endpoint(params)]: the request is recorded in the trace, and the
    provider's answer is returned or thrown. *)
Definition await {T} (endpoint : gmail_api -> list net_event -> api_call -> reply T)
    (c : api_call) : js T :=
  fun w =>
    let w' := set_net w (net w ++ [Api c]) in
    match endpoint (gmail w) (net w) c with
    | Success d => (Returned d, w')
    | Failure e => (Thrown e, w')
    end.

(** ** The credential store *)

Definition getCredentialsPath (w : world) : string :=
  or_else (env_GOOGLE_CREDENTIALS_PATH w) (default_credentials_path w).

Definition getTokenPath (w : world) : string :=
  or_else (env_GOOGLE_TOKEN_PATH w) (default_token_path w).

(** The authorized client: the OAuth client's configuration and the token
    captured by the ['tokens'] listener. *)
Record gmail_client := {
  config : client_config;
  token : token_bundle;
}.

Definition TypeError (msg : string) : error := Error msg.

(** The two files are held parsed: a file that exists holds well-formed
    JSON, and what [JSON.parse] throws on other content is not part of the
    embedding.  The proactive refresh is started and not awaited: it is recorded as a network event, and its answer reaches
    the store later, through the ['tokens'] listener. *)
Definition getGmailClient : js gmail_client :=
  fun w =>
    let credentialsPath := getCredentialsPath w in
    let tokenPath := getTokenPath w in
    match credentials_file w with
    | None => (Thrown (Error ("Credentials file not found: " +:+ credentialsPath)), w)
    | Some credentials =>
      match token_file w with
      | None =>
        (Thrown (Error ("Token file not found: " +:+ tokenPath +:+
                        ". Please run scripts/google-auth.js to authenticate.")), w)
      | Some token =>
        match (match installed credentials with
               | Some c => Some c
               | None => web credentials
               end) with
        | None =>
          (Thrown (TypeError "Cannot destructure property 'client_id' of '(credentials.installed || credentials.web)' as it is undefined."), w)
        | Some cfg =>
          let client := {| config := cfg; token := token |} in
          if truthy_num (expiry_date token) &&
             (default 0 (expiry_date token) <=? Z.of_N (now w) + 60000)
          then (Returned client, set_net w (net w ++ [OAuthRefresh]))
          else (Returned client, w)
        end
      end
    end.

(** The ['tokens'] listener as a step of the store: the captured token is
    updated and the file rewritten; a failed write is logged and ignored. *)
Definition tokens_listener (tokens : token_bundle) (c : gmail_client) (w : world)
    : gmail_client * world :=
  let token' := on_tokens tokens (token c) in
  ({| config := config c; token := token' |},
   if token_file_writable w then set_token_file w token' else w).

(** ** Tool arguments and results *)

Record attachment := {
  path : option string;
  filename : option string;
  contentType : option string;
}.

(** The argument object of a tool call; every handler destructures the
    properties it uses. *)
Record arguments := {
  maxResults : option Z;
  query : option string;
  labelIds : option (list string);
  messageId : option string;
  messageIds : option (list string);
  name : option string;
  backgroundColor : option string;
  textColor : option string;
  labelId : option string;
  addLabelIds : option (list string);
  removeLabelIds : option (list string);
  to : option string;
  subject : option string;
  body : option string;
  cc : option string;
  bcc : option string;
  replyTo : option string;
  threadId : option string;
  htmlBody : option string;
  attachments : option (list attachment);
}.

(** [{}] *)
Definition no_arguments : arguments :=
  {| maxResults := None; query := None; labelIds := None; messageId := None;
     messageIds := None; name := None; backgroundColor := None;
     textColor := None; labelId := None; addLabelIds := None;
     removeLabelIds := None; to := None; subject := None; body := None;
     cc := None; bcc := None; replyTo := None; threadId := None;
     htmlBody := None; attachments := None |}.

Record email_summary := {
  es_id : string;
  es_threadId : string;
  es_from : string;
  es_subject : string;
  es_date : string;
  es_snippet : string;
}.

Record email_detail := {
  ed_id : string;
  ed_threadId : string;
  ed_from : string;
  ed_to : string;
  ed_subject : string;
  ed_date : string;
  ed_body : string;
  ed_labels : list string;
}.

(** An entry of a per-item result list: [{ id, status }] or
    [{ id, status: 'error', error }]. *)
Record item_result := {
  item_id : string;
  status : string;
  item_error : option string;
}.

Record send_result := {
  sr_messageId : string;
  sr_threadId : string;
  sr_to : option string;
  sr_subject : option string;
  sr_attachmentsCount : nat;
}.

Inductive tool_result :=
  | EmailList (emails : list email_summary) (totalResults : option Z)
  | EmailDetail (email : email_detail)
  | UnreadCount (unreadCount : Z)
  | LabelList (labels : list label_data)
  | Trashed (trashed : nat) (results : list item_result)
  | Marked (marked : nat) (results : list item_result)
  | LabelCreated (label : label_data)
  | LabelDeleted (deleted : bool) (labelId : option string)
  | Modified (modified : nat) (results : list item_result)
  | BatchModified (success : bool) (count : nat) (addedLabels removedLabels : list string)
  | Sent (result : send_result).

(** ** Handlers *)

(** [headers.find(h => h.name === name)?.value || ''] *)
Definition getHeader (hs : list header) (n : string) : string :=
  match List.find (fun h => String.eqb (h_name h) n) hs with
  | Some h => h_value h
  | None => ""
  end.

(** The loop of [listEmails]: one metadata fetch per listed message. *)
Fixpoint fetch_summaries (msgs : list message_ref) (emails : list email_summary)
    : js (list email_summary) :=
  match msgs with
  | [] => ret emails
  | msg :: rest =>
    let* detail := await messages_get
        (MessagesGet (Some (ref_id msg)) "metadata" (Some ["From"; "Subject"; "Date"])) in
    let hs := headers (payload detail) in
    fetch_summaries rest
      (emails ++ [{| es_id := ref_id msg;
                     es_threadId := ref_threadId msg;
                     es_from := getHeader hs "From";
                     es_subject := getHeader hs "Subject";
                     es_date := getHeader hs "Date";
                     es_snippet := m_snippet detail |}])
  end.

Definition listEmails (args : arguments) : js tool_result :=
  let maxResults := default 10 (maxResults args) in
  let query := default "" (query args) in
  let labelIds := default ["INBOX"] (labelIds args) in
  let* gmail := getGmailClient in
  let* response := await messages_list (MessagesList maxResults query (Some labelIds)) in
  let messages := default [] (messages response) in
  let* emails := fetch_summaries messages [] in
  ret (EmailList emails (resultSizeEstimate response)).

Definition searchEmails (args : arguments) : js tool_result :=
  let query := query args in
  let maxResults := default 20 (maxResults args) in
  listEmails
    {| maxResults := Some maxResults; query := query; labelIds := Some [];
       messageId := None; messageIds := None; name := None;
       backgroundColor := None; textColor := None; labelId := None;
       addLabelIds := None; removeLabelIds := None; to := None;
       subject := None; body := None; cc := None; bcc := None;
       replyTo := None; threadId := None; htmlBody := None;
       attachments := None |}.

Definition getUnreadCount : js tool_result :=
  let* gmail := getGmailClient in
  let* response := await messages_list (MessagesList 1 "is:unread" None) in
  ret (UnreadCount (default 0 (resultSizeEstimate response))).

Definition listLabels : js tool_result :=
  let* gmail := getGmailClient in
  let* response := await labels_list LabelsList in
  ret (LabelList response).

(** The shape shared by [trashEmails], [markAsRead] and
    [modifyEmailLabels]: one call per identifier inside its own
    [try]/[catch], the outcome pushed on [results]. *)
Fixpoint per_item (attempt : string -> js unit) (done_status : string)
    (ids : list string) (results : list item_result) : js (list item_result) :=
  match ids with
  | [] => ret results
  | id :: rest =>
    let* entry :=
      try_catch
        (let* _ := attempt id in
         ret {| item_id := id; status := done_status; item_error := None |})
        (fun error =>
         ret {| item_id := id; status := "error"; item_error := Some (message error) |}) in
    per_item attempt done_status rest (results ++ [entry])
  end.

(** [results.filter(r => r.status === s).length] *)
Definition count_status (s : string) (results : list item_result) : nat :=
  length (List.filter (fun r => String.eqb (status r) s) results).

Definition not_iterable {A} : js A :=
  throw (TypeError "messageIds is not iterable").

Definition trashEmails (args : arguments) : js tool_result :=
  let* gmail := getGmailClient in
  match messageIds args with
  | None => not_iterable
  | Some messageIds =>
    let* results :=
      per_item (fun id => await messages_trash (MessagesTrash id)) "trashed" messageIds [] in
    ret (Trashed (count_status "trashed" results) results)
  end.

Definition markAsRead (args : arguments) : js tool_result :=
  let* gmail := getGmailClient in
  match messageIds args with
  | None => not_iterable
  | Some messageIds =>
    let* results :=
      per_item (fun id => await messages_modify (MessagesModify id None (Some ["UNREAD"])))
        "marked_read" messageIds [] in
    ret (Marked (count_status "marked_read" results) results)
  end.

Definition modifyEmailLabels (args : arguments) : js tool_result :=
  let addLabelIds := default [] (addLabelIds args) in
  let removeLabelIds := default [] (removeLabelIds args) in
  let* gmail := getGmailClient in
  match messageIds args with
  | None => not_iterable
  | Some messageIds =>
    let* results :=
      per_item (fun id => await messages_modify
                  (MessagesModify id (Some addLabelIds) (Some removeLabelIds)))
        "modified" messageIds [] in
    ret (Modified (count_status "modified" results) results)
  end.

Definition batchModifyLabels (args : arguments) : js tool_result :=
  let addLabelIds := default [] (addLabelIds args) in
  let removeLabelIds := default [] (removeLabelIds args) in
  let* gmail := getGmailClient in
  let* _ := await messages_batchModify
      (MessagesBatchModify (messageIds args) addLabelIds removeLabelIds) in
  match messageIds args with
  | None => throw (TypeError "Cannot read properties of undefined (reading 'length')")
  | Some messageIds =>
    ret (BatchModified true (length messageIds) addLabelIds removeLabelIds)
  end.

Definition createLabel (args : arguments) : js tool_result :=
  let* gmail := getGmailClient in
  let labelBody :=
    {| lb_name := name args;
       lb_labelListVisibility := "labelShow";
       lb_messageListVisibility := "show";
       lb_color :=
         if truthy_str (backgroundColor args) || truthy_str (textColor args)
         then Some (if truthy_str (backgroundColor args) then backgroundColor args else None,
                    if truthy_str (textColor args) then textColor args else None)
         else None |} in
  let* response := await labels_create (LabelsCreate labelBody) in
  ret (LabelCreated response).

Definition deleteLabel (args : arguments) : js tool_result :=
  let* gmail := getGmailClient in
  let* _ := await labels_delete (LabelsDelete (labelId args)) in
  ret (LabelDeleted true (labelId args)).

(** ** Base64, as [Buffer.prototype.toString('base64')] produces it *)

Definition base64_alphabet : string :=
  "ABCDEFGHIJKLMNOPQRSTUVWXYZabcdefghijklmnopqrstuvwxyz0123456789+/".

(** Six bits, most significant first. *)
Definition sextet : Type := bool * bool * bool * bool * bool * bool.

Definition sextet_index (s : sextet) : nat :=
  let '(b5, b4, b3, b2, b1, b0) := s in
  ((if b5 then 32 else 0) + (if b4 then 16 else 0) + (if b3 then 8 else 0) +
   (if b2 then 4 else 0) + (if b1 then 2 else 0) + (if b0 then 1 else 0))%nat.

Definition base64_char (s : sextet) : ascii :=
  default "="%char (String.get (sextet_index s) base64_alphabet).

(** The four sextets of a group of three bytes [a], [b], [c]. *)
Definition sextet1 (a : ascii) : sextet :=
  let 'Ascii a0 a1 a2 a3 a4 a5 a6 a7 := a in (a7, a6, a5, a4, a3, a2).

Definition sextet2 (a b : ascii) : sextet :=
  let 'Ascii a0 a1 a2 a3 a4 a5 a6 a7 := a in
  let 'Ascii b0 b1 b2 b3 b4 b5 b6 b7 := b in (a1, a0, b7, b6, b5, b4).

Definition sextet3 (b c : ascii) : sextet :=
  let 'Ascii b0 b1 b2 b3 b4 b5 b6 b7 := b in
  let 'Ascii c0 c1 c2 c3 c4 c5 c6 c7 := c in (b3, b2, b1, b0, c7, c6).

Definition sextet4 (c : ascii) : sextet :=
  let 'Ascii c0 c1 c2 c3 c4 c5 c6 c7 := c in (c5, c4, c3, c2, c1, c0).

Fixpoint base64 (bytes : string) : string :=
  match bytes with
  | EmptyString => EmptyString
  | String a EmptyString =>
    String (base64_char (sextet1 a)) (String (base64_char (sextet2 a zero)) "==")
  | String a (String b EmptyString) =>
    String (base64_char (sextet1 a)) (String (base64_char (sextet2 a b))
      (String (base64_char (sextet3 b zero)) "="))
  | String a (String b (String c rest)) =>
    String (base64_char (sextet1 a)) (String (base64_char (sextet2 a b))
      (String (base64_char (sextet3 b c)) (String (base64_char (sextet4 c))
        (base64 rest))))
  end.

(** [s.replace(/a/g, b)] for single characters. *)
Fixpoint replace_char (a b : ascii) (s : string) : string :=
  match s with
  | EmptyString => EmptyString
  | String c s' => String (if Ascii.eqb c a then b else c) (replace_char a b s')
  end.

(** [s.replace(/=+$/, '')] *)
Fixpoint strip_padding (s : string) : string :=
  match s with
  | EmptyString => EmptyString
  | String c s' =>
    match strip_padding s' with
    | EmptyString => if Ascii.eqb c "=" then EmptyString else String c EmptyString
    | r => String c r
    end
  end.

(** [Buffer.from(email).toString('base64').replace(/\+/g, '-')
      .replace(/\//g, '_').replace(/=+$/, '')] *)
Definition base64url (email : string) : string :=
  strip_padding (replace_char "/" "_" (replace_char "+" "-" (base64 email))).

(** ** Sending *)

Definition quote : string := String "034" EmptyString.

(** [html.replace(/<[^>]*>/g, '')]: a [<] opens a tag when a [>] follows
    somewhere; the tag runs to the first [>]. *)
Fixpoint strip_tags_from (in_tag : bool) (s : string) : string :=
  match s with
  | EmptyString => EmptyString
  | String c s' =>
    if in_tag
    then strip_tags_from (negb (Ascii.eqb c ">")) s'
    else if Ascii.eqb c "<" && includes ">" s'
         then strip_tags_from true s'
         else String c (strip_tags_from false s')
  end.

Definition strip_tags : string -> string := strip_tags_from false.

(** [path.split('/').pop()] *)
Fixpoint basename (p : string) : string :=
  match p with
  | EmptyString => EmptyString
  | String c p' =>
    if includes "/" p' then basename p'
    else if Ascii.eqb c "/" then p' else p
  end.

Definition digit36 (n : nat) : ascii :=
  default "0"%char (String.get (n mod 36) "0123456789abcdefghijklmnopqrstuvwxyz").

(** [Math.random().toString(36).substr(2, 9)]: a draw is the sequence of
    base-36 digits of the fraction. *)
Definition random_suffix : js string :=
  fun w =>
    match random w with
    | [] => (Returned EmptyString, w)
    | digits :: rest =>
      (Returned (string_of_list_ascii (map digit36 (take 9 digits))), set_random w rest)
    end.

(** [`----=_${kind}_${Date.now()}_${Math.random().toString(36).substr(2, 9)}`] *)
Definition new_boundary (kind : string) : js string :=
  fun w =>
    let stamp : string := pretty (now w) in
    (let* suffix := random_suffix in
     ret ("----=_" +:+ kind +:+ "_" +:+ stamp +:+ "_" +:+ suffix)) w.

(** The [headers] array of [sendEmail] *)
Definition send_headers (args : arguments) : list string :=
  ["To: " +:+ default "" (to args); "Subject: " +:+ default "" (subject args)]
  ++ (if truthy_str (cc args) then ["Cc: " +:+ default "" (cc args)] else [])
  ++ (if truthy_str (bcc args) then ["Bcc: " +:+ default "" (bcc args)] else [])
  ++ (if truthy_str (replyTo args) then ["Reply-To: " +:+ default "" (replyTo args)] else [])
  ++ (if truthy_str (threadId args) then ["In-Reply-To: " +:+ default "" (threadId args)] else []).

(** [body || htmlBody.replace(/<[^>]*>/g, '') + '\r\n\r\n'] *)
Definition plain_version (args : arguments) : string :=
  if truthy_str (body args) then default "" (body args)
  else strip_tags (default "" (htmlBody args)) +:+ CRLF +:+ CRLF.

(** The plain and HTML versions between the delimiters of [boundary], up to
    and including the closing delimiter (without its line break). *)
Definition alternative_versions (boundary : string) (args : arguments) : string :=
  "--" +:+ boundary +:+ CRLF +:+
  "Content-Type: text/plain; charset=UTF-8" +:+ CRLF +:+
  "Content-Transfer-Encoding: 7bit" +:+ CRLF +:+ CRLF +:+
  plain_version args +:+
  "--" +:+ boundary +:+ CRLF +:+
  "Content-Type: text/html; charset=UTF-8" +:+ CRLF +:+
  "Content-Transfer-Encoding: 7bit" +:+ CRLF +:+ CRLF +:+
  default "" (htmlBody args) +:+ CRLF +:+ CRLF +:+
  "--" +:+ boundary +:+ "--".

(** The first part of a message with attachments, after its delimiter line. *)
Definition body_part_text (altBoundary : string) (args : arguments) : string :=
  if truthy_str (htmlBody args)
  then "Content-Type: multipart/alternative; boundary=" +:+ quote +:+ altBoundary +:+ quote
       +:+ CRLF +:+ CRLF +:+
       alternative_versions altBoundary args +:+ CRLF +:+ CRLF
  else "Content-Type: text/plain; charset=UTF-8" +:+ CRLF +:+
       "Content-Transfer-Encoding: 7bit" +:+ CRLF +:+ CRLF +:+
       default "" (body args) +:+ CRLF +:+ CRLF.

(** An attachment part, after its delimiter line. *)
Definition attachment_text (a : attachment) (fileContent : string) : string :=
  let base64Content := base64 fileContent in
  let mimeType := or_else (contentType a) "application/octet-stream" in
  let attachmentFilename := or_else (filename a) (basename (default "undefined" (path a))) in
  "Content-Type: " +:+ mimeType +:+ CRLF +:+
  "Content-Disposition: attachment; filename=" +:+ quote +:+ attachmentFilename +:+ quote
  +:+ CRLF +:+
  "Content-Transfer-Encoding: base64" +:+ CRLF +:+ CRLF +:+
  base64Content +:+ CRLF +:+ CRLF.

(** [existsSync(path)] followed by [readFileSync(path)] *)
Definition read_attachment (a : attachment) : js string :=
  fun w =>
    match path a ≫= (fun p => files w !! p) with
    | Some fileContent => (Returned fileContent, w)
    | None =>
      (Thrown (Error ("Attachment file not found: " +:+ default "undefined" (path a))), w)
    end.

(** The loop over [attachments] *)
Fixpoint add_attachments (mixedBoundary : string) (atts : list attachment)
    (email : string) : js string :=
  match atts with
  | [] => ret email
  | a :: rest =>
    let* fileContent := read_attachment a in
    add_attachments mixedBoundary rest
      (email +:+ "--" +:+ mixedBoundary +:+ CRLF +:+ attachment_text a fileContent)
  end.

(** The text of the message, from the headers to the last line. *)
Definition build_email (args : arguments) : js string :=
  let headers := send_headers args in
  let email := join CRLF headers +:+ CRLF in
  match attachments args with
  | Some (a :: rest) =>
    let* mixedBoundary := new_boundary "Mixed" in
    let email := email +:+ "MIME-Version: 1.0" +:+ CRLF +:+
      "Content-Type: multipart/mixed; boundary=" +:+ quote +:+ mixedBoundary +:+ quote
      +:+ CRLF +:+ CRLF in
    let* altBoundary :=
      (if truthy_str (htmlBody args) then new_boundary "Alternative" else ret EmptyString) in
    let email := email +:+ "--" +:+ mixedBoundary +:+ CRLF +:+
      body_part_text altBoundary args in
    let* email := add_attachments mixedBoundary (a :: rest) email in
    ret (email +:+ "--" +:+ mixedBoundary +:+ "--" +:+ CRLF)
  | _ =>
    if truthy_str (htmlBody args)
    then
      let* boundary := new_boundary "Part" in
      ret (email +:+ "MIME-Version: 1.0" +:+ CRLF +:+
           "Content-Type: multipart/alternative; boundary=" +:+ quote +:+ boundary +:+ quote
           +:+ CRLF +:+ CRLF +:+
           alternative_versions boundary args +:+ CRLF)
    else
      ret (email +:+ "Content-Type: text/plain; charset=UTF-8" +:+ CRLF +:+
           "Content-Transfer-Encoding: 7bit" +:+ CRLF +:+ CRLF +:+
           default "" (body args))
  end.

Definition sendEmail (args : arguments) : js tool_result :=
  let* gmail := getGmailClient in
  if negb (truthy_str (to args)) || negb (truthy_str (subject args)) ||
     (negb (truthy_str (body args)) && negb (truthy_str (htmlBody args)))
  then throw (Error "to, subject, and body (or htmlBody) are required")
  else
    let* email := build_email args in
    let encodedMessage := base64url email in
    let* response := await messages_send
        (MessagesSend encodedMessage
           (if truthy_str (threadId args) then threadId args else None)) in
    ret (Sent {| sr_messageId := sent_id response;
                 sr_threadId := sent_threadId response;
                 sr_to := to args;
                 sr_subject := subject args;
                 sr_attachmentsCount :=
                   match attachments args with
                   | Some (a :: rest) => length (a :: rest)
                   | _ => O
                   end |}).

(** ** Reading a message, and the dispatcher *)

Record tool_response := {
  text : string;
  isError : bool;
}.

(** The [errorMessage] computed in the [catch] of the call handler *)
Definition errorMessage (error : error) : string :=
  if bool_decide (code error = Some 401) || includes "invalid_grant" (message error)
     || includes "invalid_token" (message error)
  then "Gmail authentication expired. Please run 'node scripts/google-auth.js' to re-authenticate. Original error: "
       +:+ message error
  else if includes "Credentials file not found" (message error)
          || includes "Token file not found" (message error)
  then message error
  else message error.

Section Platform.

(** [Buffer.from(data, 'base64').toString('utf-8')] *)
Variable base64_to_utf8 : string -> string.

(** [JSON.stringify(result, null, 2)] *)
Variable JSON_stringify : tool_result -> string.

(** The body of a fetched message: the top-level inline body when it has
    data, else the first [text/plain] part among [payload.parts]. *)
Definition extract_body (payload : message_payload) : string :=
  if truthy_str (body_data payload)
  then base64_to_utf8 (default "" (body_data payload))
  else
    match parts payload with
    | Some parts =>
      match List.find (fun p => String.eqb (mimeType p) "text/plain") parts with
      | Some textPart =>
        if truthy_str (part_data textPart)
        then base64_to_utf8 (default "" (part_data textPart))
        else ""
      | None => ""
      end
    | None => ""
    end.

Definition getEmail (args : arguments) : js tool_result :=
  let* gmail := getGmailClient in
  let* response := await messages_get (MessagesGet (messageId args) "full" None) in
  let hs := headers (payload response) in
  let body := extract_body (payload response) in
  ret (EmailDetail
         {| ed_id := m_id response;
            ed_threadId := m_threadId response;
            ed_from := getHeader hs "From";
            ed_to := getHeader hs "To";
            ed_subject := getHeader hs "Subject";
            ed_date := getHeader hs "Date";
            ed_body := slice0 5000 body;
            ed_labels := m_labelIds response |}).

(** The [switch] of the call handler *)
Definition run_tool (name : string) (args : arguments) : js tool_result :=
  if String.eqb name "list_emails" then listEmails args
  else if String.eqb name "get_email" then getEmail args
  else if String.eqb name "search_emails" then searchEmails args
  else if String.eqb name "get_unread_count" then getUnreadCount
  else if String.eqb name "list_labels" then listLabels
  else if String.eqb name "trash_emails" then trashEmails args
  else if String.eqb name "mark_as_read" then markAsRead args
  else if String.eqb name "create_label" then createLabel args
  else if String.eqb name "delete_label" then deleteLabel args
  else if String.eqb name "modify_email_labels" then modifyEmailLabels args
  else if String.eqb name "batch_modify_labels" then batchModifyLabels args
  else if String.eqb name "send_email" then sendEmail args
  else throw (Error ("Unknown tool: " +:+ name)).

(** The handler registered for [CallToolRequestSchema]; [args] is
    [request.params.arguments], [None] when the request has none. *)
Definition call_tool (name : string) (args : option arguments) (w : world)
    : tool_response * world :=
  let args := default no_arguments args in
  match run_tool name args w with
  | (Returned result, w') =>
    ({| text := JSON_stringify result; isError := false |}, w')
  | (Thrown error, w') =>
    ({| text := "Error: " +:+ errorMessage error; isError := true |}, w')
  end.

End Platform.

(** The names declared by the [ListToolsRequestSchema] handler *)
Definition tool_names : list string :=
  ["list_emails"; "get_email"; "search_emails"; "get_unread_count"; "list_labels";
   "trash_emails"; "mark_as_read"; "create_label"; "delete_label";
   "modify_email_labels"; "batch_modify_labels"; "send_email"].

(** ** Reading the payload back

    The receiving side of the envelope, after RFC 4648 (base64url without
    padding) and RFC 2045/2046 (entities and multipart bodies).  Nothing in
    the server computes these; they say what it means for the payload to be
    decodable and parseable. *)

Definition base64url_alphabet : string :=
  "ABCDEFGHIJKLMNOPQRSTUVWXYZabcdefghijklmnopqrstuvwxyz0123456789-_".

Fixpoint index_of (c : ascii) (s : string) : option nat :=
  match s with
  | EmptyString => None
  | String d s' => if Ascii.eqb c d then Some O else S <$> index_of c s'
  end.

Definition sextet_of_index (n : nat) : sextet :=
  (Nat.testbit n 5, Nat.testbit n 4, Nat.testbit n 3,
   Nat.testbit n 2, Nat.testbit n 1, Nat.testbit n 0).

Definition base64url_value (c : ascii) : option sextet :=
  sextet_of_index <$> index_of c base64url_alphabet.

(** The three bytes spread over four sextets *)
Definition first_byte (s1 s2 : sextet) : ascii :=
  let '(x5, x4, x3, x2, x1, x0) := s1 in
  let '(y5, y4, y3, y2, y1, y0) := s2 in
  Ascii y4 y5 x0 x1 x2 x3 x4 x5.

Definition second_byte (s2 s3 : sextet) : ascii :=
  let '(y5, y4, y3, y2, y1, y0) := s2 in
  let '(z5, z4, z3, z2, z1, z0) := s3 in
  Ascii z2 z3 z4 z5 y0 y1 y2 y3.

Definition third_byte (s3 s4 : sextet) : ascii :=
  let '(z5, z4, z3, z2, z1, z0) := s3 in
  let '(u5, u4, u3, u2, u1, u0) := s4 in
  Ascii u0 u1 u2 u3 u4 u5 z0 z1.

Fixpoint base64url_decode (s : string) : option string :=
  match s with
  | EmptyString => Some EmptyString
  | String c1 EmptyString => None
  | String c1 (String c2 EmptyString) =>
    s1 ← base64url_value c1; s2 ← base64url_value c2;
    Some (String (first_byte s1 s2) EmptyString)
  | String c1 (String c2 (String c3 EmptyString)) =>
    s1 ← base64url_value c1; s2 ← base64url_value c2; s3 ← base64url_value c3;
    Some (String (first_byte s1 s2) (String (second_byte s2 s3) EmptyString))
  | String c1 (String c2 (String c3 (String c4 rest))) =>
    s1 ← base64url_value c1; s2 ← base64url_value c2; s3 ← base64url_value c3;
    s4 ← base64url_value c4; bytes ← base64url_decode rest;
    Some (String (first_byte s1 s2) (String (second_byte s2 s3)
            (String (third_byte s3 s4) bytes)))
  end.

Definition CR : ascii := "013".

Definition LF : ascii := "010".

(** The lines of a text, split at every CRLF *)
Fixpoint lines (s : string) : list string :=
  match s with
  | EmptyString => [EmptyString]
  | String c s' =>
    match s' with
    | String d s'' =>
      if Ascii.eqb c CR && Ascii.eqb d LF then EmptyString :: lines s''
      else
        match lines s' with
        | l :: ls => String c l :: ls
        | [] => [String c EmptyString]
        end
    | EmptyString => [String c EmptyString]
    end
  end.

(** A text without CR and LF *)
Fixpoint no_line_break (s : string) : bool :=
  match s with
  | EmptyString => true
  | String c s' => negb (Ascii.eqb c CR) && negb (Ascii.eqb c LF) && no_line_break s'
  end.

Fixpoint strip_prefix (p s : string) : option string :=
  match p, s with
  | EmptyString, _ => Some s
  | String a p', String b s' => if Ascii.eqb a b then strip_prefix p' s' else None
  | String _ _, EmptyString => None
  end.

(** The text after the first occurrence of [p] *)
Fixpoint after (p s : string) : option string :=
  match strip_prefix p s with
  | Some r => Some r
  | None =>
    match s with
    | EmptyString => None
    | String _ s' => after p s'
    end
  end.

(** The text before the first [c] *)
Fixpoint until (c : ascii) (s : string) : option string :=
  match s with
  | EmptyString => None
  | String d s' => if Ascii.eqb d c then Some EmptyString else String d <$> until c s'
  end.

(** An entity: its header fields, one per line, and the lines of its body *)
Record entity := {
  fields : list string;
  content : list string;
}.

(** The header ends at the first empty line. *)
Fixpoint split_blank (ls : list string) : list string * list string :=
  match ls with
  | [] => ([], [])
  | l :: rest =>
    if String.eqb l "" then ([], rest)
    else let '(h, b) := split_blank rest in (l :: h, b)
  end.

Definition parse_entity (ls : list string) : entity :=
  let '(h, b) := split_blank ls in {| fields := h; content := b |}.

(** The value of the first field called [name] *)
Definition field_value (name : string) (fs : list string) : option string :=
  head (omap (strip_prefix (name +:+ ": ")) fs).

Definition content_type (e : entity) : string :=
  default "text/plain" (field_value "Content-Type" (fields e)).

(** The quoted [boundary] parameter of a content type *)
Definition boundary_parameter (ct : string) : option string :=
  after ("boundary=" +:+ quote) ct ≫= until "034".

Definition delimiter (boundary : string) : string := "--" +:+ boundary.

Definition close_delimiter (boundary : string) : string := "--" +:+ boundary +:+ "--".

(** The parts of a multipart body from inside a part on: the part runs to
    the next delimiter line; the close delimiter ends the last part, and
    what follows it is ignored.  A body without close delimiter has no
    parse. *)
Fixpoint parts_after (boundary : string) (ls : list string) : option (list (list string)) :=
  match ls with
  | [] => None
  | l :: rest =>
    if String.eqb l (close_delimiter boundary) then Some [[]]
    else if String.eqb l (delimiter boundary) then ([] ::.) <$> parts_after boundary rest
    else
      match parts_after boundary rest with
      | Some (p :: ps) => Some ((l :: p) :: ps)
      | _ => None
      end
  end.

(** The parts of a multipart body: the lines before the first delimiter
    are the preamble. *)
Fixpoint multipart_body (boundary : string) (ls : list string) : option (list (list string)) :=
  match ls with
  | [] => None
  | l :: rest =>
    if String.eqb l (delimiter boundary) then parts_after boundary rest
    else if String.eqb l (close_delimiter boundary) then None
    else multipart_body boundary rest
  end.

(** The parts of an entity of type [multipart/subtype] *)
Definition parse_multipart (subtype : string) (e : entity) : option (list entity) :=
  let ct := content_type e in
  if String.prefix ("multipart/" +:+ subtype) ct
  then
    match boundary_parameter ct with
    | Some b =>
      match multipart_body b (content e) with
      | Some ps => Some (map parse_entity ps)
      | None => None
      end
    | None => None
    end
  else None.

Definition parse_message (bytes : string) : entity := parse_entity (lines bytes).

(** No line of [text] is a delimiter of [boundary]. *)
Definition boundary_free (boundary : string) (ls : list string) : bool :=
  forallb (fun l => negb (String.eqb l (delimiter boundary)) &&
                    negb (String.eqb l (close_delimiter boundary))) ls.

(** The lines of a part whose text ends with the line break that belongs to
    the delimiter after it *)
Definition part_lines (text : string) : list string := removelast (lines text).

(** A character that can stand in a quoted boundary: no line break, no
    quote *)
Definition token_char (c : ascii) : bool :=
  negb (Ascii.eqb c CR) && negb (Ascii.eqb c LF) && negb (Ascii.eqb c "034").

Fixpoint token_text (s : string) : bool :=
  match s with
  | EmptyString => true
  | String c s' => token_char c && token_text s'
  end.

(** The text the attachments loop appends, given what the files hold *)
Fixpoint attachments_text (mixedBoundary : string) (atts : list attachment)
    (contents : list string) : string :=
  match atts, contents with
  | a :: atts', fileContent :: contents' =>
    "--" +:+ mixedBoundary +:+ CRLF +:+ attachment_text a fileContent +:+
    attachments_text mixedBoundary atts' contents'
  | _, _ => EmptyString
  end.

Definition ends_with_CRLF (t : string) : Prop := exists x, t = x +:+ CRLF.

(** The content type [sendEmail] declares for an attachment *)
Definition declared_type (a : attachment) : string :=
  or_else (contentType a) "application/octet-stream".

(** The content type [sendEmail] declares for a message with attachments *)
Definition mixed_content_type (mixedBoundary : string) : string :=
  "multipart/mixed; boundary=" +:+ quote +:+ mixedBoundary +:+ quote.

(** ** The three per-item tools, side by side *)

Inductive per_item_tool :=
  | TrashEmails
  | MarkAsRead
  | ModifyEmailLabels.

Definition per_item_handler (t : per_item_tool) : arguments -> js tool_result :=
  match t with
  | TrashEmails => trashEmails
  | MarkAsRead => markAsRead
  | ModifyEmailLabels => modifyEmailLabels
  end.

(** The provider call a tool issues for one identifier *)
Definition per_item_call (t : per_item_tool) (args : arguments) (id : string) : api_call :=
  match t with
  | TrashEmails => MessagesTrash id
  | MarkAsRead => MessagesModify id None (Some ["UNREAD"])
  | ModifyEmailLabels =>
    MessagesModify id (Some (default [] (addLabelIds args)))
      (Some (default [] (removeLabelIds args)))
  end.

Definition per_item_endpoint (t : per_item_tool)
    : gmail_api -> list net_event -> api_call -> reply unit :=
  match t with
  | TrashEmails => messages_trash
  | MarkAsRead => messages_modify
  | ModifyEmailLabels => messages_modify
  end.

Definition per_item_status (t : per_item_tool) : string :=
  match t with
  | TrashEmails => "trashed"
  | MarkAsRead => "marked_read"
  | ModifyEmailLabels => "modified"
  end.

(** The success count and the outcome list of a per-item result *)
Definition per_item_report (r : tool_result) : option (nat * list item_result) :=
  match r with
  | Trashed n results => Some (n, results)
  | Marked n results => Some (n, results)
  | Modified n results => Some (n, results)
  | _ => None
  end.

(** The provider's answer to the call for the [j]-th identifier, [id], of
    [ids], when the loop starts in world [w]: the calls for the identifiers
    before it have been issued by then. *)
Definition nth_reply (t : per_item_tool) (args : arguments) (w : world)
    (ids : list string) (j : nat) (id : string) : reply unit :=
  per_item_endpoint t (gmail w)
    (net w ++ map (fun i => Api (per_item_call t args i)) (take j ids))
    (per_item_call t args id).

(** The entry pushed on [results] for an identifier, given the answer *)
Definition entry_of (done_status : string) (id : string) (r : reply unit) : item_result :=
  match r with
  | Success _ => {| item_id := id; status := done_status; item_error := None |}
  | Failure e => {| item_id := id; status := "error"; item_error := Some (message e) |}
  end.

(** ** The list operation, piece by piece *)

(** The metadata fetch [listEmails] issues for a listed message *)
Definition detail_call (msg : message_ref) : api_call :=
  MessagesGet (Some (ref_id msg)) "metadata" (Some ["From"; "Subject"; "Date"]).

(** The summary [listEmails] pushes for a listed message and its fetched
    detail *)
Definition summary_of (msg : message_ref) (detail : message_data) : email_summary :=
  {| es_id := ref_id msg;
     es_threadId := ref_threadId msg;
     es_from := getHeader (headers (payload detail)) "From";
     es_subject := getHeader (headers (payload detail)) "Subject";
     es_date := getHeader (headers (payload detail)) "Date";
     es_snippet := m_snippet detail |}.

(** The list call of [listEmails], after the defaults *)
Definition list_call (args : arguments) : api_call :=
  MessagesList (default 10 (maxResults args)) (default "" (query args))
    (Some (default ["INBOX"] (labelIds args))).

(** Every character of [s] satisfies [f]. *)
Fixpoint all_chars (f : ascii -> bool) (s : string) : bool :=
  match s with
  | EmptyString => true
  | String c s' => f c && all_chars f s'
  end.

(** [c] occurs in [s]. *)
Definition occurs (c : ascii) (s : string) : bool := includes (String c EmptyString) s.

(** No [<] of the text is followed, anywhere later, by a [>]: the pattern
    [<[^>]*>] matches nowhere. *)
Fixpoint tagless (s : string) : bool :=
  match s with
  | EmptyString => true
  | String c s' => negb (Ascii.eqb c "<" && occurs ">" s') && tagless s'
  end.

(** The two header lines [sendEmail] puts before a version of the body *)
Definition plain_type_line : string := "Content-Type: text/plain; charset=UTF-8".

Definition html_type_line : string := "Content-Type: text/html; charset=UTF-8".

Definition encoding_line : string := "Content-Transfer-Encoding: 7bit".

(** The content type [sendEmail] declares for both bodies without
    attachments *)
Definition alternative_content_type (boundary : string) : string :=
  "multipart/alternative; boundary=" +:+ quote +:+ boundary +:+ quote.

(** ** Notions the properties refer to *)

(** The text the call handler puts before the message of a failure it takes
    for an expired authorization *)
Definition expired_notice : string :=
  "Gmail authentication expired. Please run 'node scripts/google-auth.js' to re-authenticate. Original error: ".


(** Two worlds with the same trace, the same provider and the same files *)
Definition same_outside (w w' : world) : Prop :=
  net w' = net w /\ gmail w' = gmail w /\ files w' = files w.

(** Two worlds that differ at most in the content of the token file *)
Definition same_but_token_file (w w' : world) : Prop :=
  env_GOOGLE_CREDENTIALS_PATH w' = env_GOOGLE_CREDENTIALS_PATH w
  /\ env_GOOGLE_TOKEN_PATH w' = env_GOOGLE_TOKEN_PATH w
  /\ default_credentials_path w' = default_credentials_path w
  /\ default_token_path w' = default_token_path w
  /\ credentials_file w' = credentials_file w
  /\ token_file_writable w' = token_file_writable w
  /\ files w' = files w
  /\ now w' = now w
  /\ random w' = random w
  /\ gmail w' = gmail w
  /\ net w' = net w.

(** Two worlds that differ at most in the random draws left *)
Definition same_but_random (w w' : world) : Prop :=
  env_GOOGLE_CREDENTIALS_PATH w' = env_GOOGLE_CREDENTIALS_PATH w
  /\ env_GOOGLE_TOKEN_PATH w' = env_GOOGLE_TOKEN_PATH w
  /\ default_credentials_path w' = default_credentials_path w
  /\ default_token_path w' = default_token_path w
  /\ credentials_file w' = credentials_file w
  /\ token_file w' = token_file w
  /\ token_file_writable w' = token_file_writable w
  /\ files w' = files w
  /\ now w' = now w
  /\ gmail w' = gmail w
  /\ net w' = net w.

(** A digit of base 36, as [Number.prototype.toString(36)] writes it *)
Definition base36_digit (c : ascii) : bool :=
  occurs c "0123456789abcdefghijklmnopqrstuvwxyz".

(** A header line that [sendEmail] writes after the lines of the [headers]
    array: the MIME version, or a field that describes the content *)
Definition content_field (l : string) : bool :=
  String.prefix "MIME-Version: " l || String.prefix "Content-" l.

(** The values of the header fields called [name], in order *)
Definition field_values (name : string) (fs : list string) : list string :=
  omap (strip_prefix (name +:+ ": ")) fs.

(** The message of the precondition error of [sendEmail] *)
Definition send_precondition_message : string :=
  "to, subject, and body (or htmlBody) are required".

(** The authorization script, as the error texts name it *)
Definition auth_script : string := "scripts/google-auth.js".

(** A character of the base64 text after the two replacements of
    [base64url] *)
Definition url_char (c : ascii) : ascii :=
  let c := if Ascii.eqb c "+" then "-"%char else c in
  if Ascii.eqb c "/" then "_"%char else c.

(** ** Sample requests and worlds *)

(** A plain reply within a thread *)
Definition sample_reply : arguments :=
  {| maxResults := None; query := None; labelIds := None; messageId := None;
     messageIds := None; name := None; backgroundColor := None;
     textColor := None; labelId := None; addLabelIds := None;
     removeLabelIds := None; to := Some "a@example.com"; subject := Some "Re: Hi";
     body := Some "Thanks."; cc := None; bcc := None; replyTo := None;
     threadId := Some "thread-1"; htmlBody := None; attachments := None |}.

Definition sample_reply_email : string :=
  "To: a@example.com" +:+ CRLF +:+ "Subject: Re: Hi" +:+ CRLF +:+
  "In-Reply-To: thread-1" +:+ CRLF +:+
  "Content-Type: text/plain; charset=UTF-8" +:+ CRLF +:+
  "Content-Transfer-Encoding: 7bit" +:+ CRLF +:+ CRLF +:+ "Thanks.".


(** A provider that accepts every call and has an empty mailbox. *)
Definition idle_gmail : gmail_api :=
  {| messages_list := fun _ _ => Success {| messages := None; resultSizeEstimate := None |};
     messages_get := fun _ _ =>
       Success {| m_id := "m1"; m_threadId := "t1"; m_labelIds := []; m_snippet := "";
                  payload := {| headers := []; body_data := None; parts := None |} |};
     messages_trash := fun _ _ => Success ();
     messages_modify := fun _ _ => Success ();
     messages_batchModify := fun _ _ => Success ();
     messages_send := fun _ _ => Success {| sent_id := "s1"; sent_threadId := "t1" |};
     labels_list := fun _ _ => Success [];
     labels_create := fun _ _ => Success {| l_id := "L1"; l_name := "n"; l_type := "user" |};
     labels_delete := fun _ _ => Success () |}.

Definition sample_token : token_bundle :=
  {| access_token := Some "ya29.old";
     refresh_token := Some "1//refresh";
     expiry_date := Some 1700000000000;
     provider_fields := [("token_type", "Bearer")] |}.

Definition sample_credentials : credentials :=
  {| installed := Some {| client_id := "id.apps"; client_secret := "secret" |};
     web := None |}.

(** Credentials and token in place, the token far from expiry. *)
Definition ready_world : world :=
  {| env_GOOGLE_CREDENTIALS_PATH := None;
     env_GOOGLE_TOKEN_PATH := None;
     default_credentials_path := "credentials/google-credentials.json";
     default_token_path := "credentials/google-token.json";
     credentials_file := Some sample_credentials;
     token_file := Some sample_token;
     token_file_writable := true;
     files := {[ "/tmp/a.bin" := "hello" ]};
     now := 1600000000000%N;
     random := [[1; 2; 3]; [4; 5; 6]]%nat;
     gmail := idle_gmail;
     net := [] |}.

(** The same, ten seconds before the token expires. *)
Definition expiring_world : world :=
  {| env_GOOGLE_CREDENTIALS_PATH := None;
     env_GOOGLE_TOKEN_PATH := None;
     default_credentials_path := "credentials/google-credentials.json";
     default_token_path := "credentials/google-token.json";
     credentials_file := Some sample_credentials;
     token_file := Some sample_token;
     token_file_writable := true;
     files := ∅;
     now := 1699999990000%N;
     random := [];
     gmail := idle_gmail;
     net := [] |}.

(** A send request without any body *)
Definition sample_bodiless : arguments :=
  {| maxResults := None; query := None; labelIds := None; messageId := None;
     messageIds := None; name := None; backgroundColor := None;
     textColor := None; labelId := None; addLabelIds := None;
     removeLabelIds := None; to := Some "a@example.com"; subject := Some "Hi";
     body := None; cc := None; bcc := None; replyTo := None; threadId := None;
     htmlBody := None; attachments := None |}.

(** The same, before the authorization flow has written the token file. *)
Definition unauthorized_world : world :=
  {| env_GOOGLE_CREDENTIALS_PATH := None;
     env_GOOGLE_TOKEN_PATH := None;
     default_credentials_path := "credentials/google-credentials.json";
     default_token_path := "credentials/google-token.json";
     credentials_file := Some sample_credentials;
     token_file := None;
     token_file_writable := true;
     files := ∅;
     now := 1600000000000%N;
     random := [];
     gmail := idle_gmail;
     net := [] |}.

(** A provider that refuses to trash the message [b]. *)
Definition flaky_gmail : gmail_api :=
  {| messages_list := messages_list idle_gmail;
     messages_get := messages_get idle_gmail;
     messages_trash := fun _ c =>
       match c with
       | MessagesTrash id =>
         if String.eqb id "b" then Failure (Error "Requested entity was not found.")
         else Success ()
       | _ => Success ()
       end;
     messages_modify := messages_modify idle_gmail;
     messages_batchModify := fun _ _ => Failure (Error "Invalid id value");
     messages_send := messages_send idle_gmail;
     labels_list := labels_list idle_gmail;
     labels_create := labels_create idle_gmail;
     labels_delete := labels_delete idle_gmail |}.

Definition flaky_world : world :=
  {| env_GOOGLE_CREDENTIALS_PATH := None;
     env_GOOGLE_TOKEN_PATH := None;
     default_credentials_path := "credentials/google-credentials.json";
     default_token_path := "credentials/google-token.json";
     credentials_file := Some sample_credentials;
     token_file := Some sample_token;
     token_file_writable := true;
     files := ∅;
     now := 1600000000000%N;
     random := [];
     gmail := flaky_gmail;
     net := [] |}.

(** [{ messageIds: ids }] *)
Definition ids_arguments (ids : list string) : arguments :=
  {| maxResults := None; query := None; labelIds := None; messageId := None;
     messageIds := Some ids; name := None; backgroundColor := None;
     textColor := None; labelId := None; addLabelIds := None;
     removeLabelIds := None; to := None; subject := None; body := None;
     cc := None; bcc := None; replyTo := None; threadId := None;
     htmlBody := None; attachments := None |}.

(** A provider with one stored message, whose body is inline. *)
Definition mailbox_gmail : gmail_api :=
  {| messages_list := fun _ _ =>
       Success {| messages := Some [{| ref_id := "m1"; ref_threadId := "t1" |}];
                  resultSizeEstimate := Some 5 |};
     messages_get := fun _ _ =>
       Success {| m_id := "m1"; m_threadId := "t1"; m_labelIds := ["INBOX"];
                  m_snippet := "hello";
                  payload := {| headers := [{| h_name := "From"; h_value := "a@example.com" |};
                                            {| h_name := "Subject"; h_value := "Hi" |}];
                                body_data := Some "aGVsbG8";
                                parts := None |} |};
     messages_trash := messages_trash idle_gmail;
     messages_modify := messages_modify idle_gmail;
     messages_batchModify := messages_batchModify idle_gmail;
     messages_send := messages_send idle_gmail;
     labels_list := labels_list idle_gmail;
     labels_create := labels_create idle_gmail;
     labels_delete := labels_delete idle_gmail |}.

Definition mailbox_world : world :=
  {| env_GOOGLE_CREDENTIALS_PATH := None;
     env_GOOGLE_TOKEN_PATH := None;
     default_credentials_path := "credentials/google-credentials.json";
     default_token_path := "credentials/google-token.json";
     credentials_file := Some sample_credentials;
     token_file := Some sample_token;
     token_file_writable := true;
     files := ∅;
     now := 1600000000000%N;
     random := [];
     gmail := mailbox_gmail;
     net := [] |}.

Definition sample_client : gmail_client :=
  {| config := {| client_id := "id.apps"; client_secret := "secret" |};
     token := sample_token |}.

(** A text of [n] units *)
Fixpoint filler (n : nat) : string :=
  match n with
  | O => EmptyString
  | S n' => String "x" (filler n')
  end.

(** [{ maxResults, query, labelIds }], the argument object of a list call *)
Definition list_arguments (cap : option Z) (q : option string)
    (labels : option (list string)) : arguments :=
  {| maxResults := cap; query := q; labelIds := labels; messageId := None;
     messageIds := None; name := None; backgroundColor := None;
     textColor := None; labelId := None; addLabelIds := None;
     removeLabelIds := None; to := None; subject := None; body := None;
     cc := None; bcc := None; replyTo := None; threadId := None;
     htmlBody := None; attachments := None |}.

(** A message with both bodies and one attachment *)
Definition sample_report : arguments :=
  {| maxResults := None; query := None; labelIds := None; messageId := None;
     messageIds := None; name := None; backgroundColor := None;
     textColor := None; labelId := None; addLabelIds := None;
     removeLabelIds := None; to := Some "a@example.com"; subject := Some "Report";
     body := Some "See attached."; cc := None; bcc := None; replyTo := None;
     threadId := None; htmlBody := Some "<p>See attached.</p>";
     attachments := Some [{| path := Some "/tmp/a.bin"; filename := None;
                              contentType := None |}] |}.

(** The same message, with a subject that holds an empty line *)
Definition sample_injected : arguments :=
  {| maxResults := None; query := None; labelIds := None; messageId := None;
     messageIds := None; name := None; backgroundColor := None;
     textColor := None; labelId := None; addLabelIds := None;
     removeLabelIds := None; to := Some "a@example.com";
     subject := Some ("Report" +:+ CRLF +:+ CRLF +:+ "sent by the tester");
     body := Some "See attached."; cc := None; bcc := None; replyTo := None;
     threadId := None; htmlBody := Some "<p>See attached.</p>";
     attachments := Some [{| path := Some "/tmp/a.bin"; filename := None;
                              contentType := None |}] |}.

(** The text [build_email] returns in a world, or the empty text *)
Definition email_text (args : arguments) (w : world) : string :=
  match fst (build_email args w) with
  | Returned email => email
  | Thrown _ => EmptyString
  end.

(** A world without the credentials file *)
Definition bare_world : world :=
  {| env_GOOGLE_CREDENTIALS_PATH := Some "/etc/gmail/credentials.json";
     env_GOOGLE_TOKEN_PATH := None;
     default_credentials_path := "credentials/google-credentials.json";
     default_token_path := "credentials/google-token.json";
     credentials_file := None;
     token_file := Some sample_token;
     token_file_writable := true;
     files := ∅;
     now := 1600000000000%N;
     random := [];
     gmail := idle_gmail;
     net := [] |}.

(** The answer to a token refresh: a new access token and expiry, and no
    refresh token *)
Definition sample_refresh : token_bundle :=
  {| access_token := Some "ya29.new"; refresh_token := None;
     expiry_date := Some 1700003600000; provider_fields := [] |}.

(** A provider that lists two messages and cannot fetch the second *)
Definition broken_gmail : gmail_api :=
  {| messages_list := fun _ _ =>
       Success {| messages := Some [{| ref_id := "m1"; ref_threadId := "t1" |};
                                    {| ref_id := "m2"; ref_threadId := "t2" |};
                                    {| ref_id := "m3"; ref_threadId := "t3" |}];
                  resultSizeEstimate := Some 3 |};
     messages_get := fun _ c =>
       match c with
       | MessagesGet (Some "m2") _ _ => Failure (Error "Backend Error")
       | _ => messages_get mailbox_gmail [] c
       end;
     messages_trash := messages_trash idle_gmail;
     messages_modify := messages_modify idle_gmail;
     messages_batchModify := messages_batchModify idle_gmail;
     messages_send := messages_send idle_gmail;
     labels_list := labels_list idle_gmail;
     labels_create := labels_create idle_gmail;
     labels_delete := fun _ _ => Failure (Error "Not Found") |}.

Definition broken_world : world :=
  {| env_GOOGLE_CREDENTIALS_PATH := None;
     env_GOOGLE_TOKEN_PATH := None;
     default_credentials_path := "credentials/google-credentials.json";
     default_token_path := "credentials/google-token.json";
     credentials_file := Some sample_credentials;
     token_file := Some sample_token;
     token_file_writable := true;
     files := ∅;
     now := 1600000000000%N;
     random := [];
     gmail := broken_gmail;
     net := [] |}.

(** A provider that rejects the access token *)
Definition revoked_gmail : gmail_api :=
  {| messages_list := fun _ _ => Failure {| message := "Invalid Credentials"; code := Some 401 |};
     messages_get := messages_get idle_gmail;
     messages_trash := messages_trash idle_gmail;
     messages_modify := messages_modify idle_gmail;
     messages_batchModify := messages_batchModify idle_gmail;
     messages_send := messages_send idle_gmail;
     labels_list := labels_list idle_gmail;
     labels_create := labels_create idle_gmail;
     labels_delete := labels_delete idle_gmail |}.

Definition revoked_world : world :=
  {| env_GOOGLE_CREDENTIALS_PATH := None;
     env_GOOGLE_TOKEN_PATH := None;
     default_credentials_path := "credentials/google-credentials.json";
     default_token_path := "credentials/google-token.json";
     credentials_file := Some sample_credentials;
     token_file := Some sample_token;
     token_file_writable := true;
     files := ∅;
     now := 1600000000000%N;
     random := [];
     gmail := revoked_gmail;
     net := [] |}.

(** [{ name: 'Clients/Aro Ha' }] *)
Definition sample_label : arguments :=
  {| maxResults := None; query := None; labelIds := None; messageId := None;
     messageIds := None; name := Some "Clients/Aro Ha"; backgroundColor := None;
     textColor := None; labelId := None; addLabelIds := None;
     removeLabelIds := None; to := None; subject := None; body := None;
     cc := None; bcc := None; replyTo := None; threadId := None;
     htmlBody := None; attachments := None |}.

(** A plain note of two lines *)
Definition sample_note : arguments :=
  {| maxResults := None; query := None; labelIds := None; messageId := None;
     messageIds := None; name := None; backgroundColor := None;
     textColor := None; labelId := None; addLabelIds := None;
     removeLabelIds := None; to := Some "a@example.com"; subject := Some "Note";
     body := Some ("First line." +:+ CRLF +:+ "Second line.");
     cc := Some "b@example.com"; bcc := None; replyTo := None;
     threadId := None; htmlBody := None; attachments := Some [] |}.

(** A message with an HTML body only *)
Definition sample_page : arguments :=
  {| maxResults := None; query := None; labelIds := None; messageId := None;
     messageIds := None; name := None; backgroundColor := None;
     textColor := None; labelId := None; addLabelIds := None;
     removeLabelIds := None; to := Some "a@example.com"; subject := Some "Page";
     body := None; cc := None; bcc := None; replyTo := None;
     threadId := None; htmlBody := Some "<p>Hello <b>there</b></p>";
     attachments := None |}.

(** A message with both bodies and no attachment *)
Definition sample_both : arguments :=
  {| maxResults := None; query := None; labelIds := None; messageId := None;
     messageIds := None; name := None; backgroundColor := None;
     textColor := None; labelId := None; addLabelIds := None;
     removeLabelIds := None; to := Some "a@example.com"; subject := Some "Page";
     body := Some "Hello there"; cc := None; bcc := None; replyTo := None;
     threadId := None; htmlBody := Some "<p>Hello <b>there</b></p>";
     attachments := None |}.

(** A plain message with one attachment *)
Definition sample_plain_report : arguments :=
  {| maxResults := None; query := None; labelIds := None; messageId := None;
     messageIds := None; name := None; backgroundColor := None;
     textColor := None; labelId := None; addLabelIds := None;
     removeLabelIds := None; to := Some "a@example.com"; subject := Some "Report";
     body := Some "See attached."; cc := None; bcc := None; replyTo := None;
     threadId := None; htmlBody := None;
     attachments := Some [{| path := Some "/tmp/a.bin"; filename := Some "a.bin";
                              contentType := Some "application/pdf" |}] |}.

(** The same, with a second attachment whose file does not exist *)
Definition sample_missing : arguments :=
  {| maxResults := None; query := None; labelIds := None; messageId := None;
     messageIds := None; name := None; backgroundColor := None;
     textColor := None; labelId := None; addLabelIds := None;
     removeLabelIds := None; to := Some "a@example.com"; subject := Some "Report";
     body := Some "See attached."; cc := None; bcc := None; replyTo := None;
     threadId := None; htmlBody := None;
     attachments := Some [{| path := Some "/tmp/a.bin"; filename := None;
                              contentType := None |};
                          {| path := Some "/tmp/none.bin"; filename := None;
                              contentType := None |}] |}.

(** A request without thread reference whose recipient holds a line break
    followed by a header line *)
Definition sample_forged : arguments :=
  {| maxResults := None; query := None; labelIds := None; messageId := None;
     messageIds := None; name := None; backgroundColor := None;
     textColor := None; labelId := None; addLabelIds := None;
     removeLabelIds := None;
     to := Some ("a@example.com" +:+ CRLF +:+ "In-Reply-To: forged-thread");
     subject := Some "Hi"; body := Some "Hello."; cc := None; bcc := None;
     replyTo := None; threadId := None; htmlBody := None; attachments := None |}.

(** A reply whose subject holds an empty line *)
Definition sample_cut_reply : arguments :=
  {| maxResults := None; query := None; labelIds := None; messageId := None;
     messageIds := None; name := None; backgroundColor := None;
     textColor := None; labelId := None; addLabelIds := None;
     removeLabelIds := None; to := Some "a@example.com";
     subject := Some ("Re: Hi" +:+ CRLF +:+ CRLF +:+ "sent by the tester");
     body := Some "Thanks."; cc := None; bcc := None; replyTo := None;
     threadId := Some "thread-1"; htmlBody := None; attachments := None |}.

(** Stand-ins for the two platform functions, for the examples. *)
Definition sample_decode (data : string) : string := data.

Definition sample_stringify (result : tool_result) : string := "{}".

(** * Properties *)

(** ** The credential store *)

Lemma on_tokens_refresh_token tokens token :
  refresh_token (on_tokens tokens token) =
  if truthy_str (refresh_token tokens) then refresh_token tokens else refresh_token token.
Proof.
  unfold on_tokens.
  destruct (truthy_str (refresh_token tokens)), (truthy_str (access_token tokens)),
    (truthy_num (expiry_date tokens)); reflexivity.
Qed.

Lemma on_tokens_access_token tokens token :
  access_token (on_tokens tokens token) =
  if truthy_str (access_token tokens) then access_token tokens else access_token token.
Proof.
  unfold on_tokens.
  destruct (truthy_str (refresh_token tokens)), (truthy_str (access_token tokens)),
    (truthy_num (expiry_date tokens)); reflexivity.
Qed.

Lemma on_tokens_expiry_date tokens token :
  expiry_date (on_tokens tokens token) =
  if truthy_num (expiry_date tokens) then expiry_date tokens else expiry_date token.
Proof.
  unfold on_tokens.
  destruct (truthy_str (refresh_token tokens)), (truthy_str (access_token tokens)),
    (truthy_num (expiry_date tokens)); reflexivity.
Qed.

(** C1.  When the stored bundle has a non-empty refresh token and the refresh
    response carries none, the listener leaves the refresh token as it was,
    in the captured bundle and in the file it rewrites; the access token and
    the expiry timestamp take the response's values whenever the response
    carries them (a non-empty token, a non-zero timestamp). *)
Theorem refresh_token_preserved (tokens : token_bundle) (c : gmail_client) (w : world) :
  truthy_str (refresh_token (token c)) = true ->
  truthy_str (refresh_token tokens) = false ->
  let c' := fst (tokens_listener tokens c w) in
  let w' := snd (tokens_listener tokens c w) in
  token c' = on_tokens tokens (token c)
  /\ refresh_token (token c') = refresh_token (token c)
  /\ (truthy_str (access_token tokens) = true ->
      access_token (token c') = access_token tokens)
  /\ (truthy_num (expiry_date tokens) = true ->
      expiry_date (token c') = expiry_date tokens)
  /\ (token_file_writable w = true -> token_file w' = Some (token c')).
Proof.
  intros Hstored Hresp c' w'. subst c' w'. unfold tokens_listener. cbn [fst snd token].
  repeat split.
  - rewrite on_tokens_refresh_token, Hresp. reflexivity.
  - intros Ha. rewrite on_tokens_access_token, Ha. reflexivity.
  - intros He. rewrite on_tokens_expiry_date, He. reflexivity.
  - intros Hw. rewrite Hw. reflexivity.
Qed.

Lemma refresh_token_preserved_witness :
  let tokens := {| access_token := Some "ya29.new"; refresh_token := None;
                   expiry_date := Some 1700003600000; provider_fields := [] |} in
  let c := {| config := {| client_id := "id"; client_secret := "s" |};
              token := sample_token |} in
  refresh_token (token (fst (tokens_listener tokens c ready_world))) = Some "1//refresh"
  /\ access_token (token (fst (tokens_listener tokens c ready_world))) = Some "ya29.new".
Proof.
  intros tokens c.
  destruct (refresh_token_preserved tokens c ready_world) as (_ & Hr & Ha & _).
  - reflexivity.
  - reflexivity.
  - split.
    + rewrite Hr. reflexivity.
    + rewrite Ha; reflexivity.
Defined.

Lemma getGmailClient_no_token w cr :
  credentials_file w = Some cr ->
  token_file w = None ->
  getGmailClient w =
  (Thrown (Error ("Token file not found: " +:+ getTokenPath w +:+
                  ". Please run scripts/google-auth.js to authenticate.")), w).
Proof. intros Hc Ht. unfold getGmailClient. rewrite Hc, Ht. reflexivity. Qed.

(** Obtaining the client issues no provider call: the trace grows by at most
    the token refresh. *)
Lemma getGmailClient_trace w c w1 :
  getGmailClient w = (Returned c, w1) ->
  gmail w1 = gmail w /\ files w1 = files w /\ random w1 = random w /\ now w1 = now w
  /\ (net w1 = net w \/ net w1 = net w ++ [OAuthRefresh]).
Proof.
  unfold getGmailClient. intros H.
  destruct (credentials_file w); [|discriminate].
  destruct (token_file w); [|discriminate].
  destruct (match installed c0 with Some c1 => Some c1 | None => web c0 end); [|discriminate].
  destruct (truthy_num (expiry_date t) && _); inversion H; subst; cbn; auto 10.
Qed.

Lemma getGmailClient_failure w e w1 :
  getGmailClient w = (Thrown e, w1) -> w1 = w.
Proof.
  unfold getGmailClient. intros H.
  destruct (credentials_file w); [|by inversion H].
  destruct (token_file w); [|by inversion H].
  destruct (match installed c with Some c1 => Some c1 | None => web c end); [|by inversion H].
  destruct (truthy_num (expiry_date t) && _); inversion H.
Qed.

Lemma api_calls_app t1 t2 : api_calls (t1 ++ t2) = api_calls t1 ++ api_calls t2.
Proof. unfold api_calls. apply omap_app. Qed.

Lemma getGmailClient_api_calls w c w1 :
  getGmailClient w = (Returned c, w1) -> api_calls (net w1) = api_calls (net w).
Proof.
  intros H. destruct (getGmailClient_trace _ _ _ H) as (_ & _ & _ & _ & [-> | ->]);
    [reflexivity|].
  rewrite api_calls_app. cbn. apply app_nil_r.
Qed.

(** ** Sending: the precondition *)

(** C3, as stated, fails.  With the token file absent, a send request
    without any body fails with the store's error, not with the precondition
    error; and with a token about to expire, the precondition error comes
    after the store has started a token refresh over the network. *)
Lemma send_without_body_unauthorized :
  sendEmail sample_bodiless unauthorized_world =
    (Thrown (Error "Token file not found: credentials/google-token.json. Please run scripts/google-auth.js to authenticate."),
     unauthorized_world)
  /\ fst (sendEmail sample_bodiless unauthorized_world) <>
     Thrown (Error send_precondition_message)
  /\ fst (sendEmail sample_bodiless expiring_world) =
     Thrown (Error send_precondition_message)
  /\ net (snd (sendEmail sample_bodiless expiring_world)) = [OAuthRefresh].
Proof.
  split; [reflexivity|]. split; [discriminate|]. split; reflexivity.
Qed.

(** C3, amended.  A send request that lacks the recipient, the subject, or
    both bodies always fails and never reaches the provider.  Whenever the
    credential store hands out a client, the failure is the precondition
    error, raised right after the client was obtained: the only network
    event that can precede it is the store's proactive token refresh.
    When the store fails instead, its error is the one reported. *)
Theorem send_precondition (args : arguments) (w : world) :
  truthy_str (to args) = false \/ truthy_str (subject args) = false \/
  (truthy_str (body args) = false /\ truthy_str (htmlBody args) = false) ->
  exists e w',
    sendEmail args w = (Thrown e, w')
    /\ api_calls (net w') = api_calls (net w)
    /\ (forall c w1, getGmailClient w = (Returned c, w1) ->
         e = Error send_precondition_message /\ w' = w1
         /\ (net w' = net w \/ net w' = net w ++ [OAuthRefresh]))
    /\ (forall e0 w0, getGmailClient w = (Thrown e0, w0) -> e = e0 /\ w' = w).
Proof.
  intros Hargs.
  assert (Hguard : negb (truthy_str (to args)) || negb (truthy_str (subject args)) ||
     (negb (truthy_str (body args)) && negb (truthy_str (htmlBody args))) = true).
  { destruct Hargs as [-> | [-> | [-> ->]]]; cbn;
      repeat (rewrite ?orb_true_r, ?orb_true_l); reflexivity. }
  unfold sendEmail, bind. rewrite Hguard.
  destruct (getGmailClient w) as [[c|e] w1] eqn:Hc.
  - exists (Error send_precondition_message), w1. split; [reflexivity|].
    split; [eauto using getGmailClient_api_calls|]. split.
    + intros c' w1' Heq. inversion Heq; subst.
      split; [reflexivity|]. split; [reflexivity|].
      by destruct (getGmailClient_trace _ _ _ Hc) as (_ & _ & _ & _ & ?).
    + intros e0 w0 Heq. discriminate.
  - exists e, w1. split; [reflexivity|].
    apply getGmailClient_failure in Hc. subst w1. split; [reflexivity|]. split.
    + intros c w1 Heq. discriminate.
    + intros e0 w0 Heq. by inversion Heq.
Qed.

Lemma send_precondition_witness :
  sendEmail no_arguments ready_world =
    (Thrown (Error send_precondition_message), ready_world).
Proof.
  destruct (send_precondition no_arguments ready_world) as (e & w' & Hrun & _ & Hready & _).
  - left. reflexivity.
  - destruct (Hready sample_client ready_world eq_refl) as (-> & -> & _). exact Hrun.
Defined.

(** ** The dispatcher and the missing token file *)

Lemma prefix_append p s : String.prefix p (p +:+ s) = true.
Proof.
  induction p as [|c p IH]; simpl.
  - by destruct s.
  - destruct (Ascii.ascii_dec c c); [exact IH | congruence].
Qed.

Lemma includes_append_r p a b : includes p b = true -> includes p (a +:+ b) = true.
Proof.
  intros H. induction a as [|c a IH]; simpl; [exact H|].
  rewrite IH. apply orb_true_r.
Qed.

Lemma includes_prefix p s : String.prefix p s = true -> includes p s = true.
Proof. intros H. destruct s; simpl; simpl in H; rewrite H; reflexivity. Qed.

Lemma includes_here p s : includes p (p +:+ s) = true.
Proof. apply includes_prefix, prefix_append. Qed.

Lemma includes_middle p a b : includes p (a +:+ p +:+ b) = true.
Proof. apply includes_append_r, includes_here. Qed.

Lemma token_missing_text path :
  includes auth_script
    ("Error: " +:+ errorMessage (Error ("Token file not found: " +:+ path +:+
        ". Please run scripts/google-auth.js to authenticate."))) = true.
Proof.
  apply includes_append_r. unfold errorMessage. cbn [message code Error].
  set (msg := "Token file not found: " +:+ path +:+ _).
  assert (Hmsg : includes auth_script msg = true).
  { subst msg. apply includes_append_r, includes_append_r.
    apply (includes_middle auth_script ". Please run " " to authenticate."). }
  destruct (bool_decide _ || _ || _).
  - apply (includes_middle auth_script "Gmail authentication expired. Please run 'node ").
  - destruct (_ || _); exact Hmsg.
Qed.

Section Dispatch.

Variable base64_to_utf8 : string -> string.
Variable JSON_stringify : tool_result -> string.

Lemma run_tool_unauthorized name args w e :
  In name tool_names ->
  getGmailClient w = (Thrown e, w) ->
  run_tool base64_to_utf8 name args w = (Thrown e, w).
Proof.
  intros Hin Hc. unfold tool_names in Hin. cbn [In] in Hin.
  repeat (destruct Hin as [<- | Hin]; [
    unfold run_tool; cbn [String.eqb Ascii.eqb Bool.eqb];
    unfold listEmails, getEmail, searchEmails, listEmails, getUnreadCount, listLabels,
      trashEmails, markAsRead, createLabel, deleteLabel, modifyEmailLabels,
      batchModifyLabels, sendEmail, bind;
    rewrite Hc; reflexivity |]).
  destruct Hin.
Qed.

(** C8, amended.  With the credentials file present and the token file
    absent, a call to any of the twelve registered tools (get_unread_count
    among them) is answered, without a fault and without a provider call,
    by an error-flagged text that names the authorization script to run. *)
Theorem missing_token_payload (name : string) (args : option arguments) (w : world)
    (cr : credentials) :
  In name tool_names ->
  credentials_file w = Some cr ->
  token_file w = None ->
  exists t,
    call_tool base64_to_utf8 JSON_stringify name args w =
      ({| text := t; isError := true |}, w)
    /\ includes auth_script t = true
    /\ includes "Token file not found" t = true.
Proof.
  intros Hin Hcr Htok.
  pose proof (getGmailClient_no_token w cr Hcr Htok) as Hc.
  unfold call_tool. rewrite (run_tool_unauthorized _ _ _ _ Hin Hc).
  eexists. split; [reflexivity|]. split.
  - apply token_missing_text.
  - apply includes_append_r. unfold errorMessage. cbn [message code Error].
    destruct (bool_decide _ || _ || _).
    + apply includes_append_r.
      apply (includes_here "Token file not found").
    + destruct (_ || _); apply (includes_here "Token file not found").
Qed.

End Dispatch.

(** C8, as stated, fails for a call that names no registered tool: the
    payload is error-flagged but says nothing of the authorization flow. *)
Lemma unknown_tool_unauthorized :
  call_tool sample_decode sample_stringify "no_such_tool" None unauthorized_world =
    ({| text := "Error: Unknown tool: no_such_tool"; isError := true |},
     unauthorized_world)
  /\ includes auth_script "Error: Unknown tool: no_such_tool" = false.
Proof. split; reflexivity. Qed.

Lemma missing_token_payload_witness :
  exists t,
    call_tool sample_decode sample_stringify "get_unread_count" None unauthorized_world =
      ({| text := t; isError := true |}, unauthorized_world)
    /\ includes auth_script t = true
    /\ includes "Token file not found" t = true.
Proof.
  apply (missing_token_payload sample_decode sample_stringify "get_unread_count" None
           unauthorized_world sample_credentials).
  - simpl. auto 10.
  - reflexivity.
  - reflexivity.
Defined.

(** ** Per-item tools *)

Lemma set_net_net w : set_net w (net w) = w.
Proof. by destruct w. Qed.

Lemma set_net_set_net w t1 t2 : set_net (set_net w t1) t2 = set_net w t2.
Proof. reflexivity. Qed.

(** The loop runs to the end of the list whatever the provider answers: it
    issues one call per identifier and pushes one entry per identifier. *)
Lemma per_item_run endpoint (mk : string -> api_call) done_status ids :
  forall results w,
    per_item (fun id => await endpoint (mk id)) done_status ids results w =
    (Returned (results ++
       imap (fun j id => entry_of done_status id
               (endpoint (gmail w) (net w ++ map (fun i => Api (mk i)) (take j ids)) (mk id)))
            ids),
     set_net w (net w ++ map (fun i => Api (mk i)) ids)).
Proof.
  induction ids as [|id rest IH]; intros results w.
  - cbn. unfold ret. by rewrite !app_nil_r, set_net_net.
  - cbn [per_item]. unfold bind at 1. unfold try_catch, bind, await, ret.
    assert (Hstep : forall entry,
      per_item (fun id0 => await endpoint (mk id0)) done_status rest (results ++ [entry])
        (set_net w (net w ++ [Api (mk id)])) =
      (Returned (results ++ entry ::
         imap (fun j id0 => entry_of done_status id0
                 (endpoint (gmail w)
                    (net w ++ map (fun i => Api (mk i)) (take (S j) (id :: rest))) (mk id0)))
              rest),
       set_net w (net w ++ map (fun i => Api (mk i)) (id :: rest)))).
    { intros entry. rewrite IH. f_equal.
      - rewrite <- app_assoc. cbn [app]. do 3 f_equal.
        apply imap_ext. intros j x _. cbn. by rewrite <- app_assoc.
      - cbn. by rewrite <- app_assoc. }
    cbn [imap]. cbn [take map]. rewrite app_nil_r.
    destruct (endpoint (gmail w) (net w) (mk id)) as [e|[]]; cbn [entry_of];
      rewrite Hstep; reflexivity.
Qed.

Lemma count_status_all_done done_status (g : nat -> string -> item_result) ids :
  (forall j id, ids !! j = Some id -> status (g j id) = done_status) ->
  count_status done_status (imap g ids) = length ids.
Proof.
  revert g. induction ids as [|id rest IH]; intros g Hg; [reflexivity|].
  unfold count_status in *. cbn [imap List.filter].
  rewrite (Hg O id eq_refl), String.eqb_refl. cbn [length]. f_equal.
  apply IH. intros j x Hx. apply (Hg (S j) x Hx).
Qed.

Lemma count_status_one_error done_status (g : nat -> string -> item_result) ids k :
  done_status <> "error" ->
  (k < length ids)%nat ->
  (forall j id, ids !! j = Some id ->
     status (g j id) = if decide (j = k) then "error" else done_status) ->
  count_status done_status (imap g ids) = (length ids - 1)%nat.
Proof.
  intros Hne. revert g k. induction ids as [|id rest IH]; intros g k Hk Hg.
  - cbn in Hk. lia.
  - unfold count_status in *. cbn [imap List.filter].
    rewrite (Hg O id eq_refl). destruct k as [|k].
    + cbn [decide]. rewrite decide_True by reflexivity.
      replace (String.eqb "error" done_status) with false
        by (symmetry; apply String.eqb_neq; congruence).
      fold (count_status done_status (imap (g ∘ S) rest)).
      rewrite count_status_all_done; [cbn; lia|].
      intros j x Hx. cbn. rewrite (Hg (S j) x Hx). by rewrite decide_False by lia.
    + rewrite decide_False by lia. rewrite String.eqb_refl. cbn [length].
      rewrite (IH (g ∘ S) k).
      * cbn in Hk. lia.
      * cbn in Hk. lia.
      * intros j x Hx. cbn. rewrite (Hg (S j) x Hx).
        destruct (decide (j = k)); [by rewrite decide_True by lia | by rewrite decide_False by lia].
Qed.

Lemma api_calls_Api {A} (f : A -> api_call) (l : list A) :
  api_calls (map (fun i => Api (f i)) l) = map f l.
Proof. induction l as [|x l IH]; cbn; [reflexivity | by rewrite <- IH]. Qed.

Lemma per_item_handler_run t args ids w c w1 :
  messageIds args = Some ids ->
  getGmailClient w = (Returned c, w1) ->
  let results :=
    imap (fun j id => entry_of (per_item_status t) id (nth_reply t args w1 ids j id)) ids in
  exists r,
    per_item_handler t args w =
      (Returned r,
       set_net w1 (net w1 ++ map (fun i => Api (per_item_call t args i)) ids))
    /\ per_item_report r = Some (count_status (per_item_status t) results, results).
Proof.
  intros Hids Hc results. subst results. unfold nth_reply.
  destruct t; cbn [per_item_handler per_item_status per_item_endpoint];
    unfold trashEmails, markAsRead, modifyEmailLabels; unfold bind at 1;
    rewrite Hc, Hids; unfold bind, ret.
  - rewrite (per_item_run messages_trash (per_item_call TrashEmails args)).
    eexists. split; reflexivity.
  - rewrite (per_item_run messages_modify (per_item_call MarkAsRead args)).
    eexists. split; reflexivity.
  - rewrite (per_item_run messages_modify (per_item_call ModifyEmailLabels args)).
    eexists. split; reflexivity.
Qed.

Lemma per_item_status_not_error t : per_item_status t <> "error".
Proof. by destruct t. Qed.

(** C4.  A per-item tool (trash, mark read, modify labels) given the
    identifiers [ids], among whose provider calls exactly the [k]-th fails,
    still calls the provider for every identifier and returns normally: the
    success count is [length ids - 1], the [k]-th entry is the failing
    identifier with status [error] and the provider's message, and every
    other entry reports its identifier with the tool's success status. *)
Theorem one_failure_reported (t : per_item_tool) (args : arguments) (ids : list string)
    (w w1 : world) (c : gmail_client) (k : nat) (failing : string) (e : error) :
  messageIds args = Some ids ->
  getGmailClient w = (Returned c, w1) ->
  ids !! k = Some failing ->
  nth_reply t args w1 ids k failing = Failure e ->
  (forall j id, j <> k -> ids !! j = Some id ->
     nth_reply t args w1 ids j id = Success ()) ->
  exists r results w2,
    per_item_handler t args w = (Returned r, w2)
    /\ per_item_report r = Some ((length ids - 1)%nat, results)
    /\ length results = length ids
    /\ results !! k =
         Some {| item_id := failing; status := "error"; item_error := Some (message e) |}
    /\ (forall j id, j <> k -> ids !! j = Some id ->
          results !! j =
            Some {| item_id := id; status := per_item_status t; item_error := None |})
    /\ api_calls (net w2) = api_calls (net w) ++ map (per_item_call t args) ids.
Proof.
  intros Hids Hc Hk Hfail Hok.
  destruct (per_item_handler_run t args ids w c w1 Hids Hc) as (r & Hrun & Hrep).
  eexists r, _, _. split; [exact Hrun|]. split; [|split; [|split; [|split]]].
  - rewrite Hrep. f_equal. f_equal.
    apply (count_status_one_error _ _ ids k).
    + apply per_item_status_not_error.
    + by apply lookup_lt_Some in Hk.
    + intros j id Hj. destruct (decide (j = k)) as [->|Hne].
      * assert (id = failing) as -> by congruence. by rewrite Hfail.
      * by rewrite (Hok j id Hne Hj).
  - apply length_imap.
  - rewrite list_lookup_imap, Hk. cbn. by rewrite Hfail.
  - intros j id Hne Hj. rewrite list_lookup_imap, Hj. cbn. by rewrite (Hok j id Hne Hj).
  - cbn [net set_net]. rewrite api_calls_app, api_calls_Api.
    by rewrite (getGmailClient_api_calls _ _ _ Hc).
Qed.

Lemma one_failure_reported_witness :
  exists r results w2,
    trashEmails (ids_arguments ["a"; "b"; "c"]) flaky_world = (Returned r, w2)
    /\ per_item_report r = Some (2%nat, results)
    /\ results !! 1%nat =
         Some {| item_id := "b"; status := "error";
                 item_error := Some "Requested entity was not found." |}
    /\ results !! 0%nat = Some {| item_id := "a"; status := "trashed"; item_error := None |}
    /\ results !! 2%nat = Some {| item_id := "c"; status := "trashed"; item_error := None |}.
Proof.
  destruct (one_failure_reported TrashEmails (ids_arguments ["a"; "b"; "c"]) ["a"; "b"; "c"]
              flaky_world flaky_world
              {| config := {| client_id := "id.apps"; client_secret := "secret" |};
                 token := sample_token |}
              1%nat "b" (Error "Requested entity was not found."))
    as (r & results & w2 & Hrun & Hrep & _ & Hk & Hothers & _).
  - reflexivity.
  - reflexivity.
  - reflexivity.
  - reflexivity.
  - intros j id Hne Hj. destruct j as [|[|[|j]]]; cbn in Hj; try discriminate;
      try congruence; inversion Hj; reflexivity.
  - exists r, results, w2. split; [exact Hrun|]. split; [exact Hrep|].
    split; [exact Hk|]. split; [by apply Hothers | by apply Hothers].
Defined.

(** ** Reading a message *)

Lemma slice0_length n s : String.length (slice0 n s) = Nat.min n (String.length s).
Proof.
  revert s. induction n as [|n IH]; intros s; [reflexivity|].
  destruct s as [|c s]; [reflexivity|]. cbn. by rewrite IH.
Qed.

Lemma slice0_all n s : (String.length s <= n)%nat -> slice0 n s = s.
Proof.
  revert s. induction n as [|n IH]; intros s Hlen.
  - destruct s; [reflexivity | cbn in Hlen; lia].
  - destruct s as [|c s]; [reflexivity|]. cbn in *. rewrite IH; [reflexivity | lia].
Qed.

Lemma slice0_prefix n s : exists rest, s = slice0 n s +:+ rest.
Proof.
  revert s. induction n as [|n IH]; intros s.
  - by exists s.
  - destruct s as [|c s]; [by exists EmptyString|].
    destruct (IH s) as [rest Hrest]. exists rest.
    change (String c s = String c (slice0 n s +:+ rest)). by rewrite <- Hrest.
Qed.

Lemma append_length a b : String.length (a +:+ b) = (String.length a + String.length b)%nat.
Proof.
  induction a as [|c a IH]; [reflexivity|].
  change (S (String.length (a +:+ b)) = S (String.length a + String.length b)).
  by rewrite IH.
Qed.

Section Reading.

Variable base64_to_utf8 : string -> string.

(** C5.  The body returned by the get operation is the decoded body cut to
    its first 5000 units: never longer than 5000; a decoded body of 5001
    units comes back as its first 5000 units, the last one dropped; a decoded
    body of at most 5000 units, so one of exactly 5000, comes back as it
    is. *)
Theorem body_truncated (args : arguments) (w w1 : world) (c : gmail_client)
    (m : message_data) :
  getGmailClient w = (Returned c, w1) ->
  messages_get (gmail w1) (net w1) (MessagesGet (messageId args) "full" None) = Success m ->
  let decoded := extract_body base64_to_utf8 (payload m) in
  exists email w2,
    getEmail base64_to_utf8 args w = (Returned (EmailDetail email), w2)
    /\ ed_body email = slice0 5000 decoded
    /\ (String.length (ed_body email) <= 5000)%nat
    /\ (String.length decoded = S 5000 ->
        String.length (ed_body email) = 5000%nat
        /\ exists u, decoded = ed_body email +:+ String u EmptyString)
    /\ (String.length decoded = 5000%nat -> ed_body email = decoded)
    /\ ((String.length decoded <= 5000)%nat -> ed_body email = decoded).
Proof.
  intros Hc Hget decoded.
  unfold getEmail, bind. rewrite Hc. unfold await. rewrite Hget. unfold ret.
  eexists _, _. split; [reflexivity|]. cbn [ed_body]. fold decoded.
  split; [reflexivity|]. split; [rewrite slice0_length; apply Nat.le_min_l|].
  split; [|split].
  - intros Hlen.
    assert (Hcut : String.length (slice0 5000 decoded) = 5000%nat).
    { rewrite slice0_length, Hlen. reflexivity. }
    split; [exact Hcut|].
    destruct (slice0_prefix 5000 decoded) as [rest Hrest].
    assert (Hone : String.length rest = 1%nat).
    { apply (f_equal String.length) in Hrest.
      rewrite append_length, Hcut, Hlen in Hrest.
      apply (Nat.add_cancel_l _ _ 5000). rewrite <- Hrest. reflexivity. }
    destruct rest as [|u [|v rest]]; try discriminate. by exists u.
  - intros Hlen. apply slice0_all. rewrite Hlen. apply Nat.le_refl.
  - apply slice0_all.
Qed.

End Reading.

Lemma body_truncated_witness :
  exists email w2,
    getEmail (fun _ => filler (S 5000)) no_arguments mailbox_world =
      (Returned (EmailDetail email), w2)
    /\ ed_body email = filler 5000.
Proof.
  destruct (body_truncated (fun _ => filler (S 5000)) no_arguments mailbox_world mailbox_world
              sample_client
              {| m_id := "m1"; m_threadId := "t1"; m_labelIds := ["INBOX"];
                 m_snippet := "hello";
                 payload := {| headers := [{| h_name := "From"; h_value := "a@example.com" |};
                                           {| h_name := "Subject"; h_value := "Hi" |}];
                               body_data := Some "aGVsbG8";
                               parts := None |} |})
    as (email & w2 & Hrun & Hbody & _).
  - reflexivity.
  - reflexivity.
  - exists email, w2. split; [exact Hrun|]. rewrite Hbody. vm_compute. reflexivity.
Defined.

(** ** Listing and searching *)

Lemma bind_returned {A B} (m : js A) (k : A -> js B) w b w2 :
  bind m k w = (Returned b, w2) ->
  exists a w1, m w = (Returned a, w1) /\ k a w1 = (Returned b, w2).
Proof.
  unfold bind. destruct (m w) as [[a|e] w1]; [eauto | discriminate].
Qed.

Lemma fetch_summaries_trace msgs :
  forall acc w, exists rest, net (snd (fetch_summaries msgs acc w)) = net w ++ rest.
Proof.
  induction msgs as [|msg msgs IH]; intros acc w.
  - exists []. cbn. by rewrite app_nil_r.
  - cbn [fetch_summaries]. unfold bind, await.
    destruct (messages_get _ _ _) as [e|d].
    + eexists. cbn. reflexivity.
    + edestruct IH as [rest Hrest]. rewrite Hrest. cbn [net set_net].
      rewrite <- app_assoc. eauto.
Qed.

(** The first provider call of a list operation carries the cap, the query
    and the label filter after the defaults of the destructuring. *)
Lemma listEmails_first_call args w c w1 :
  getGmailClient w = (Returned c, w1) ->
  exists rest,
    net (snd (listEmails args w)) =
    net w1 ++ Api (MessagesList (default 10 (maxResults args)) (default "" (query args))
                     (Some (default ["INBOX"] (labelIds args)))) :: rest.
Proof.
  intros Hc. unfold listEmails, bind at 1. rewrite Hc.
  unfold bind at 1. unfold await.
  destruct (messages_list _ _ _) as [e|d].
  - exists []. reflexivity.
  - unfold bind, ret.
    match goal with
    | |- context [fetch_summaries ?m ?a ?w0] =>
      destruct (fetch_summaries_trace m a w0) as [rest Hrest];
      destruct (fetch_summaries m a w0) as [[emails|e] w3]
    end; cbn [snd] in Hrest; cbn [snd]; rewrite Hrest; cbn [net set_net];
      rewrite <- app_assoc; eauto.
Qed.

(** C6.  A search with query [q] and cap [cap] is, step for step, the list
    operation called with that cap, the empty label list and [q] itself:
    same result, same final world; and the provider's list call that follows
    carries [q] unchanged, the cap and the empty label filter. *)
Theorem search_is_list (args : arguments) (q : string) (cap : Z) (w : world) :
  query args = Some q ->
  maxResults args = Some cap ->
  searchEmails args w = listEmails (list_arguments (Some cap) (Some q) (Some [])) w
  /\ forall c w1, getGmailClient w = (Returned c, w1) ->
       exists rest,
         net (snd (searchEmails args w)) =
         net w1 ++ Api (MessagesList cap q (Some [])) :: rest.
Proof.
  intros Hq Hcap. unfold searchEmails. rewrite Hq, Hcap.
  split; [reflexivity|].
  intros c w1 Hc.
  exact (listEmails_first_call (list_arguments (Some cap) (Some q) (Some [])) _ _ _ Hc).
Qed.

Lemma search_is_list_witness :
  searchEmails (list_arguments (Some 3) (Some "from:(a b) OR {x") (Some ["SPAM"])) mailbox_world =
  listEmails (list_arguments (Some 3) (Some "from:(a b) OR {x") (Some [])) mailbox_world.
Proof.
  apply (search_is_list (list_arguments (Some 3) (Some "from:(a b) OR {x") (Some ["SPAM"]))
           "from:(a b) OR {x" 3 mailbox_world); reflexivity.
Defined.

(** C10.  The list call that reaches the provider carries, for each field the
    argument object omits, the fixed default: cap 10, empty query, label
    filter [INBOX]; a search carries cap 20 when none is given and always
    the empty label filter, whatever the argument object holds. *)
Theorem list_search_defaults (args : arguments) (w w1 : world) (c : gmail_client) :
  getGmailClient w = (Returned c, w1) ->
  (exists rest,
     net (snd (listEmails args w)) =
     net w1 ++ Api (MessagesList (default 10 (maxResults args)) (default "" (query args))
                      (Some (default ["INBOX"] (labelIds args)))) :: rest)
  /\ (exists rest,
       net (snd (listEmails no_arguments w)) =
       net w1 ++ Api (MessagesList 10 "" (Some ["INBOX"])) :: rest)
  /\ (exists rest,
       net (snd (searchEmails args w)) =
       net w1 ++ Api (MessagesList (default 20 (maxResults args)) (default "" (query args))
                        (Some [])) :: rest).
Proof.
  intros Hc. split; [|split].
  - apply (listEmails_first_call _ _ _ _ Hc).
  - apply (listEmails_first_call no_arguments _ _ _ Hc).
  - exact (listEmails_first_call
             (list_arguments (Some (default 20 (maxResults args))) (query args) (Some []))
             _ _ _ Hc).
Qed.

Lemma list_search_defaults_witness :
  (exists rest,
     net (snd (listEmails no_arguments mailbox_world)) =
     Api (MessagesList 10 "" (Some ["INBOX"])) :: rest)
  /\ (exists rest,
       net (snd (searchEmails (list_arguments None (Some "is:unread") (Some ["SPAM"]))
                   mailbox_world)) =
       Api (MessagesList 20 "is:unread" (Some [])) :: rest).
Proof.
  destruct (list_search_defaults (list_arguments None (Some "is:unread") (Some ["SPAM"]))
              mailbox_world mailbox_world sample_client) as (_ & Hlist & Hsearch).
  - reflexivity.
  - split; [exact Hlist | exact Hsearch].
Defined.

(** ** The batch variant of label modification *)

Section Batch.

Variable base64_to_utf8 : string -> string.
Variable JSON_stringify : tool_result -> string.

(** C7.  A batch-modify-labels call issues one provider call, the batch
    call for the whole identifier list, and nothing else.  When that call
    fails the handler throws the provider's error as it is, and the
    dispatcher's answer is the error-flagged text made from that error
    alone: no per-item list, no count.  When it succeeds the result counts
    the whole list. *)
Theorem batch_modify_single_call (args : arguments) (w w1 : world) (c : gmail_client) :
  getGmailClient w = (Returned c, w1) ->
  let call := MessagesBatchModify (messageIds args) (default [] (addLabelIds args))
                (default [] (removeLabelIds args)) in
  let w2 := set_net w1 (net w1 ++ [Api call]) in
  snd (batchModifyLabels args w) = w2
  /\ api_calls (net w2) = api_calls (net w) ++ [call]
  /\ (forall e, messages_batchModify (gmail w1) (net w1) call = Failure e ->
        batchModifyLabels args w = (Thrown e, w2)
        /\ call_tool base64_to_utf8 JSON_stringify "batch_modify_labels" (Some args) w =
             ({| text := "Error: " +:+ errorMessage e; isError := true |}, w2))
  /\ (forall ids, messages_batchModify (gmail w1) (net w1) call = Success () ->
        messageIds args = Some ids ->
        batchModifyLabels args w =
          (Returned (BatchModified true (length ids) (default [] (addLabelIds args))
                       (default [] (removeLabelIds args))), w2)).
Proof.
  intros Hc call w2.
  assert (Hrun : batchModifyLabels args w =
    match messages_batchModify (gmail w1) (net w1) call with
    | Failure e => (Thrown e, w2)
    | Success _ =>
      match messageIds args with
      | None => (Thrown (TypeError "Cannot read properties of undefined (reading 'length')"), w2)
      | Some ids =>
        (Returned (BatchModified true (length ids) (default [] (addLabelIds args))
                     (default [] (removeLabelIds args))), w2)
      end
    end).
  { unfold batchModifyLabels, bind at 1. rewrite Hc. unfold bind, await. fold call.
    destruct (messages_batchModify _ _ _); [reflexivity|].
    destruct (messageIds args); reflexivity. }
  split; [|split; [|split]].
  - rewrite Hrun. destruct (messages_batchModify _ _ _); [reflexivity|].
    destruct (messageIds args); reflexivity.
  - subst w2. cbn [net set_net]. rewrite api_calls_app.
    by rewrite (getGmailClient_api_calls _ _ _ Hc).
  - intros e He. rewrite He in Hrun. split; [exact Hrun|].
    unfold call_tool, run_tool. cbn [String.eqb Ascii.eqb Bool.eqb default].
    cbv beta. change (id args) with args. rewrite Hrun. reflexivity.
  - intros ids Hok Hids. rewrite Hok, Hids in Hrun. exact Hrun.
Qed.

End Batch.

Lemma batch_modify_single_call_witness :
  batchModifyLabels (ids_arguments ["a"; "b"; "c"]) flaky_world =
    (Thrown (Error "Invalid id value"),
     set_net flaky_world [Api (MessagesBatchModify (Some ["a"; "b"; "c"]) [] [])])
  /\ call_tool sample_decode sample_stringify "batch_modify_labels"
       (Some (ids_arguments ["a"; "b"; "c"])) flaky_world =
     ({| text := "Error: Invalid id value"; isError := true |},
      set_net flaky_world [Api (MessagesBatchModify (Some ["a"; "b"; "c"]) [] [])]).
Proof.
  destruct (batch_modify_single_call sample_decode sample_stringify
              (ids_arguments ["a"; "b"; "c"]) flaky_world flaky_world sample_client)
    as (_ & _ & Hfail & _).
  - reflexivity.
  - apply (Hfail (Error "Invalid id value")). reflexivity.
Defined.

(** ** Sending: the thread reference *)

Lemma append_assoc a b c : (a +:+ b) +:+ c = a +:+ b +:+ c.
Proof.
  induction a as [|x a IH]; [reflexivity|].
  change (String x ((a +:+ b) +:+ c) = String x (a +:+ b +:+ c)). by rewrite IH.
Qed.

Lemma append_empty_r a : a +:+ "" = a.
Proof.
  induction a as [|x a IH]; [reflexivity|].
  change (String x (a +:+ "") = String x a). by rewrite IH.
Qed.

Lemma same_outside_refl w : same_outside w w.
Proof. by repeat split. Qed.

Lemma new_boundary_same kind w :
  exists b w', new_boundary kind w = (Returned b, w') /\ same_outside w w'.
Proof.
  unfold new_boundary, bind, random_suffix, ret.
  destruct (random w) as [|digits rest]; eexists _, _; (split; [reflexivity|]);
    by repeat split.
Qed.

Lemma add_attachments_run mixedBoundary atts :
  forall email w r w',
    add_attachments mixedBoundary atts email w = (r, w') ->
    w' = w /\ forall e, r = Returned e -> exists rest, e = email +:+ rest.
Proof.
  induction atts as [|a atts IH]; intros email w r w' Hrun.
  - inversion Hrun; subst. split; [reflexivity|].
    intros e [= <-]. exists "". by rewrite append_empty_r.
  - cbn [add_attachments] in Hrun. unfold bind, read_attachment in Hrun.
    destruct (path a ≫= _) as [fileContent|].
    + apply IH in Hrun as [-> Hrest]. split; [reflexivity|].
      intros e He. destruct (Hrest e He) as [rest ->].
      rewrite append_assoc. eauto.
    + inversion Hrun; subst. split; [reflexivity|]. intros e He. discriminate.
Qed.

Lemma same_outside_trans w1 w2 w3 :
  same_outside w1 w2 -> same_outside w2 w3 -> same_outside w1 w3.
Proof. unfold same_outside. intros (-> & -> & ->) (-> & -> & ->). by repeat split. Qed.

(** The message text starts with the header lines, and building it issues
    no network event. *)
Lemma build_email_run args w email w' :
  build_email args w = (Returned email, w') ->
  same_outside w w'
  /\ exists rest, email = join CRLF (send_headers args) +:+ CRLF +:+ rest.
Proof.
  unfold build_email. generalize (join CRLF (send_headers args)) as hdr.
  intros hdr Hrun.
  destruct (attachments args) as [[|a atts]|].
  2: {
    apply bind_returned in Hrun as (mixedBoundary & wa & Hm & Hrun).
    apply bind_returned in Hrun as (altBoundary & wb & Halt & Hrun).
    apply bind_returned in Hrun as (body' & wc & Hatt & Hrun).
    inversion Hrun; subst; clear Hrun.
    destruct (new_boundary_same "Mixed" w) as (b1 & w1' & Hb1 & Hs1).
    rewrite Hb1 in Hm. inversion Hm; subst; clear Hm.
    assert (Hs2 : same_outside wa wb).
    { destruct (truthy_str (htmlBody args)).
      - destruct (new_boundary_same "Alternative" wa) as (b2 & w2' & Hb2 & Hs2).
        rewrite Hb2 in Halt. by inversion Halt; subst.
      - inversion Halt; subst. apply same_outside_refl. }
    apply add_attachments_run in Hatt as [-> Hrest].
    split; [eauto using same_outside_trans|].
    destruct (Hrest _ eq_refl) as [rest ->].
    rewrite !append_assoc. eauto. }
  all: destruct (truthy_str (htmlBody args)).
  all: try (apply bind_returned in Hrun as (boundary & wa & Hb & Hrun);
            destruct (new_boundary_same "Part" w) as (b1 & w1' & Hb1 & Hs1);
            rewrite Hb1 in Hb; inversion Hb; subst; clear Hb).
  all: inversion Hrun; subst; clear Hrun.
  all: split; [auto using same_outside_refl|]; rewrite !append_assoc; eauto.
Qed.

(** The one provider call of a send whose message is assembled *)
Lemma sendEmail_request args w c w1 email w2 :
  getGmailClient w = (Returned c, w1) ->
  truthy_str (to args) = true ->
  truthy_str (subject args) = true ->
  truthy_str (body args) || truthy_str (htmlBody args) = true ->
  build_email args w1 = (Returned email, w2) ->
  api_calls (net (snd (sendEmail args w))) =
  api_calls (net w) ++
  [MessagesSend (base64url email)
     (if truthy_str (threadId args) then threadId args else None)].
Proof.
  intros Hc Hto Hsubject Hbody Hbuild.
  destruct (build_email_run _ _ _ _ Hbuild) as ((Hnet & _ & _) & _).
  unfold sendEmail, bind at 1. rewrite Hc, Hto, Hsubject.
  destruct (truthy_str (body args)), (truthy_str (htmlBody args)); try discriminate;
    cbn [negb orb andb]; unfold bind at 1; rewrite Hbuild; unfold bind, await, ret;
    destruct (messages_send _ _ _); cbn [snd net set_net];
    rewrite api_calls_app, Hnet, (getGmailClient_api_calls _ _ _ Hc); reflexivity.
Qed.

(** ** The envelope encoding *)

Lemma replace_replace_String c s :
  replace_char "/" "_" (replace_char "+" "-" (String c s)) =
  String (url_char c) (replace_char "/" "_" (replace_char "+" "-" s)).
Proof. reflexivity. Qed.

Lemma base64url_value_char (x : sextet) :
  base64url_value (url_char (base64_char x)) = Some x.
Proof.
  destruct x as [[[[[b5 b4] b3] b2] b1] b0].
  destruct b5, b4, b3, b2, b1, b0; vm_compute; reflexivity.
Qed.

Lemma url_char_not_padding (x : sextet) :
  Ascii.eqb (url_char (base64_char x)) "=" = false.
Proof.
  destruct x as [[[[[b5 b4] b3] b2] b1] b0].
  destruct b5, b4, b3, b2, b1, b0; vm_compute; reflexivity.
Qed.

Lemma strip_padding_String c s :
  Ascii.eqb c "=" = false -> strip_padding (String c s) = String c (strip_padding s).
Proof. intros Hc. cbn [strip_padding]. rewrite Hc. by destruct (strip_padding s). Qed.

Lemma first_byte_sextets a b : first_byte (sextet1 a) (sextet2 a b) = a.
Proof. by destruct a, b. Qed.

Lemma second_byte_sextets a b c : second_byte (sextet2 a b) (sextet3 b c) = b.
Proof. by destruct a, b, c. Qed.

Lemma third_byte_sextets b c : third_byte (sextet3 b c) (sextet4 c) = c.
Proof. by destruct b, c. Qed.

(** Induction over a string, three characters at a time *)
Lemma string_ind3 (P : string -> Prop) :
  P EmptyString ->
  (forall a, P (String a EmptyString)) ->
  (forall a b, P (String a (String b EmptyString))) ->
  (forall a b c rest, P rest -> P (String a (String b (String c rest)))) ->
  forall s, P s.
Proof.
  intros H0 H1 H2 H3 s.
  assert (H : P s /\ (forall a, P (String a s)) /\ (forall a b, P (String a (String b s)))).
  { induction s as [|c s (IH0 & IH1 & IH2)]; [by auto|].
    split; [exact (IH1 c)|]. split; [exact (fun a => IH2 a c)|].
    intros a b. exact (H3 a b c s IH0). }
  apply H.
Qed.

(** Decoding the envelope gives back the bytes of the message. *)
Lemma base64url_round_trip (email : string) :
  base64url_decode (base64url email) = Some email.
Proof.
  unfold base64url. induction email as [|a|a b|a b c rest IH] using string_ind3.
  - reflexivity.
  - cbn [base64]. rewrite !replace_replace_String.
    rewrite !strip_padding_String by apply url_char_not_padding.
    cbn [base64url_decode]. rewrite !base64url_value_char. cbn.
    by rewrite first_byte_sextets.
  - cbn [base64]. rewrite !replace_replace_String.
    rewrite !strip_padding_String by apply url_char_not_padding.
    cbn [base64url_decode]. rewrite !base64url_value_char. cbn.
    by rewrite first_byte_sextets, second_byte_sextets.
  - cbn [base64]. rewrite !replace_replace_String.
    rewrite !strip_padding_String by apply url_char_not_padding.
    cbn [base64url_decode]. rewrite !base64url_value_char. cbn [mbind option_bind].
    rewrite IH. cbn [mbind option_bind].
    by rewrite first_byte_sextets, second_byte_sextets, third_byte_sextets.
Qed.

(** ** Lines *)

Lemma append_String c a b : String c a +:+ b = String c (a +:+ b).
Proof. reflexivity. Qed.

Lemma lines_unfold c d s :
  lines (String c (String d s)) =
  if Ascii.eqb c CR && Ascii.eqb d LF then EmptyString :: lines s
  else match lines (String d s) with
       | l :: ls => String c l :: ls
       | [] => [String c EmptyString]
       end.
Proof. reflexivity. Qed.

Lemma lines_not_nil s : lines s <> [].
Proof.
  destruct s as [|c [|d s]]; [discriminate | discriminate |].
  rewrite lines_unfold.
  destruct (Ascii.eqb c CR && Ascii.eqb d LF); [discriminate|].
  destruct (lines (String d s)); discriminate.
Qed.

(** The first character of a text joins the first line, unless it opens a
    line break. *)
Lemma lines_String_next c d s :
  Ascii.eqb c CR && Ascii.eqb d LF = false ->
  exists l ls, lines (String d s) = l :: ls /\ lines (String c (String d s)) = String c l :: ls.
Proof.
  intros Hbreak. rewrite (lines_unfold c d s), Hbreak. destruct (lines (String d s)) as [|l ls] eqn:E.
  - by destruct (lines_not_nil (String d s)).
  - eauto.
Qed.

Lemma lines_append_CRLF a :
  forall b, lines (a +:+ CRLF +:+ b) = lines a ++ lines b.
Proof.
  assert (H : (forall b, lines (a +:+ CRLF +:+ b) = lines a ++ lines b) /\
              (forall c b, lines (String c a +:+ CRLF +:+ b) = lines (String c a) ++ lines b)).
  { induction a as [|d a [IH0 IH1]].
    - split; [reflexivity|]. intros c b.
      change (lines (String c (String CR (String LF b))) = [String c EmptyString] ++ lines b).
      destruct (lines_String_next c CR (String LF b)) as (l & ls & Hl & ->).
      { apply andb_false_r. }
      change (lines (String CR (String LF b))) with (EmptyString :: lines b) in Hl.
      by inversion Hl.
    - split; [exact (IH1 d)|]. intros c b.
      rewrite !append_String.
      destruct (Ascii.eqb c CR && Ascii.eqb d LF) eqn:Hbreak.
      + rewrite !lines_unfold, Hbreak, IH0. reflexivity.
      + destruct (lines_String_next c d (a +:+ CRLF +:+ b) Hbreak) as (l & ls & Hl & ->).
        destruct (lines_String_next c d a Hbreak) as (l' & ls' & Hl' & ->).
        rewrite <- append_String, IH1, Hl' in Hl. by inversion Hl. }
  apply H.
Qed.

Lemma lines_single s : no_line_break s = true -> lines s = [s].
Proof.
  induction s as [|c s IH]; [reflexivity|].
  cbn [no_line_break]. intros Hs.
  apply andb_prop in Hs as [Hc Hs]. apply andb_prop in Hc as [Hcr Hlf].
  destruct s as [|d s]; [reflexivity|].
  destruct (lines_String_next c d s) as (l & ls & Hl & ->).
  { apply negb_true_iff in Hcr. by rewrite Hcr. }
  rewrite (IH Hs) in Hl. by inversion Hl.
Qed.

Lemma lines_join hs :
  hs <> [] -> forallb no_line_break hs = true -> lines (join CRLF hs) = hs.
Proof.
  induction hs as [|h hs IH]; [done|]. intros _ Hall.
  cbn [forallb] in Hall. apply andb_prop in Hall as [Hh Hall].
  destruct hs as [|h' hs]; [by apply lines_single|].
  change (join CRLF (h :: h' :: hs)) with (h +:+ CRLF +:+ join CRLF (h' :: hs)).
  rewrite lines_append_CRLF, (lines_single h Hh), IH; done.
Qed.

(** A text that ends with a line break, followed by more text *)
Lemma lines_terminated x rest :
  lines ((x +:+ CRLF) +:+ rest) = part_lines (x +:+ CRLF) ++ lines rest.
Proof.
  unfold part_lines. rewrite append_assoc, lines_append_CRLF.
  replace (x +:+ CRLF) with (x +:+ CRLF +:+ "") by (by rewrite append_empty_r).
  rewrite lines_append_CRLF. change (lines "") with [EmptyString].
  by rewrite removelast_last.
Qed.

Lemma no_line_break_append a b :
  no_line_break (a +:+ b) = no_line_break a && no_line_break b.
Proof.
  induction a as [|c a IH]; [reflexivity|].
  rewrite append_String. cbn [no_line_break]. rewrite IH. by rewrite andb_assoc.
Qed.

(** ** Generated boundaries *)

Lemma token_text_append a b : token_text (a +:+ b) = token_text a && token_text b.
Proof.
  induction a as [|c a IH]; [reflexivity|].
  rewrite append_String. cbn [token_text]. rewrite IH. by rewrite andb_assoc.
Qed.

Lemma token_text_no_line_break s : token_text s = true -> no_line_break s = true.
Proof.
  induction s as [|c s IH]; [reflexivity|]. cbn [token_text no_line_break].
  unfold token_char. intros H. apply andb_prop in H as [Hc Hs].
  apply andb_prop in Hc as [Hc _]. by rewrite Hc, IH.
Qed.

Lemma until_quote s r : token_text s = true -> until "034" (s +:+ quote +:+ r) = Some s.
Proof.
  induction s as [|c s IH]; [reflexivity|]. cbn [token_text]. intros H.
  apply andb_prop in H as [Hc Hs]. unfold token_char in Hc.
  apply andb_prop in Hc as [_ Hq]. apply negb_true_iff in Hq.
  rewrite append_String. cbn [until]. rewrite Hq, (IH Hs). reflexivity.
Qed.

Lemma token_pretty_go (x : N) :
  forall s, token_text s = true -> token_text (pretty_N_go x s) = true.
Proof.
  induction (N.lt_wf_0 x) as [x _ IH]. intros s Hs.
  destruct (decide (x = 0)%N) as [->|Hx].
  - by rewrite pretty_N_go_0.
  - rewrite pretty_N_go_step by lia. apply IH.
    + apply N.div_lt; lia.
    + cbn [token_text]. rewrite Hs, andb_true_r.
      unfold pretty_N_char. by repeat case_match.
Qed.

Lemma token_pretty (x : N) : token_text (pretty x) = true.
Proof.
  unfold pretty, pretty_N. destruct (decide (x = 0)%N); [reflexivity|].
  by apply token_pretty_go.
Qed.

Lemma token_digit36 n : token_char (digit36 n) = true.
Proof.
  unfold digit36.
  assert (Hlt : (n mod 36 < 36)%nat) by (apply Nat.mod_upper_bound; lia).
  generalize dependent (n mod 36)%nat. intros k Hk.
  do 36 (destruct k as [|k]; [reflexivity|]). lia.
Qed.

Lemma token_digits ds : token_text (string_of_list_ascii (map digit36 ds)) = true.
Proof.
  induction ds as [|d ds IH]; [reflexivity|].
  cbn [map string_of_list_ascii token_text]. by rewrite token_digit36, IH.
Qed.

(** A generated boundary holds no line break and no quote. *)
Lemma new_boundary_token kind w b w' :
  token_text kind = true ->
  new_boundary kind w = (Returned b, w') ->
  token_text b = true.
Proof.
  intros Hkind. unfold new_boundary, bind, random_suffix, ret.
  destruct (random w) as [|ds rest]; intros [= <- _];
    rewrite !token_text_append, Hkind, token_pretty, ?token_digits; reflexivity.
Qed.

(** ** Parsing *)

Lemma strip_prefix_append p s : strip_prefix p (p +:+ s) = Some s.
Proof.
  induction p as [|c p IH]; [by destruct s|].
  rewrite append_String. cbn [strip_prefix]. by rewrite Ascii.eqb_refl.
Qed.

Lemma split_blank_fields hs body :
  Forall (fun h => h <> "") hs ->
  split_blank (hs ++ "" :: body) = (hs, body).
Proof.
  induction 1 as [|h hs Hh _ IH]; [reflexivity|].
  cbn [app split_blank]. rewrite IH.
  by apply String.eqb_neq in Hh as ->.
Qed.

Lemma field_value_skip name hs rest :
  Forall (fun h => strip_prefix (name +:+ ": ") h = None) hs ->
  field_value name (hs ++ rest) = field_value name rest.
Proof.
  unfold field_value. intros Hskip. rewrite omap_app.
  replace (omap (strip_prefix (name +:+ ": ")) hs) with (@nil string); [reflexivity|].
  induction Hskip as [|h hs Hh _ IH]; [reflexivity|].
  simpl. by rewrite Hh.
Qed.

Lemma delimiter_not_close boundary :
  String.eqb (delimiter boundary) (close_delimiter boundary) = false.
Proof.
  apply String.eqb_neq. unfold delimiter, close_delimiter. intros H.
  apply (f_equal String.length) in H. rewrite !append_length in H. cbn in H. lia.
Qed.

Lemma parts_after_not_nil boundary ls : parts_after boundary ls <> Some [].
Proof.
  induction ls as [|l ls IH]; [discriminate|]. cbn [parts_after].
  destruct (String.eqb l (close_delimiter boundary)); [discriminate|].
  destruct (String.eqb l (delimiter boundary)).
  - by destruct (parts_after boundary ls).
  - by destruct (parts_after boundary ls) as [[|q ps]|].
Qed.

Lemma parts_after_prefix boundary p rest :
  boundary_free boundary p = true ->
  parts_after boundary (p ++ rest) =
  match parts_after boundary rest with
  | Some (q :: ps) => Some ((p ++ q) :: ps)
  | _ => None
  end.
Proof.
  induction p as [|l p IH]; intros Hfree.
  - cbn [app]. pose proof (parts_after_not_nil boundary rest).
    by destruct (parts_after boundary rest) as [[|q ps]|].
  - cbn [boundary_free forallb] in Hfree. apply andb_prop in Hfree as [Hl Hfree].
    apply andb_prop in Hl as [Hd Hc].
    apply negb_true_iff in Hd. apply negb_true_iff in Hc.
    cbn [app parts_after]. rewrite Hd, Hc, (IH Hfree).
    by destruct (parts_after boundary rest) as [[|q ps]|].
Qed.

(** A body made of delimiter-free parts, separated by delimiter lines and
    closed by the close delimiter, parses into these parts. *)
Lemma parts_after_parts boundary ps :
  forall p tail,
    boundary_free boundary p = true ->
    Forall (fun q => boundary_free boundary q = true) ps ->
    parts_after boundary
      (p ++ concat (map (cons (delimiter boundary)) ps) ++ close_delimiter boundary :: tail)
    = Some (p :: ps).
Proof.
  induction ps as [|q ps IH]; intros p tail Hp Hps.
  - cbn [map concat app]. rewrite (parts_after_prefix _ _ _ Hp).
    cbn [parts_after]. rewrite String.eqb_refl. by rewrite app_nil_r.
  - inversion Hps as [|? ? Hq Hps']; subst.
    cbn [map concat]. rewrite (parts_after_prefix _ _ _ Hp).
    rewrite <- app_assoc. cbn [app parts_after].
    rewrite delimiter_not_close, String.eqb_refl.
    rewrite (IH q tail Hq Hps'). cbn. by rewrite app_nil_r.
Qed.

(** ** The message with attachments, line by line *)

Lemma add_attachments_text mixedBoundary atts contents w :
  Forall2 (fun a fileContent => path a ≫= (fun p => files w !! p) = Some fileContent)
    atts contents ->
  forall email,
    add_attachments mixedBoundary atts email w =
    (Returned (email +:+ attachments_text mixedBoundary atts contents), w).
Proof.
  induction 1 as [|a fileContent atts contents Hread _ IH]; intros email.
  - cbn. unfold ret. by rewrite append_empty_r.
  - cbn [add_attachments attachments_text]. unfold bind, read_attachment.
    rewrite Hread, IH. by rewrite !append_assoc.
Qed.

(** The text [sendEmail] assembles for both bodies and attachments *)
Lemma build_email_mixed args w wa wb mixedBoundary altBoundary atts contents :
  truthy_str (htmlBody args) = true ->
  attachments args = Some atts ->
  atts <> [] ->
  new_boundary "Mixed" w = (Returned mixedBoundary, wa) ->
  new_boundary "Alternative" wa = (Returned altBoundary, wb) ->
  Forall2 (fun a fileContent => path a ≫= (fun p => files w !! p) = Some fileContent)
    atts contents ->
  build_email args w =
  (Returned
     (join CRLF (send_headers args) +:+ CRLF +:+
      "MIME-Version: 1.0" +:+ CRLF +:+
      ("Content-Type: " +:+ mixed_content_type mixedBoundary) +:+ CRLF +:+
      "" +:+ CRLF +:+
      delimiter mixedBoundary +:+ CRLF +:+
      body_part_text altBoundary args +:+
      attachments_text mixedBoundary atts contents +:+
      close_delimiter mixedBoundary +:+ CRLF), wb).
Proof.
  intros Hhtml Hatts Hne Hm Ha Hread.
  assert (Hf1 : files wa = files w).
  { destruct (new_boundary_same "Mixed" w) as (b1 & w1 & Hm' & (_ & _ & Hf)).
    congruence. }
  assert (Hf2 : files wb = files wa).
  { destruct (new_boundary_same "Alternative" wa) as (b2 & w2 & Ha' & (_ & _ & Hf)).
    congruence. }
  unfold build_email. rewrite Hatts. destruct atts as [|a atts]; [done|].
  unfold bind at 1. rewrite Hm. unfold bind at 1. rewrite Hhtml, Ha.
  unfold bind at 1. rewrite (add_attachments_text _ _ contents).
  - unfold ret, mixed_content_type, delimiter, close_delimiter.
    by rewrite !append_assoc.
  - rewrite Hf2, Hf1. exact Hread.
Qed.

Lemma ends_with_CRLF_append a b : ends_with_CRLF b -> ends_with_CRLF (a +:+ b).
Proof. intros [x ->]. exists (a +:+ x). by rewrite append_assoc. Qed.

Lemma ends_with_CRLF_CRLF : ends_with_CRLF CRLF.
Proof. by exists EmptyString. Qed.

Lemma body_part_text_ends altBoundary args :
  ends_with_CRLF (body_part_text altBoundary args).
Proof.
  unfold body_part_text. destruct (truthy_str (htmlBody args));
    repeat apply ends_with_CRLF_append; apply ends_with_CRLF_CRLF.
Qed.

Lemma attachment_text_ends a fileContent : ends_with_CRLF (attachment_text a fileContent).
Proof.
  unfold attachment_text. cbv zeta.
  repeat apply ends_with_CRLF_append; apply ends_with_CRLF_CRLF.
Qed.

Lemma lines_part t rest :
  ends_with_CRLF t -> lines (t +:+ rest) = part_lines t ++ lines rest.
Proof. intros [x ->]. apply lines_terminated. Qed.

Lemma lines_attachments_text mixedBoundary atts contents rest :
  token_text mixedBoundary = true ->
  length atts = length contents ->
  lines (attachments_text mixedBoundary atts contents +:+ rest) =
  concat (map (cons (delimiter mixedBoundary))
            (zip_with (fun a fileContent => part_lines (attachment_text a fileContent))
               atts contents))
  ++ lines rest.
Proof.
  intros Htoken. revert contents.
  induction atts as [|a atts IH]; intros [|fileContent contents] Hlen;
    try discriminate; [reflexivity|].
  cbn [attachments_text zip_with map concat].
  replace (("--" +:+ mixedBoundary +:+ CRLF +:+ attachment_text a fileContent +:+
            attachments_text mixedBoundary atts contents) +:+ rest)
    with (delimiter mixedBoundary +:+ CRLF +:+ attachment_text a fileContent +:+
          attachments_text mixedBoundary atts contents +:+ rest)
    by (unfold delimiter; by rewrite !append_assoc).
  rewrite lines_append_CRLF, lines_single.
  - rewrite (lines_part _ _ (attachment_text_ends a fileContent)), IH by (by inversion Hlen).
    by rewrite <- !app_assoc.
  - unfold delimiter. rewrite no_line_break_append.
    by rewrite (token_text_no_line_break _ Htoken).
Qed.

Lemma send_headers_fields args :
  Forall (fun h => h <> "" /\ strip_prefix "Content-Type: " h = None) (send_headers args).
Proof.
  unfold send_headers.
  destruct (truthy_str (cc args)), (truthy_str (bcc args)), (truthy_str (replyTo args)),
    (truthy_str (threadId args)); cbn [app];
    repeat (constructor; [split; [by rewrite append_String | reflexivity]|]);
    constructor.
Qed.

Lemma lines_mixed_email args mixedBoundary altBoundary atts contents :
  forallb no_line_break (send_headers args) = true ->
  token_text mixedBoundary = true ->
  length atts = length contents ->
  lines (join CRLF (send_headers args) +:+ CRLF +:+
         "MIME-Version: 1.0" +:+ CRLF +:+
         ("Content-Type: " +:+ mixed_content_type mixedBoundary) +:+ CRLF +:+
         "" +:+ CRLF +:+
         delimiter mixedBoundary +:+ CRLF +:+
         body_part_text altBoundary args +:+
         attachments_text mixedBoundary atts contents +:+
         close_delimiter mixedBoundary +:+ CRLF) =
  (send_headers args ++ ["MIME-Version: 1.0"; "Content-Type: " +:+ mixed_content_type mixedBoundary])
  ++ "" :: delimiter mixedBoundary ::
     (part_lines (body_part_text altBoundary args)
      ++ concat (map (cons (delimiter mixedBoundary))
                   (zip_with (fun a fileContent => part_lines (attachment_text a fileContent))
                      atts contents))
      ++ close_delimiter mixedBoundary :: [""]).
Proof.
  intros Hhs Htoken Hlen.
  pose proof (token_text_no_line_break _ Htoken) as Hline.
  rewrite lines_append_CRLF, lines_join by (done || by unfold send_headers).
  rewrite lines_append_CRLF, (lines_single "MIME-Version: 1.0") by reflexivity.
  rewrite lines_append_CRLF, (lines_single ("Content-Type: " +:+ _)).
  2: { unfold mixed_content_type. rewrite !no_line_break_append, Hline. reflexivity. }
  rewrite lines_append_CRLF. change (lines "") with [EmptyString].
  rewrite lines_append_CRLF, (lines_single (delimiter _)).
  2: { unfold delimiter. rewrite no_line_break_append, Hline. reflexivity. }
  rewrite (lines_part _ _ (body_part_text_ends altBoundary args)).
  rewrite lines_attachments_text by done.
  replace (close_delimiter mixedBoundary +:+ CRLF)
    with (close_delimiter mixedBoundary +:+ CRLF +:+ "") by reflexivity.
  rewrite lines_append_CRLF, (lines_single (close_delimiter _)).
  2: { unfold close_delimiter. rewrite !no_line_break_append, Hline. reflexivity. }
  change (lines "") with [EmptyString].
  by rewrite <- !app_assoc.
Qed.

Lemma boundary_parameter_mixed mixedBoundary :
  token_text mixedBoundary = true ->
  boundary_parameter (mixed_content_type mixedBoundary) = Some mixedBoundary.
Proof.
  intros Htoken. unfold boundary_parameter, mixed_content_type.
  change (after ("boundary=" +:+ quote)
            ("multipart/mixed; boundary=" +:+ quote +:+ mixedBoundary +:+ quote))
    with (Some (mixedBoundary +:+ quote +:+ "")).
  cbn [mbind option_bind]. by apply until_quote.
Qed.

(** A message whose lines are the header fields, the mixed content type, an
    empty line and delimiter-free parts between delimiter lines parses into
    these parts. *)
Lemma parse_mixed_lines hs mixedBoundary p ps :
  Forall (fun h => h <> "" /\ strip_prefix "Content-Type: " h = None) hs ->
  token_text mixedBoundary = true ->
  boundary_free mixedBoundary p = true ->
  Forall (fun q => boundary_free mixedBoundary q = true) ps ->
  parse_multipart "mixed"
    (parse_entity
       ((hs ++ ["MIME-Version: 1.0"; "Content-Type: " +:+ mixed_content_type mixedBoundary])
        ++ "" :: delimiter mixedBoundary ::
           (p ++ concat (map (cons (delimiter mixedBoundary)) ps)
              ++ close_delimiter mixedBoundary :: [""])))
  = Some (map parse_entity (p :: ps)).
Proof.
  intros Hhs Htoken Hp Hps.
  unfold parse_entity. rewrite split_blank_fields.
  2: { apply Forall_app. split.
       - eapply Forall_impl; [exact Hhs|]. by intros h [? _].
       - repeat constructor; [discriminate|]. by rewrite append_String. }
  unfold parse_multipart, content_type. cbn [fields content].
  rewrite field_value_skip.
  2: { eapply Forall_impl; [exact Hhs|]. by intros h [_ ?]. }
  change (field_value "Content-Type"
            ["MIME-Version: 1.0"; "Content-Type: " +:+ mixed_content_type mixedBoundary])
    with (Some (mixed_content_type mixedBoundary)).
  cbn [default from_option id].
  change (String.prefix ("multipart/" +:+ "mixed") (mixed_content_type mixedBoundary))
    with true.
  cbv iota. rewrite (boundary_parameter_mixed _ Htoken).
  cbn [multipart_body]. rewrite String.eqb_refl.
  by rewrite (parts_after_parts _ _ _ _ Hp Hps).
Qed.

Lemma removelast_cons {A} (x : A) l : l <> [] -> removelast (x :: l) = x :: removelast l.
Proof. by destruct l. Qed.

(** Read back, an attachment part carries the declared content type. *)
Lemma attachment_part_type a fileContent :
  no_line_break (declared_type a) = true ->
  content_type (parse_entity (part_lines (attachment_text a fileContent))) = declared_type a.
Proof.
  intros Hline. unfold attachment_text. cbv zeta. fold (declared_type a).
  set (rest := "Content-Disposition: attachment; filename=" +:+ _).
  replace ("Content-Type: " +:+ declared_type a +:+ CRLF +:+ rest)
    with (("Content-Type: " +:+ declared_type a) +:+ CRLF +:+ rest)
    by (by rewrite !append_assoc).
  unfold part_lines. rewrite lines_append_CRLF, lines_single.
  2: { by rewrite no_line_break_append, Hline. }
  cbn [app]. rewrite removelast_cons by apply lines_not_nil.
  unfold parse_entity. cbn [split_blank].
  replace (String.eqb ("Content-Type: " +:+ declared_type a) "") with false
    by (by rewrite append_String).
  destruct (split_blank _) as [h b]. unfold content_type, field_value. cbn [fields].
  simpl omap. reflexivity.
Qed.

(** ** Sending: the envelope read back *)

(** C2, as stated, fails: a subject that holds an empty line ends the
    header before the content type, and the decoded payload is no multipart
    message. *)
Lemma injected_subject_not_multipart :
  api_calls (net (snd (sendEmail sample_injected ready_world))) =
    [MessagesSend (base64url (email_text sample_injected ready_world)) None]
  /\ base64url_decode (base64url (email_text sample_injected ready_world)) =
     Some (email_text sample_injected ready_world)
  /\ parse_multipart "mixed" (parse_message (email_text sample_injected ready_world)) = None.
Proof. split; [|split]; vm_compute; reflexivity. Qed.

(** C2, amended.  Take a send request with a plain body, an HTML body and
    attachments whose files exist; let the header values hold no line break,
    and let no line inside a part be a delimiter of the generated mixed
    boundary.  Then the payload of the provider's send call decodes, as
    base64url, to the assembled message, and the message parses as a
    multipart/mixed entity whose parts are the multipart/alternative part
    followed by one part per attachment, in order, each with the content
    type declared for the attachment when that is a single line. *)
Theorem mixed_message_round_trip (args : arguments) (w w1 wa wb : world) (c : gmail_client)
    (mixedBoundary altBoundary : string) (atts : list attachment)
    (contents : list string) :
  getGmailClient w = (Returned c, w1) ->
  truthy_str (to args) = true ->
  truthy_str (subject args) = true ->
  truthy_str (body args) = true ->
  truthy_str (htmlBody args) = true ->
  attachments args = Some atts ->
  atts <> [] ->
  Forall2 (fun a fileContent => path a ≫= (fun p => files w1 !! p) = Some fileContent)
    atts contents ->
  new_boundary "Mixed" w1 = (Returned mixedBoundary, wa) ->
  new_boundary "Alternative" wa = (Returned altBoundary, wb) ->
  forallb no_line_break (send_headers args) = true ->
  boundary_free mixedBoundary (part_lines (body_part_text altBoundary args)) = true ->
  Forall2 (fun a fileContent =>
             boundary_free mixedBoundary (part_lines (attachment_text a fileContent)) = true)
    atts contents ->
  let alternative := parse_entity (part_lines (body_part_text altBoundary args)) in
  let attached :=
    zip_with (fun a fileContent => parse_entity (part_lines (attachment_text a fileContent)))
      atts contents in
  exists raw message,
    api_calls (net (snd (sendEmail args w))) =
      api_calls (net w) ++
      [MessagesSend raw (if truthy_str (threadId args) then threadId args else None)]
    /\ build_email args w1 = (Returned message, wb)
    /\ base64url_decode raw = Some message
    /\ parse_multipart "mixed" (parse_message message) = Some (alternative :: attached)
    /\ String.prefix "multipart/alternative" (content_type alternative) = true
    /\ length attached = length atts
    /\ Forall2 (fun a part => no_line_break (declared_type a) = true ->
                             content_type part = declared_type a) atts attached.
Proof.
  intros Hc Hto Hsubject Hbody Hhtml Hatts Hne Hread Hm Ha Hhs Hfree Hfrees
    alternative attached.
  pose proof (build_email_mixed _ _ _ _ _ _ _ _ Hhtml Hatts Hne Hm Ha Hread) as Hbuild.
  pose proof (new_boundary_token "Mixed" w1 mixedBoundary wa eq_refl Hm) as Htoken.
  pose proof (new_boundary_token "Alternative" wa altBoundary wb eq_refl Ha) as Htoken'.
  assert (Hlen : length atts = length contents)
    by (eapply Forall2_length; exact Hread).
  match type of Hbuild with
  | _ = (Returned ?m, _) => set (message := m) in *
  end.
  exists (base64url message), message.
  split; [|split; [exact Hbuild|split; [apply base64url_round_trip|]]].
  - apply (sendEmail_request args w c w1 message wb Hc Hto Hsubject); [|exact Hbuild].
    by rewrite Hbody.
  - subst message. split; [|split; [|split]].
    + unfold parse_message. rewrite (lines_mixed_email _ _ _ _ _ Hhs Htoken Hlen).
      rewrite parse_mixed_lines.
      * subst alternative attached. cbn [map]. f_equal. f_equal.
        clear. revert contents. induction atts as [|a atts IH]; intros [|x xs];
          cbn; try reflexivity. by rewrite IH.
      * apply send_headers_fields.
      * exact Htoken.
      * exact Hfree.
      * clear -Hfrees. induction Hfrees; cbn; constructor; auto.
    + subst alternative. unfold body_part_text. rewrite Hhtml.
      set (ct := "Content-Type: multipart/alternative; boundary=" +:+ quote +:+
                 altBoundary +:+ quote).
      set (rest := alternative_versions altBoundary args +:+ CRLF +:+ CRLF).
      replace ("Content-Type: multipart/alternative; boundary=" +:+ quote +:+ altBoundary
               +:+ quote +:+ CRLF +:+ CRLF +:+ rest)
        with (ct +:+ CRLF +:+ "" +:+ CRLF +:+ rest)
        by (subst ct; by rewrite !append_assoc).
      unfold part_lines. rewrite lines_append_CRLF, lines_single.
      2: { subst ct. rewrite !no_line_break_append.
           by rewrite (token_text_no_line_break _ Htoken'). }
      rewrite lines_append_CRLF. change (lines "") with [EmptyString].
      pose proof (lines_not_nil rest) as Hrest.
      destruct (lines rest) as [|l ls]; [done|].
      change (removelast ([ct] ++ [""] ++ l :: ls)) with (ct :: "" :: removelast (l :: ls)).
      unfold parse_entity. cbn [split_blank].
      replace (String.eqb ct "") with false by (subst ct; by rewrite append_String).
      cbn [String.eqb]. unfold content_type. cbn [fields]. subst ct. reflexivity.
    + subst attached. rewrite length_zip_with. lia.
    + subst attached. clear -Hlen. revert contents Hlen.
      induction atts as [|a atts IH]; intros [|x xs] Hlen; try discriminate;
        cbn [zip_with]; constructor.
      * apply attachment_part_type.
      * apply IH. by inversion Hlen.
Qed.

Lemma mixed_message_round_trip_witness :
  exists raw message alternative attached,
    api_calls (net (snd (sendEmail sample_report ready_world))) = [MessagesSend raw None]
    /\ base64url_decode raw = Some message
    /\ parse_multipart "mixed" (parse_message message) = Some [alternative; attached]
    /\ String.prefix "multipart/alternative" (content_type alternative) = true.
Proof.
  destruct (mixed_message_round_trip sample_report ready_world ready_world
              (set_random ready_world [[4; 5; 6]%nat]) (set_random ready_world [])
              sample_client "----=_Mixed_1600000000000_123"
              "----=_Alternative_1600000000000_456"
              [{| path := Some "/tmp/a.bin"; filename := None; contentType := None |}]
              ["hello"])
    as (raw & message & Hsent & _ & Hdecode & Hparse & Htype & _ & _).
  - reflexivity.
  - reflexivity.
  - reflexivity.
  - reflexivity.
  - reflexivity.
  - reflexivity.
  - discriminate.
  - repeat constructor.
  - vm_compute. reflexivity.
  - vm_compute. reflexivity.
  - vm_compute. reflexivity.
  - vm_compute. reflexivity.
  - repeat constructor.
  - exists raw, message. eexists _, _.
    split; [exact Hsent|]. split; [exact Hdecode|]. split; [exact Hparse | exact Htype].
Defined.

(** In the message of the sample request the plain version is not followed
    by a line break (the [||] of the source binds weaker than the [+] that
    appends it), so the delimiter before the HTML version does not start a
    line: read back, the alternative part holds one version, the plain one,
    with the HTML version inside its text. *)
Remark sample_report_alternative_versions :
  match parse_multipart "mixed" (parse_message (email_text sample_report ready_world)) with
  | Some (alternative :: _) => parse_multipart "alternative" alternative
  | _ => None
  end =
  Some [{| fields := ["Content-Type: text/plain; charset=UTF-8";
                      "Content-Transfer-Encoding: 7bit"];
           content := ["See attached.------=_Alternative_1600000000000_456";
                       "Content-Type: text/html; charset=UTF-8";
                       "Content-Transfer-Encoding: 7bit"; "";
                       "<p>See attached.</p>"; ""] |}].
Proof. vm_compute. reflexivity. Qed.

(** ** Sending: the thread reference, read back *)

Lemma content_field_line l :
  content_field l = true ->
  l <> "" /\ String.prefix "In-Reply-To:" l = false
  /\ strip_prefix "In-Reply-To: " l = None.
Proof.
  unfold content_field. destruct l as [|c l]; [discriminate|].
  cbn [String.prefix]. intros Hl.
  destruct (Ascii.ascii_dec "M" c) as [<-|]; [by repeat split|].
  destruct (Ascii.ascii_dec "C" c) as [<-|]; [by repeat split|].
  discriminate.
Qed.

(** After the lines of the [headers] array every message has two more
    header lines and the empty line that ends the header. *)
Lemma build_email_header args w email w' :
  build_email args w = (Returned email, w') ->
  exists l1 l2 tail,
    email = join CRLF (send_headers args) +:+ CRLF +:+ l1 +:+ CRLF +:+ l2 +:+ CRLF +:+
            "" +:+ CRLF +:+ tail
    /\ no_line_break l1 = true /\ no_line_break l2 = true
    /\ content_field l1 = true /\ content_field l2 = true.
Proof.
  unfold build_email. generalize (join CRLF (send_headers args)) as hdr.
  intros hdr Hrun.
  destruct (attachments args) as [[|a atts]|].
  2: {
    apply bind_returned in Hrun as (mixedBoundary & wa & Hm & Hrun).
    apply bind_returned in Hrun as (altBoundary & wb & Halt & Hrun).
    apply bind_returned in Hrun as (body' & wc & Hatt & Hrun).
    inversion Hrun; subst; clear Hrun.
    pose proof (new_boundary_token "Mixed" w mixedBoundary wa eq_refl Hm) as Htoken.
    apply add_attachments_run in Hatt as [_ Hrest].
    destruct (Hrest _ eq_refl) as [rest ->].
    exists "MIME-Version: 1.0",
      ("Content-Type: multipart/mixed; boundary=" +:+ quote +:+ mixedBoundary +:+ quote),
      ("--" +:+ mixedBoundary +:+ CRLF +:+ body_part_text altBoundary args +:+ rest +:+
       "--" +:+ mixedBoundary +:+ "--" +:+ CRLF).
    split; [by rewrite !append_assoc|]. split; [reflexivity|].
    split; [|by split].
    by rewrite !no_line_break_append, (token_text_no_line_break _ Htoken). }
  all: destruct (truthy_str (htmlBody args)).
  all: try (apply bind_returned in Hrun as (boundary & wa & Hb & Hrun);
            pose proof (new_boundary_token "Part" w boundary wa eq_refl Hb) as Htoken).
  all: inversion Hrun; subst; clear Hrun.
  1, 3: exists "MIME-Version: 1.0",
      ("Content-Type: multipart/alternative; boundary=" +:+ quote +:+ boundary +:+ quote),
      (alternative_versions boundary args +:+ CRLF);
    (split; [by rewrite !append_assoc|]); (split; [reflexivity|]);
    (split; [|by split]);
    by rewrite !no_line_break_append, (token_text_no_line_break _ Htoken).
  all: exists plain_type_line, encoding_line, (default "" (body args));
    (split; [by rewrite !append_assoc|]); by repeat split.
Qed.

(** The header fields of a message whose header values are single lines:
    the lines of the [headers] array, then the lines about the content. *)
Lemma message_fields args w email w' :
  build_email args w = (Returned email, w') ->
  forallb no_line_break (send_headers args) = true ->
  exists content_fields,
    fields (parse_message email) = send_headers args ++ content_fields
    /\ forallb content_field content_fields = true.
Proof.
  intros Hbuild Hhs.
  destruct (build_email_header _ _ _ _ Hbuild)
    as (l1 & l2 & tail & -> & Hl1 & Hl2 & Hc1 & Hc2).
  exists [l1; l2]. split; [|cbn [forallb]; by rewrite Hc1, Hc2].
  unfold parse_message.
  rewrite lines_append_CRLF, lines_join by (done || by unfold send_headers).
  rewrite lines_append_CRLF, (lines_single l1 Hl1).
  rewrite lines_append_CRLF, (lines_single l2 Hl2).
  rewrite lines_append_CRLF. change (lines "") with [EmptyString].
  replace (send_headers args ++ [l1] ++ [l2] ++ [""] ++ lines tail)
    with ((send_headers args ++ [l1; l2]) ++ "" :: lines tail)
    by (by rewrite <- app_assoc).
  unfold parse_entity. rewrite split_blank_fields; [reflexivity|].
  apply Forall_app. split.
  - eapply Forall_impl; [apply send_headers_fields|]. by intros h [? _].
  - repeat constructor; by apply content_field_line.
Qed.

(** The In-Reply-To fields among the lines of the [headers] array *)
Lemma send_headers_reply_values args :
  field_values "In-Reply-To" (send_headers args) =
  if truthy_str (threadId args) then [default "" (threadId args)] else [].
Proof.
  unfold field_values, send_headers. rewrite !omap_app.
  change ("In-Reply-To" +:+ ": ") with "In-Reply-To: ".
  replace (omap (strip_prefix "In-Reply-To: ")
             ["To: " +:+ default "" (to args); "Subject: " +:+ default "" (subject args)])
    with (@nil string) by reflexivity.
  replace (omap (strip_prefix "In-Reply-To: ")
             (if truthy_str (cc args) then ["Cc: " +:+ default "" (cc args)] else []))
    with (@nil string) by (by destruct (truthy_str (cc args))).
  replace (omap (strip_prefix "In-Reply-To: ")
             (if truthy_str (bcc args) then ["Bcc: " +:+ default "" (bcc args)] else []))
    with (@nil string) by (by destruct (truthy_str (bcc args))).
  replace (omap (strip_prefix "In-Reply-To: ")
             (if truthy_str (replyTo args)
              then ["Reply-To: " +:+ default "" (replyTo args)] else []))
    with (@nil string) by (by destruct (truthy_str (replyTo args))).
  destruct (truthy_str (threadId args)); [|reflexivity].
  cbn [app]. simpl omap. reflexivity.
Qed.

Lemma content_fields_reply_values ls :
  forallb content_field ls = true -> field_values "In-Reply-To" ls = [].
Proof.
  unfold field_values. change ("In-Reply-To" +:+ ": ") with "In-Reply-To: ".
  induction ls as [|l ls IH]; [reflexivity|].
  cbn [forallb]. intros Hls. apply andb_prop in Hls as [Hl Hls].
  destruct (content_field_line l Hl) as (_ & _ & Hstrip).
  specialize (IH Hls).
  change (omap (strip_prefix "In-Reply-To: ") (l :: ls))
    with (match strip_prefix "In-Reply-To: " l with
          | Some y => y :: omap (strip_prefix "In-Reply-To: ") ls
          | None => omap (strip_prefix "In-Reply-To: ") ls
          end).
  by rewrite Hstrip.
Qed.

Lemma send_headers_no_reply args h :
  truthy_str (threadId args) = false ->
  In h (send_headers args) -> String.prefix "In-Reply-To:" h = false.
Proof.
  intros Hnone Hin. unfold send_headers in Hin. rewrite Hnone in Hin.
  rewrite !in_app_iff in Hin.
  destruct (truthy_str (cc args)), (truthy_str (bcc args)), (truthy_str (replyTo args));
    cbn [In] in Hin; intuition (subst; reflexivity).
Qed.

(** C9, as stated, fails: the header values are copied into the message
    unchecked.  A request without thread reference whose recipient holds a
    line break followed by [In-Reply-To: forged-thread] is sent as a message
    with that In-Reply-To header field, while the provider's send request
    carries no thread identifier. *)
Lemma forged_thread_reference :
  threadId sample_forged = None
  /\ api_calls (net (snd (sendEmail sample_forged ready_world))) =
     [MessagesSend (base64url (email_text sample_forged ready_world)) None]
  /\ base64url_decode (base64url (email_text sample_forged ready_world)) =
     Some (email_text sample_forged ready_world)
  /\ field_values "In-Reply-To"
       (fields (parse_message (email_text sample_forged ready_world))) = ["forged-thread"].
Proof. split; [|split; [|split]]; vm_compute; reflexivity. Qed.

(** The other half fails in the same way: a reply whose subject holds an
    empty line carries the thread identifier in the provider's send request,
    and its In-Reply-To line comes after the end of the header, so the
    message has no such header field. *)
Remark cut_thread_reference :
  threadId sample_cut_reply = Some "thread-1"
  /\ api_calls (net (snd (sendEmail sample_cut_reply ready_world))) =
     [MessagesSend (base64url (email_text sample_cut_reply ready_world)) (Some "thread-1")]
  /\ field_values "In-Reply-To"
       (fields (parse_message (email_text sample_cut_reply ready_world))) = [].
Proof. split; [|split]; vm_compute; reflexivity. Qed.

(** C9, amended.  Take a send request that passes the precondition, whose
    message is assembled and whose header values hold no line break.  The
    payload of the provider's send call decodes to the message, and the
    header fields of the message are the lines of the [headers] array
    followed by the lines about the content.  With a thread reference, the
    message has exactly one In-Reply-To header field, its value is the
    thread identifier, and the send request carries the same identifier;
    without one, no header field of the message is an In-Reply-To field and
    the send request carries no thread identifier. *)
Theorem thread_reference (args : arguments) (w w1 w2 : world) (c : gmail_client)
    (email : string) :
  getGmailClient w = (Returned c, w1) ->
  truthy_str (to args) = true ->
  truthy_str (subject args) = true ->
  truthy_str (body args) || truthy_str (htmlBody args) = true ->
  build_email args w1 = (Returned email, w2) ->
  forallb no_line_break (send_headers args) = true ->
  let sent_thread := if truthy_str (threadId args) then threadId args else None in
  let header := fields (parse_message email) in
  (exists raw,
     api_calls (net (snd (sendEmail args w))) =
       api_calls (net w) ++ [MessagesSend raw sent_thread]
     /\ base64url_decode raw = Some email)
  /\ (exists content_fields,
        header = send_headers args ++ content_fields
        /\ forallb content_field content_fields = true)
  /\ (forall t, threadId args = Some t -> t <> "" ->
        field_values "In-Reply-To" header = [t]
        /\ field_value "In-Reply-To" header = Some t
        /\ sent_thread = Some t)
  /\ (truthy_str (threadId args) = false ->
        field_values "In-Reply-To" header = []
        /\ (forall h, In h header -> String.prefix "In-Reply-To:" h = false)
        /\ sent_thread = None).
Proof.
  intros Hc Hto Hsubject Hbody Hbuild Hhs sent_thread header.
  destruct (message_fields _ _ _ _ Hbuild Hhs) as (content_fields & Hfields & Hcontent).
  assert (Hvalues : field_values "In-Reply-To" header =
                    if truthy_str (threadId args) then [default "" (threadId args)] else []).
  { subst header. rewrite Hfields. unfold field_values. rewrite omap_app.
    fold (field_values "In-Reply-To" (send_headers args)).
    fold (field_values "In-Reply-To" content_fields).
    rewrite send_headers_reply_values, (content_fields_reply_values _ Hcontent).
    apply app_nil_r. }
  split; [|split; [|split]].
  - exists (base64url email). split; [|apply base64url_round_trip].
    exact (sendEmail_request _ _ _ _ _ _ Hc Hto Hsubject Hbody Hbuild).
  - exists content_fields. by split.
  - intros t Ht Hne.
    assert (Htruthy : truthy_str (threadId args) = true).
    { rewrite Ht. cbn. apply negb_true_iff, String.eqb_neq, Hne. }
    subst sent_thread. rewrite Htruthy in *. rewrite Ht in *. cbn [default from_option id] in Hvalues.
    split; [exact Hvalues|]. split; [|reflexivity].
    unfold field_value. fold (field_values "In-Reply-To" header). by rewrite Hvalues.
  - intros Hnone. subst sent_thread. rewrite Hnone in *.
    split; [exact Hvalues|]. split; [|reflexivity].
    intros h Hin. subst header. rewrite Hfields in Hin.
    apply in_app_iff in Hin as [Hin | Hin].
    + by apply (send_headers_no_reply args).
    + rewrite forallb_forall in Hcontent.
      by destruct (content_field_line h (Hcontent h Hin)) as (_ & ? & _).
Qed.

Lemma thread_reference_witness :
  (exists raw,
     api_calls (net (snd (sendEmail sample_reply ready_world))) =
       [MessagesSend raw (Some "thread-1")]
     /\ base64url_decode raw = Some sample_reply_email)
  /\ field_values "In-Reply-To" (fields (parse_message sample_reply_email)) = ["thread-1"].
Proof.
  destruct (thread_reference sample_reply ready_world ready_world ready_world sample_client
              sample_reply_email) as (Hsent & _ & Hthread & _).
  - reflexivity.
  - reflexivity.
  - reflexivity.
  - reflexivity.
  - reflexivity.
  - reflexivity.
  - split; [exact Hsent|].
    apply (Hthread "thread-1"); [reflexivity | discriminate].
Defined.

(** * Further properties of the server *)

(** ** The credential store, continued *)

Lemma getGmailClient_no_credentials w :
  credentials_file w = None ->
  getGmailClient w =
  (Thrown (Error ("Credentials file not found: " +:+ getCredentialsPath w)), w).
Proof. intros Hc. unfold getGmailClient. by rewrite Hc. Qed.

Lemma includes_refl p : includes p p = true.
Proof. rewrite <- (append_empty_r p) at 2. apply includes_here. Qed.

Lemma includes_errorMessage e : includes (message e) (errorMessage e) = true.
Proof.
  unfold errorMessage. destruct (bool_decide _ || _ || _).
  - apply includes_append_r, includes_refl.
  - destruct (_ || _); apply includes_refl.
Qed.

(** What a client that was handed out tells about the world it came from *)
Lemma getGmailClient_inversion w c w1 :
  getGmailClient w = (Returned c, w1) ->
  exists cr,
    credentials_file w = Some cr
    /\ token_file w = Some (token c)
    /\ match installed cr with Some cfg => Some cfg | None => web cr end = Some (config c)
    /\ w1 = if truthy_num (expiry_date (token c)) &&
               (default 0 (expiry_date (token c)) <=? Z.of_N (now w) + 60000)
            then set_net w (net w ++ [OAuthRefresh]) else w.
Proof.
  unfold getGmailClient. intros H.
  destruct (credentials_file w) as [cr|]; [|discriminate].
  destruct (token_file w) as [t|]; [|discriminate].
  destruct (match installed cr with Some c1 => Some c1 | None => web cr end) as [cfg|] eqn:E;
    [|discriminate].
  exists cr. destruct (truthy_num (expiry_date t) && _) eqn:Hdue;
    inversion H; subst; cbn [token config]; rewrite Hdue; auto.
Qed.

Section Store.

Variable base64_to_utf8 : string -> string.
Variable JSON_stringify : tool_result -> string.

(** X1.  Without the credentials file every registered tool is answered by
    an error-flagged text that says so and names the path looked at, whether
    or not a token file exists; nothing reaches the network. *)
Theorem missing_credentials_payload (name : string) (args : option arguments) (w : world) :
  In name tool_names ->
  credentials_file w = None ->
  exists t,
    call_tool base64_to_utf8 JSON_stringify name args w =
      ({| text := t; isError := true |}, w)
    /\ includes "Credentials file not found" t = true
    /\ includes (getCredentialsPath w) t = true.
Proof.
  intros Hin Hcr. pose proof (getGmailClient_no_credentials w Hcr) as Hc.
  unfold call_tool. rewrite (run_tool_unauthorized _ _ _ _ _ Hin Hc).
  eexists. split; [reflexivity|].
  set (e := Error _).
  pose proof (includes_errorMessage e) as Hmsg.
  assert (Hsub : forall p, includes p (message e) = true ->
                           includes p ("Error: " +:+ errorMessage e) = true).
  { intros p Hp. apply includes_append_r. unfold errorMessage.
    destruct (bool_decide _ || _ || _).
    - by apply includes_append_r.
    - by destruct (_ || _). }
  split; apply Hsub; subst e; cbn [message Error].
  - apply (includes_here "Credentials file not found").
  - apply includes_append_r, includes_refl.
Qed.

End Store.

Lemma missing_credentials_payload_witness :
  exists t,
    call_tool sample_decode sample_stringify "list_labels" None bare_world =
      ({| text := t; isError := true |}, bare_world)
    /\ includes "Credentials file not found" t = true
    /\ includes "/etc/gmail/credentials.json" t = true.
Proof.
  apply (missing_credentials_payload sample_decode sample_stringify "list_labels" None
           bare_world).
  - simpl. auto 10.
  - reflexivity.
Defined.

(** X2.  A client is handed out only when both files exist; it carries the
    token of the file and the [installed] configuration, or the [web] one
    when there is no [installed].  On the way the store starts a token
    refresh exactly when the token has a non-zero expiry that lies at most
    60 seconds after the clock, the bound included; otherwise the trace is
    left as it was. *)
Theorem client_obtained (w w1 : world) (c : gmail_client) :
  getGmailClient w = (Returned c, w1) ->
  (exists cr,
     credentials_file w = Some cr
     /\ token_file w = Some (token c)
     /\ (installed cr = Some (config c)
         \/ (installed cr = None /\ web cr = Some (config c))))
  /\ (net w1 = net w ++ [OAuthRefresh] <->
      exists e, expiry_date (token c) = Some e /\ e <> 0 /\ e <= Z.of_N (now w) + 60000)
  /\ (net w1 = net w <->
      ~ exists e, expiry_date (token c) = Some e /\ e <> 0 /\ e <= Z.of_N (now w) + 60000).
Proof.
  intros H. destruct (getGmailClient_inversion _ _ _ H) as (cr & Hcr & Htok & Hcfg & Hw1).
  split.
  { exists cr. split; [exact Hcr|]. split; [exact Htok|].
    destruct (installed cr); [left; congruence | right; auto]. }
  assert (Hdue : truthy_num (expiry_date (token c)) &&
                 (default 0 (expiry_date (token c)) <=? Z.of_N (now w) + 60000) = true <->
                 exists e, expiry_date (token c) = Some e /\ e <> 0 /\
                           e <= Z.of_N (now w) + 60000).
  { destruct (expiry_date (token c)) as [e|]; cbn.
    - rewrite andb_true_iff, negb_true_iff, Z.eqb_neq, Z.leb_le.
      split; [intros [? ?]; eauto | intros (e' & [= <-] & ? & ?); auto].
    - split; [discriminate | by intros (e' & ? & _)]. }
  assert (Hgrow : net w <> net w ++ [OAuthRefresh]).
  { intros Heq. apply (f_equal length) in Heq. rewrite length_app in Heq. cbn in Heq. lia. }
  destruct (truthy_num _ && _) eqn:E; subst w1; cbn [net set_net].
  - split; [split; [intros _; by apply Hdue | done]|].
    split; [intros Heq; by destruct Hgrow | intros Hn; destruct Hn; by apply Hdue].
  - assert (Hnot : ~ exists e, expiry_date (token c) = Some e /\ e <> 0 /\
                               e <= Z.of_N (now w) + 60000).
    { intros Hex. apply Hdue in Hex. discriminate. }
    split; [split; [intros Heq; by destruct Hgrow | intros Hex; by destruct Hnot]|].
    split; done.
Qed.

Lemma client_obtained_witness :
  net (snd (getGmailClient expiring_world)) = [OAuthRefresh]
  /\ net (snd (getGmailClient ready_world)) = [].
Proof.
  split.
  - apply (client_obtained expiring_world (snd (getGmailClient expiring_world))
             sample_client eq_refl).
    exists 1700000000000. repeat split; [discriminate | vm_compute; discriminate].
  - apply (client_obtained ready_world (snd (getGmailClient ready_world))
             sample_client eq_refl).
    intros (e & [= <-] & _ & Hle). vm_compute in Hle. by apply Hle.
Defined.

(** X3.  Merging a token response is idempotent and touches nothing but the
    three token fields: the other fields of the file are kept, and a
    response without any usable value leaves the bundle as it was. *)
Theorem on_tokens_merge (tokens token : token_bundle) :
  on_tokens tokens (on_tokens tokens token) = on_tokens tokens token
  /\ provider_fields (on_tokens tokens token) = provider_fields token
  /\ (truthy_str (refresh_token tokens) = false ->
      truthy_str (access_token tokens) = false ->
      truthy_num (expiry_date tokens) = false ->
      on_tokens tokens token = token).
Proof.
  unfold on_tokens.
  destruct (truthy_str (refresh_token tokens)), (truthy_str (access_token tokens)),
    (truthy_num (expiry_date tokens)); cbn; repeat split; try discriminate; reflexivity.
Qed.

(** X4.  The listener changes nothing of the world but the content of the
    token file: the environment, the paths, the credentials file, the
    writable flag, the other files, the clock, the random draws, the
    provider and the trace stay.  When the file can be written it holds the
    merged bundle afterwards; when it cannot, the world is left as it was,
    while the captured bundle is updated all the same. *)
Theorem listener_write (tokens : token_bundle) (c : gmail_client) (w : world) :
  let c' := fst (tokens_listener tokens c w) in
  let w' := snd (tokens_listener tokens c w) in
  same_but_token_file w w'
  /\ token_file w' =
     (if token_file_writable w then Some (on_tokens tokens (token c)) else token_file w)
  /\ config c' = config c
  /\ token c' = on_tokens tokens (token c)
  /\ (token_file_writable w = false -> w' = w).
Proof.
  unfold tokens_listener, same_but_token_file. cbn [fst snd].
  destruct (token_file_writable w) eqn:Hw; cbn; rewrite ?Hw; repeat split; discriminate.
Qed.

(** X5.  A refresh that was written to the token file is what the next tool
    call starts from: the client handed out after the listener ran carries
    the merged bundle and the same configuration. *)
Theorem refreshed_token_reused (tokens : token_bundle) (w w1 : world) (c : gmail_client) :
  getGmailClient w = (Returned c, w1) ->
  token_file_writable w = true ->
  exists c2 w3,
    getGmailClient (snd (tokens_listener tokens c w1)) = (Returned c2, w3)
    /\ token c2 = on_tokens tokens (token c)
    /\ config c2 = config c.
Proof.
  intros H Hw. destruct (getGmailClient_inversion _ _ _ H) as (cr & Hcr & Htok & Hcfg & Hw1).
  assert (Hfacts : credentials_file w1 = Some cr /\ token_file_writable w1 = true).
  { subst w1. by destruct (truthy_num _ && _). }
  destruct Hfacts as [Hcr1 Hw1']. clear Hw1.
  unfold tokens_listener. cbn [snd]. rewrite Hw1'.
  unfold getGmailClient. cbn [credentials_file token_file set_token_file].
  rewrite Hcr1, Hcfg.
  destruct (truthy_num _ && _); eexists _, _; (split; [reflexivity|]); by cbn.
Qed.

Lemma refreshed_token_reused_witness :
  exists c2 w3,
    getGmailClient (snd (tokens_listener sample_refresh sample_client ready_world)) =
      (Returned c2, w3)
    /\ access_token (token c2) = Some "ya29.new"
    /\ refresh_token (token c2) = Some "1//refresh".
Proof.
  destruct (refreshed_token_reused sample_refresh ready_world ready_world sample_client)
    as (c2 & w3 & Hrun & Htoken & _).
  - reflexivity.
  - reflexivity.
  - exists c2, w3. split; [exact Hrun|]. rewrite Htoken. split; reflexivity.
Defined.

(** ** Per-item tools, continued *)

Lemma count_status_split done_status (g : nat -> string -> item_result) ids :
  done_status <> "error" ->
  (forall j id, status (g j id) = done_status \/ status (g j id) = "error") ->
  (count_status done_status (imap g ids) + count_status "error" (imap g ids))%nat
  = length ids.
Proof.
  intros Hne. revert g. induction ids as [|id ids IH]; intros g Hg; [reflexivity|].
  unfold count_status in *. cbn [imap List.filter].
  specialize (IH (g ∘ S) (fun j x => Hg (S j) x)).
  destruct (Hg O id) as [-> | ->].
  - rewrite String.eqb_refl.
    replace (String.eqb done_status "error") with false
      by (symmetry; by apply String.eqb_neq).
    cbn [length]. lia.
  - replace (String.eqb "error" done_status) with false
      by (symmetry; apply String.eqb_neq; congruence).
    cbn [String.eqb Ascii.eqb Bool.eqb length]. lia.
Qed.

(** X6.  Whatever the provider answers, a per-item tool given a list of
    identifiers returns normally after calling the provider once per
    identifier, in order.  The outcome list has one entry per identifier, in
    order, each made from the answer to that identifier's call; the count is
    the number of entries with the success status, and together with the
    error entries it makes up the length of the list. *)
Theorem per_item_outcomes (t : per_item_tool) (args : arguments) (ids : list string)
    (w w1 : world) (c : gmail_client) :
  messageIds args = Some ids ->
  getGmailClient w = (Returned c, w1) ->
  exists r n results w2,
    per_item_handler t args w = (Returned r, w2)
    /\ per_item_report r = Some (n, results)
    /\ map item_id results = ids
    /\ (forall j id, ids !! j = Some id ->
          results !! j =
            Some (entry_of (per_item_status t) id (nth_reply t args w1 ids j id)))
    /\ n = count_status (per_item_status t) results
    /\ (n + count_status "error" results)%nat = length ids
    /\ api_calls (net w2) = api_calls (net w) ++ map (per_item_call t args) ids.
Proof.
  intros Hids Hc.
  destruct (per_item_handler_run t args ids w c w1 Hids Hc) as (r & Hrun & Hrep).
  eexists r, _, _, _. split; [exact Hrun|]. split; [exact Hrep|].
  split; [|split; [|split; [|split]]].
  - clear. generalize (nth_reply t args w1 ids). intros f.
    revert f. induction ids as [|id ids IH]; intros f; [reflexivity|].
    cbn [imap map]. f_equal; [by destruct (f O id)|]. apply IH.
  - intros j id Hj. by rewrite list_lookup_imap, Hj.
  - reflexivity.
  - apply count_status_split; [apply per_item_status_not_error|].
    intros j id. destruct (nth_reply t args w1 ids j id); cbn; auto.
  - cbn [net set_net]. rewrite api_calls_app, api_calls_Api.
    by rewrite (getGmailClient_api_calls _ _ _ Hc).
Qed.

Lemma per_item_outcomes_witness :
  exists r results w2,
    trashEmails (ids_arguments ["a"; "b"; "c"]) flaky_world = (Returned r, w2)
    /\ per_item_report r = Some (2%nat, results)
    /\ map item_id results = ["a"; "b"; "c"]
    /\ api_calls (net w2) = [MessagesTrash "a"; MessagesTrash "b"; MessagesTrash "c"].
Proof.
  destruct (per_item_outcomes TrashEmails (ids_arguments ["a"; "b"; "c"]) ["a"; "b"; "c"]
              flaky_world flaky_world sample_client eq_refl eq_refl)
    as (r & n & results & w2 & Hrun & Hrep & Hids & Hentries & Hn & _ & Hcalls).
  exists r, results, w2. split; [exact Hrun|]. split; [|split; [exact Hids | exact Hcalls]].
  rewrite Hrep. f_equal. f_equal. rewrite Hn.
  pose proof (Hentries 0%nat "a" eq_refl) as H0.
  pose proof (Hentries 1%nat "b" eq_refl) as H1.
  pose proof (Hentries 2%nat "c" eq_refl) as H2.
  assert (Hlen : length results = 3%nat) by (by rewrite <- (length_map item_id), Hids).
  destruct results as [|r0 [|r1 [|r2 [|r3 rest]]]]; try discriminate.
  cbn in H0, H1, H2. inversion H0; inversion H1; inversion H2; subst. reflexivity.
Defined.

(** X7.  When the argument object has no identifier list, a per-item tool
    fails right after the client was obtained, before any provider call;
    the batch variant first issues its one provider call, without
    identifiers, and fails whatever the answer. *)
Theorem missing_identifier_list (args : arguments) (w w1 : world) (c : gmail_client) :
  messageIds args = None ->
  getGmailClient w = (Returned c, w1) ->
  (forall t, exists e, per_item_handler t args w = (Thrown e, w1))
  /\ exists e w2,
       batchModifyLabels args w = (Thrown e, w2)
       /\ api_calls (net w2) =
          api_calls (net w) ++
          [MessagesBatchModify None (default [] (addLabelIds args))
             (default [] (removeLabelIds args))].
Proof.
  intros Hids Hc. split.
  - intros t. destruct t; cbn [per_item_handler];
      unfold trashEmails, markAsRead, modifyEmailLabels, bind; rewrite Hc, Hids;
      eexists; reflexivity.
  - unfold batchModifyLabels, bind at 1. rewrite Hc. unfold bind, await. rewrite Hids.
    destruct (messages_batchModify _ _ _); eexists _, _; (split; [reflexivity|]);
      cbn [net set_net]; rewrite api_calls_app;
      by rewrite (getGmailClient_api_calls _ _ _ Hc).
Qed.

Lemma missing_identifier_list_witness :
  (exists e, markAsRead no_arguments ready_world = (Thrown e, ready_world))
  /\ exists e w2,
       batchModifyLabels no_arguments ready_world = (Thrown e, w2)
       /\ api_calls (net w2) = [MessagesBatchModify None [] []].
Proof.
  destruct (missing_identifier_list no_arguments ready_world ready_world sample_client
              eq_refl eq_refl) as [Hitem Hbatch].
  split; [exact (Hitem MarkAsRead) | exact Hbatch].
Defined.

(** ** Listing, continued *)

(** The loop of [listEmails] when every fetch succeeds *)
Lemma fetch_summaries_run msgs :
  forall (details : nat -> message_data) acc w,
    (forall j msg, msgs !! j = Some msg ->
       messages_get (gmail w) (net w ++ map (fun m => Api (detail_call m)) (take j msgs))
         (detail_call msg) = Success (details j)) ->
    fetch_summaries msgs acc w =
    (Returned (acc ++ imap (fun j msg => summary_of msg (details j)) msgs),
     set_net w (net w ++ map (fun m => Api (detail_call m)) msgs)).
Proof.
  induction msgs as [|msg msgs IH]; intros details acc w Hall.
  - cbn. unfold ret. by rewrite !app_nil_r, set_net_net.
  - cbn [fetch_summaries]. unfold bind, await. fold (detail_call msg).
    pose proof (Hall O msg eq_refl) as H0. cbn [take map] in H0.
    rewrite app_nil_r in H0. rewrite H0.
    rewrite (IH (details ∘ S)).
    + cbn [imap map net set_net]. rewrite <- !app_assoc. reflexivity.
    + intros j m Hj. cbn [net gmail set_net]. rewrite <- app_assoc.
      exact (Hall (S j) m Hj).
Qed.

(** The loop of [listEmails] when the fetch for the [k]-th message fails *)
Lemma fetch_summaries_fail msgs :
  forall k failing e acc w,
    msgs !! k = Some failing ->
    (forall j msg, (j < k)%nat -> msgs !! j = Some msg ->
       exists d,
         messages_get (gmail w) (net w ++ map (fun m => Api (detail_call m)) (take j msgs))
           (detail_call msg) = Success d) ->
    messages_get (gmail w) (net w ++ map (fun m => Api (detail_call m)) (take k msgs))
      (detail_call failing) = Failure e ->
    fetch_summaries msgs acc w =
    (Thrown e, set_net w (net w ++ map (fun m => Api (detail_call m)) (take (S k) msgs))).
Proof.
  induction msgs as [|msg msgs IH]; intros k failing e acc w Hk Hbefore Hfail;
    [discriminate|].
  cbn [fetch_summaries]. unfold bind, await. fold (detail_call msg).
  destruct k as [|k].
  - cbn in Hk. inversion Hk; subst. cbn [take map] in Hfail.
    rewrite app_nil_r in Hfail. rewrite Hfail. reflexivity.
  - destruct (Hbefore O msg) as [d Hd]; [lia | reflexivity |].
    cbn [take map] in Hd. rewrite app_nil_r in Hd. rewrite Hd.
    rewrite (IH k failing e).
    + cbn [take map net set_net]. by rewrite <- !app_assoc.
    + exact Hk.
    + intros j m Hj Hm. cbn [net gmail set_net]. rewrite <- app_assoc.
      apply (Hbefore (S j) m); [lia | exact Hm].
    + cbn [net gmail set_net]. rewrite <- app_assoc. exact Hfail.
Qed.

(** X8.  When the list call and every metadata fetch succeed, the list
    operation returns one summary per listed message, in the provider's
    order, with the identifiers of the listing and the headers of the
    fetched detail, beside the provider's size estimate; it has issued the
    list call and then one fetch per listed message, and nothing else.  A
    listing without [messages] gives the empty list. *)
Theorem list_one_summary_each (args : arguments) (w w1 : world) (c : gmail_client)
    (response : list_data) (details : nat -> message_data) :
  getGmailClient w = (Returned c, w1) ->
  messages_list (gmail w1) (net w1) (list_call args) = Success response ->
  let msgs := default [] (messages response) in
  (forall j msg, msgs !! j = Some msg ->
     messages_get (gmail w1)
       ((net w1 ++ [Api (list_call args)]) ++ map (fun m => Api (detail_call m)) (take j msgs))
       (detail_call msg) = Success (details j)) ->
  exists emails w2,
    listEmails args w = (Returned (EmailList emails (resultSizeEstimate response)), w2)
    /\ emails = imap (fun j msg => summary_of msg (details j)) msgs
    /\ length emails = length msgs
    /\ map es_id emails = map ref_id msgs
    /\ api_calls (net w2) = api_calls (net w) ++ list_call args :: map detail_call msgs.
Proof.
  intros Hc Hlist msgs Hall.
  unfold listEmails, bind at 1. rewrite Hc. unfold bind at 1. unfold await.
  fold (list_call args). rewrite Hlist. fold msgs.
  unfold bind. rewrite (fetch_summaries_run msgs details) by exact Hall.
  unfold ret. eexists _, _. split; [reflexivity|]. cbn [app].
  split; [reflexivity|]. split; [apply length_imap|]. split.
  - clear. generalize details. induction msgs as [|m ms IH]; intros d; [reflexivity|].
    cbn [imap map]. f_equal. apply IH.
  - cbn [net set_net]. rewrite !api_calls_app, api_calls_Api.
    rewrite (getGmailClient_api_calls _ _ _ Hc). cbn. by rewrite <- app_assoc.
Qed.

Lemma list_one_summary_each_witness :
  exists w2,
    listEmails (list_arguments (Some 2) None None) mailbox_world =
      (Returned (EmailList [{| es_id := "m1"; es_threadId := "t1";
                               es_from := "a@example.com"; es_subject := "Hi";
                               es_date := ""; es_snippet := "hello" |}] (Some 5)), w2)
    /\ api_calls (net w2) =
       [MessagesList 2 "" (Some ["INBOX"]);
        MessagesGet (Some "m1") "metadata" (Some ["From"; "Subject"; "Date"])].
Proof.
  destruct (list_one_summary_each (list_arguments (Some 2) None None) mailbox_world
              mailbox_world sample_client
              {| messages := Some [{| ref_id := "m1"; ref_threadId := "t1" |}];
                 resultSizeEstimate := Some 5 |}
              (fun _ => {| m_id := "m1"; m_threadId := "t1"; m_labelIds := ["INBOX"];
                           m_snippet := "hello";
                           payload := {| headers := [{| h_name := "From";
                                                        h_value := "a@example.com" |};
                                                     {| h_name := "Subject";
                                                        h_value := "Hi" |}];
                                         body_data := Some "aGVsbG8";
                                         parts := None |} |}))
    as (emails & w2 & Hrun & -> & _ & _ & Hcalls).
  - reflexivity.
  - reflexivity.
  - intros j msg Hj. reflexivity.
  - exists w2. split; [exact Hrun | exact Hcalls].
Defined.

(** X9.  The list operation keeps no partial result: when the fetch for the
    [k]-th listed message fails after the earlier ones succeeded, the
    operation throws that error, and no later message is fetched. *)
Theorem list_fails_whole (args : arguments) (w w1 : world) (c : gmail_client)
    (response : list_data) (k : nat) (failing : message_ref) (e : error) :
  getGmailClient w = (Returned c, w1) ->
  messages_list (gmail w1) (net w1) (list_call args) = Success response ->
  let msgs := default [] (messages response) in
  let trace j :=
    (net w1 ++ [Api (list_call args)]) ++ map (fun m => Api (detail_call m)) (take j msgs) in
  msgs !! k = Some failing ->
  (forall j msg, (j < k)%nat -> msgs !! j = Some msg ->
     exists d, messages_get (gmail w1) (trace j) (detail_call msg) = Success d) ->
  messages_get (gmail w1) (trace k) (detail_call failing) = Failure e ->
  exists w2,
    listEmails args w = (Thrown e, w2)
    /\ api_calls (net w2) =
       api_calls (net w) ++ list_call args :: map detail_call (take (S k) msgs).
Proof.
  intros Hc Hlist msgs trace Hk Hbefore Hfail.
  unfold listEmails, bind at 1. rewrite Hc. unfold bind at 1. unfold await.
  fold (list_call args). rewrite Hlist. fold msgs.
  unfold bind. rewrite (fetch_summaries_fail msgs k failing e); try done.
  eexists. split; [reflexivity|].
  cbn [net set_net]. rewrite !api_calls_app, api_calls_Api.
  rewrite (getGmailClient_api_calls _ _ _ Hc). cbn. by rewrite <- app_assoc.
Qed.

Lemma list_fails_whole_witness :
  exists w2,
    listEmails no_arguments broken_world = (Thrown (Error "Backend Error"), w2)
    /\ api_calls (net w2) =
       [MessagesList 10 "" (Some ["INBOX"]);
        MessagesGet (Some "m1") "metadata" (Some ["From"; "Subject"; "Date"]);
        MessagesGet (Some "m2") "metadata" (Some ["From"; "Subject"; "Date"])].
Proof.
  destruct (list_fails_whole no_arguments broken_world broken_world sample_client
              {| messages := Some [{| ref_id := "m1"; ref_threadId := "t1" |};
                                   {| ref_id := "m2"; ref_threadId := "t2" |};
                                   {| ref_id := "m3"; ref_threadId := "t3" |}];
                 resultSizeEstimate := Some 3 |}
              1%nat {| ref_id := "m2"; ref_threadId := "t2" |} (Error "Backend Error"))
    as (w2 & Hrun & Hcalls).
  - reflexivity.
  - reflexivity.
  - reflexivity.
  - intros j msg Hlt Hj. destruct j as [|j]; [|lia].
    cbn in Hj. inversion Hj; subst. eexists. reflexivity.
  - reflexivity.
  - exists w2. split; [exact Hrun | exact Hcalls].
Defined.

(** ** Labels and the unread count *)

(** X10.  The label sent to the provider has the given name and the two
    fixed visibility settings.  It has a colour entry exactly when a
    non-empty background or text colour was given, and then only the
    non-empty ones of the two; without colours the entry is left out.  The
    create call is the only provider call. *)
Theorem create_label_request (args : arguments) (w w1 : world) (c : gmail_client) :
  getGmailClient w = (Returned c, w1) ->
  exists requestBody,
    api_calls (net (snd (createLabel args w))) = api_calls (net w) ++ [LabelsCreate requestBody]
    /\ lb_name requestBody = name args
    /\ lb_labelListVisibility requestBody = "labelShow"
    /\ lb_messageListVisibility requestBody = "show"
    /\ (lb_color requestBody = None <->
        truthy_str (backgroundColor args) = false /\ truthy_str (textColor args) = false)
    /\ (forall bg tc, lb_color requestBody = Some (bg, tc) ->
          bg = (if truthy_str (backgroundColor args) then backgroundColor args else None)
          /\ tc = (if truthy_str (textColor args) then textColor args else None))
    /\ (forall label, labels_create (gmail w1) (net w1) (LabelsCreate requestBody) = Success label ->
          fst (createLabel args w) = Returned (LabelCreated label))
    /\ (forall e, labels_create (gmail w1) (net w1) (LabelsCreate requestBody) = Failure e ->
          fst (createLabel args w) = Thrown e).
Proof.
  intros Hc. unfold createLabel, bind, await, ret. rewrite Hc.
  set (requestBody := {| lb_name := name args; lb_labelListVisibility := _;
                         lb_messageListVisibility := _; lb_color := _ |}).
  exists requestBody. split.
  { destruct (labels_create _ _ _); cbn [snd net set_net]; rewrite api_calls_app;
      by rewrite (getGmailClient_api_calls _ _ _ Hc). }
  do 3 (split; [reflexivity|]).
  split; [|split; [|split]].
  - subst requestBody. cbn [lb_color].
    destruct (truthy_str (backgroundColor args)), (truthy_str (textColor args)); cbn;
      split; try discriminate; try done; intros [? ?]; discriminate.
  - intros bg tc. subst requestBody. cbn [lb_color].
    destruct (truthy_str (backgroundColor args)), (truthy_str (textColor args)); cbn;
      intros [=]; subst; auto.
  - intros label Hl. subst requestBody. by rewrite Hl.
  - intros e He. subst requestBody. by rewrite He.
Qed.

Lemma create_label_request_witness :
  api_calls (net (snd (createLabel sample_label ready_world))) =
  [LabelsCreate {| lb_name := Some "Clients/Aro Ha"; lb_labelListVisibility := "labelShow";
                   lb_messageListVisibility := "show"; lb_color := None |}].
Proof.
  destruct (create_label_request sample_label ready_world ready_world sample_client eq_refl)
    as (requestBody & Hcalls & Hname & Hl & Hm & Hcolor & _).
  rewrite Hcalls. destruct requestBody as [n l m col]. cbn in *. subst.
  replace col with (@None (option string * option string)); [reflexivity|].
  symmetry. apply Hcolor. split; reflexivity.
Defined.

(** X11.  The unread count is read off the size estimate of one list call
    for [is:unread], capped at one result and without label filter: the
    estimate when there is one, zero when the answer has none.  No message
    is fetched. *)
Theorem unread_count_estimate (w w1 : world) (c : gmail_client) (response : list_data) :
  getGmailClient w = (Returned c, w1) ->
  messages_list (gmail w1) (net w1) (MessagesList 1 "is:unread" None) = Success response ->
  exists w2,
    getUnreadCount w =
      (Returned (UnreadCount (match resultSizeEstimate response with
                              | Some n => n
                              | None => 0
                              end)), w2)
    /\ api_calls (net w2) = api_calls (net w) ++ [MessagesList 1 "is:unread" None].
Proof.
  intros Hc Hlist. unfold getUnreadCount, bind at 1. rewrite Hc.
  unfold bind, await, ret. rewrite Hlist. eexists. split.
  - by destruct (resultSizeEstimate response).
  - cbn [net set_net]. rewrite api_calls_app.
    by rewrite (getGmailClient_api_calls _ _ _ Hc).
Qed.

Lemma unread_count_estimate_witness :
  exists w2,
    getUnreadCount ready_world = (Returned (UnreadCount 0), w2)
    /\ api_calls (net w2) = [MessagesList 1 "is:unread" None].
Proof.
  apply (unread_count_estimate ready_world ready_world sample_client
           {| messages := None; resultSizeEstimate := None |}); reflexivity.
Defined.

(** ** Reading a message, continued; the call handler *)

Lemma find_skips {A} (f : A -> bool) before x after :
  Forall (fun y => f y = false) before ->
  f x = true ->
  List.find f (before ++ x :: after) = Some x.
Proof.
  induction 1 as [|y before Hy _ IH]; intros Hx; cbn [app List.find].
  - by rewrite Hx.
  - rewrite Hy. by apply IH.
Qed.

Lemma find_none {A} (f : A -> bool) l :
  Forall (fun y => f y = false) l -> List.find f l = None.
Proof. induction 1 as [|y l Hy _ IH]; cbn [List.find]; [done | by rewrite Hy]. Qed.

Lemma unknown_tool_names name :
  ~ In name tool_names ->
  forall b, run_tool b name =
            fun args => throw (Error ("Unknown tool: " +:+ name)).
Proof.
  intros Hnot b. unfold run_tool, tool_names in *. cbn [In] in Hnot.
  repeat match goal with
  | |- context [String.eqb name ?lit] =>
    destruct (String.eqb_spec name lit) as [->|_]; [exfalso; apply Hnot; auto 15|]
  end.
  reflexivity.
Qed.

Section Handler.

Variable base64_to_utf8 : string -> string.
Variable JSON_stringify : tool_result -> string.

(** X12.  The body of a fetched message is the decoded inline body whenever
    the payload has one, whatever its parts.  Otherwise only the first
    [text/plain] part counts: its decoded data, or the empty text when it
    has none, even if a later plain part has data.  Without parts, or
    without a plain part, the body is empty. *)
Theorem body_extraction (p : message_payload) :
  (truthy_str (body_data p) = true ->
   extract_body base64_to_utf8 p = base64_to_utf8 (default "" (body_data p)))
  /\ (truthy_str (body_data p) = false ->
      forall before part after,
        parts p = Some (before ++ part :: after) ->
        Forall (fun q => mimeType q <> "text/plain") before ->
        mimeType part = "text/plain" ->
        extract_body base64_to_utf8 p =
        if truthy_str (part_data part) then base64_to_utf8 (default "" (part_data part))
        else "")
  /\ (truthy_str (body_data p) = false ->
      forall ps,
        parts p = Some ps ->
        Forall (fun q => mimeType q <> "text/plain") ps ->
        extract_body base64_to_utf8 p = "")
  /\ (truthy_str (body_data p) = false -> parts p = None ->
      extract_body base64_to_utf8 p = "").
Proof.
  unfold extract_body. split; [|split; [|split]].
  - by intros ->.
  - intros -> before part after -> Hbefore Hpart.
    rewrite (find_skips _ before part after); [reflexivity | | ].
    + eapply Forall_impl; [exact Hbefore|]. intros q Hq. by apply String.eqb_neq.
    + by apply String.eqb_eq.
  - intros -> ps -> Hps. rewrite find_none; [reflexivity|].
    eapply Forall_impl; [exact Hps|]. intros q Hq. by apply String.eqb_neq.
  - by intros -> ->.
Qed.

(** X13.  The call handler answers every call and never throws.  What the
    tool returned becomes the serialized result, not flagged; what the tool
    threw becomes a flagged text that starts with [Error: ] and contains the
    message of the error, and the world is the one the tool left. *)
Theorem call_tool_answers (name : string) (args : option arguments) (w : world) :
  let response := fst (call_tool base64_to_utf8 JSON_stringify name args w) in
  let w' := snd (call_tool base64_to_utf8 JSON_stringify name args w) in
  (exists result,
     run_tool base64_to_utf8 name (default no_arguments args) w = (Returned result, w')
     /\ response = {| text := JSON_stringify result; isError := false |})
  \/ (exists e,
        run_tool base64_to_utf8 name (default no_arguments args) w = (Thrown e, w')
        /\ isError response = true
        /\ text response = "Error: " +:+ errorMessage e
        /\ String.prefix "Error: " (text response) = true
        /\ includes (message e) (text response) = true).
Proof.
  unfold call_tool.
  destruct (run_tool base64_to_utf8 name (default no_arguments args) w) as [[result|e] w'];
    cbn [fst snd].
  - left. eauto.
  - right. exists e. repeat split.
    + apply (prefix_append "Error: ").
    + apply includes_append_r, includes_errorMessage.
Qed.

(** X14.  A call that names none of the twelve registered tools is answered
    by a flagged text that contains [Unknown tool: ] and the name; neither
    the files nor the network are touched, so the answer is the same with
    or without credentials. *)
Theorem unknown_tool_answer (name : string) (args : option arguments) (w : world) :
  ~ In name tool_names ->
  call_tool base64_to_utf8 JSON_stringify name args w =
    ({| text := "Error: " +:+ errorMessage (Error ("Unknown tool: " +:+ name));
        isError := true |}, w)
  /\ includes ("Unknown tool: " +:+ name)
       ("Error: " +:+ errorMessage (Error ("Unknown tool: " +:+ name))) = true.
Proof.
  intros Hnot. unfold call_tool. rewrite (unknown_tool_names name Hnot). split.
  - reflexivity.
  - apply includes_append_r.
    apply (includes_errorMessage (Error ("Unknown tool: " +:+ name))).
Qed.

(** X15.  A failure with code 401, or whose message contains
    [invalid_grant] or [invalid_token], is reported as an expired
    authorization: the text is the notice that names the authorization
    script, followed by the original message.  Every other failure is
    reported with its message as it is. *)
Theorem expired_authorization_text (name : string) (args : option arguments)
    (w w' : world) (e : error) :
  run_tool base64_to_utf8 name (default no_arguments args) w = (Thrown e, w') ->
  let response := fst (call_tool base64_to_utf8 JSON_stringify name args w) in
  (code e = Some 401 \/ includes "invalid_grant" (message e) = true
   \/ includes "invalid_token" (message e) = true ->
   text response = "Error: " +:+ expired_notice +:+ message e
   /\ includes auth_script (text response) = true)
  /\ (code e <> Some 401 -> includes "invalid_grant" (message e) = false ->
      includes "invalid_token" (message e) = false ->
      text response = "Error: " +:+ message e).
Proof.
  intros Hrun response. subst response. unfold call_tool. rewrite Hrun. cbn [fst text].
  unfold errorMessage. split.
  - intros Hexp.
    assert (Hcond : bool_decide (code e = Some 401) || includes "invalid_grant" (message e)
                    || includes "invalid_token" (message e) = true).
    { destruct Hexp as [H | [H | H]].
      - by rewrite (bool_decide_eq_true_2 _ H).
      - rewrite H. by rewrite orb_true_r.
      - rewrite H. by rewrite orb_true_r. }
    rewrite Hcond. split; [reflexivity|].
    apply includes_append_r.
    apply (includes_middle auth_script "Gmail authentication expired. Please run 'node ").
  - intros Hcode Hgrant Htoken.
    rewrite (bool_decide_eq_false_2 _ Hcode), Hgrant, Htoken. cbn [orb].
    by destruct (_ || _).
Qed.

End Handler.

Lemma unknown_tool_answer_witness :
  call_tool sample_decode sample_stringify "empty_trash" None bare_world =
    ({| text := "Error: Unknown tool: empty_trash"; isError := true |}, bare_world).
Proof.
  apply (unknown_tool_answer sample_decode sample_stringify "empty_trash" None bare_world).
  simpl. intuition discriminate.
Defined.

Lemma expired_authorization_text_witness :
  text (fst (call_tool sample_decode sample_stringify "get_unread_count" None revoked_world)) =
  "Error: " +:+ expired_notice +:+ "Invalid Credentials".
Proof.
  apply (expired_authorization_text sample_decode sample_stringify "get_unread_count" None
           revoked_world (set_net revoked_world [Api (MessagesList 1 "is:unread" None)])
           {| message := "Invalid Credentials"; code := Some 401 |}).
  - reflexivity.
  - left. reflexivity.
Defined.

(** ** Base64 and base64url *)

Lemma base64_char_alphabet (x : sextet) :
  occurs (base64_char x) base64_alphabet = true.
Proof.
  destruct x as [[[[[b5 b4] b3] b2] b1] b0].
  destruct b5, b4, b3, b2, b1, b0; vm_compute; reflexivity.
Qed.

Lemma url_char_alphabet (x : sextet) :
  occurs (url_char (base64_char x)) base64url_alphabet = true.
Proof.
  destruct x as [[[[[b5 b4] b3] b2] b1] b0].
  destruct b5, b4, b3, b2, b1, b0; vm_compute; reflexivity.
Qed.

Lemma occurs_String c d s : occurs c (String d s) = Ascii.eqb c d || occurs c s.
Proof.
  unfold occurs. cbn [includes String.prefix].
  destruct (Ascii.ascii_dec c d) as [->|Hne].
  - rewrite Ascii.eqb_refl. by destruct s.
  - by apply Ascii.eqb_neq in Hne as ->.
Qed.

Lemma all_chars_occurs alphabet c s :
  all_chars (fun d => occurs d alphabet) s = true ->
  occurs c alphabet = false ->
  occurs c s = false.
Proof.
  intros Hall Hc. induction s as [|d s IH]; [reflexivity|].
  cbn [all_chars] in Hall. apply andb_prop in Hall as [Hd Hs].
  rewrite occurs_String, (IH Hs), orb_false_r.
  apply Ascii.eqb_neq. intros ->. congruence.
Qed.

(** X16.  The base64 text of [n] bytes has [4 * ceil (n / 3)] characters,
    so a multiple of four, all of them from the standard alphabet or the
    padding sign. *)
Theorem base64_shape (bytes : string) :
  String.length (base64 bytes) = (4 * ((String.length bytes + 2) / 3))%nat
  /\ all_chars (fun c => occurs c base64_alphabet || Ascii.eqb c "=") (base64 bytes) = true.
Proof.
  induction bytes as [|a|a b|a b c rest [IHlen IHall]] using string_ind3.
  - split; reflexivity.
  - split; [reflexivity|]. cbn [base64 all_chars].
    by rewrite !base64_char_alphabet.
  - split; [reflexivity|]. cbn [base64 all_chars].
    by rewrite !base64_char_alphabet.
  - split.
    + cbn [base64 String.length]. rewrite IHlen.
      replace (S (S (S (String.length rest))) + 2)%nat
        with (String.length rest + 2 + 1 * 3)%nat by lia.
      rewrite Nat.div_add by lia. lia.
    + cbn [base64 all_chars]. by rewrite !base64_char_alphabet, IHall.
Qed.

(** X17.  The envelope encoding is injective, and its text is URL-safe and
    unpadded: [ceil (4 n / 3)] characters for [n] bytes, all from the
    base64url alphabet, so none of [+], [/] and [=]. *)
Theorem base64url_shape (email : string) :
  (forall other, base64url email = base64url other -> email = other)
  /\ String.length (base64url email) = ((4 * String.length email + 2) / 3)%nat
  /\ all_chars (fun c => occurs c base64url_alphabet) (base64url email) = true
  /\ occurs "+" (base64url email) = false
  /\ occurs "/" (base64url email) = false
  /\ occurs "=" (base64url email) = false.
Proof.
  split.
  { intros other Heq. pose proof (base64url_round_trip email) as H1.
    rewrite Heq, base64url_round_trip in H1. by inversion H1. }
  assert (Hshape : String.length (base64url email) = ((4 * String.length email + 2) / 3)%nat
                   /\ all_chars (fun c => occurs c base64url_alphabet) (base64url email) = true).
  { unfold base64url.
    induction email as [|a|a b|a b c rest [IHlen IHall]] using string_ind3.
    - split; reflexivity.
    - cbn [base64]. rewrite !replace_replace_String.
      rewrite !strip_padding_String by apply url_char_not_padding.
      split; [reflexivity|]. cbn [all_chars]. by rewrite !url_char_alphabet.
    - cbn [base64]. rewrite !replace_replace_String.
      rewrite !strip_padding_String by apply url_char_not_padding.
      split; [reflexivity|]. cbn [all_chars]. by rewrite !url_char_alphabet.
    - cbn [base64]. rewrite !replace_replace_String.
      rewrite !strip_padding_String by apply url_char_not_padding.
      split.
      + cbn [String.length]. rewrite IHlen.
        replace (4 * S (S (S (String.length rest))) + 2)%nat
          with (4 * String.length rest + 2 + 4 * 3)%nat by lia.
        rewrite Nat.div_add by lia. lia.
      + cbn [all_chars]. by rewrite !url_char_alphabet, IHall. }
  destruct Hshape as [Hlen Hall]. split; [exact Hlen|]. split; [exact Hall|].
  split; [|split]; apply (all_chars_occurs _ _ _ Hall); vm_compute; reflexivity.
Qed.

(** ** Stripping tags, and the name of an attached file *)

Lemma strip_tags_from_unfold in_tag c s :
  strip_tags_from in_tag (String c s) =
  if in_tag then strip_tags_from (negb (Ascii.eqb c ">")) s
  else if Ascii.eqb c "<" && occurs ">" s then strip_tags_from true s
       else String c (strip_tags_from false s).
Proof. reflexivity. Qed.

(** Stripping adds no [>]. *)
Lemma strip_tags_from_occurs s :
  forall in_tag, occurs ">" (strip_tags_from in_tag s) = true -> occurs ">" s = true.
Proof.
  induction s as [|c s IH]; intros in_tag; [done|].
  rewrite strip_tags_from_unfold, (occurs_String ">" c s).
  destruct in_tag.
  - intros H. apply IH in H. rewrite H. apply orb_true_r.
  - destruct (Ascii.eqb c "<" && occurs ">" s).
    + intros H. apply IH in H. rewrite H. apply orb_true_r.
    + rewrite occurs_String. intros H. apply orb_prop in H as [-> | H]; [done|].
      apply IH in H. rewrite H. apply orb_true_r.
Qed.

Lemma strip_tags_from_tagless s :
  forall in_tag, tagless (strip_tags_from in_tag s) = true.
Proof.
  induction s as [|c s IH]; intros in_tag; [reflexivity|].
  rewrite strip_tags_from_unfold. destruct in_tag; [apply IH|].
  destruct (Ascii.eqb c "<" && occurs ">" s) eqn:Hopen; [apply IH|].
  cbn [tagless]. rewrite IH, andb_true_r. apply negb_true_iff.
  destruct (Ascii.eqb c "<"); [|reflexivity]. cbn [andb] in *.
  destruct (occurs ">" (strip_tags_from false s)) eqn:Hocc; [|reflexivity].
  apply strip_tags_from_occurs in Hocc. congruence.
Qed.

Lemma strip_tags_tagless s : tagless s = true -> strip_tags_from false s = s.
Proof.
  induction s as [|c s IH]; [reflexivity|]. cbn [tagless]. intros H.
  apply andb_prop in H as [Hc Hs]. apply negb_true_iff in Hc.
  by rewrite strip_tags_from_unfold, Hc, (IH Hs).
Qed.

Lemma tagless_without_open s : occurs "<" s = false -> tagless s = true.
Proof.
  induction s as [|c s IH]; [reflexivity|]. rewrite occurs_String. intros H.
  apply orb_false_elim in H as [Hc Hs]. cbn [tagless].
  rewrite (IH Hs), andb_true_r. rewrite Ascii.eqb_sym in Hc. by rewrite Hc.
Qed.

Lemma strip_tags_from_length s :
  forall in_tag, (String.length (strip_tags_from in_tag s) <= String.length s)%nat.
Proof.
  induction s as [|c s IH]; intros in_tag; [reflexivity|].
  rewrite strip_tags_from_unfold. cbn [String.length]. destruct in_tag.
  - specialize (IH (negb (Ascii.eqb c ">"))). lia.
  - destruct (Ascii.eqb c "<" && occurs ">" s).
    + specialize (IH true). lia.
    + cbn [String.length]. specialize (IH false). lia.
Qed.

(** X18.  The plain text made from an HTML body holds no tag any more: no
    [<] of it is followed by a [>].  Stripping is therefore idempotent; it
    never lengthens the text, and leaves a text without [<] as it is. *)
Theorem strip_tags_clean (html : string) :
  tagless (strip_tags html) = true
  /\ strip_tags (strip_tags html) = strip_tags html
  /\ (String.length (strip_tags html) <= String.length html)%nat
  /\ (occurs "<" html = false -> strip_tags html = html).
Proof.
  unfold strip_tags. split; [apply strip_tags_from_tagless|].
  split; [apply strip_tags_tagless, strip_tags_from_tagless|].
  split; [apply strip_tags_from_length|].
  intros H. by apply strip_tags_tagless, tagless_without_open.
Qed.

Lemma basename_unfold c p :
  basename (String c p) =
  if occurs "/" p then basename p else if Ascii.eqb c "/" then p else String c p.
Proof. reflexivity. Qed.

(** X19.  The file name taken from a path holds no [/] and is what follows
    the last [/] of the path: the path is a directory part, empty or ending
    in [/], followed by the name.  A path without [/] is its own name. *)
Theorem basename_last_segment (p : string) :
  occurs "/" (basename p) = false
  /\ (exists dir, p = dir +:+ basename p
                  /\ (dir = "" \/ exists d, dir = d +:+ "/"))
  /\ (occurs "/" p = false -> basename p = p).
Proof.
  induction p as [|c p (IHfree & (dir & Hdir & Hends) & IHid)].
  - split; [reflexivity|]. split; [|done]. exists "". auto.
  - rewrite basename_unfold. destruct (occurs "/" p) eqn:Hp.
    + split; [exact IHfree|]. split.
      * exists (String c dir). split; [by rewrite append_String, <- Hdir|].
        right. destruct Hends as [-> | [d ->]].
        -- change (p = basename p) in Hdir. rewrite <- Hdir in IHfree. congruence.
        -- exists (String c d). by rewrite append_String.
      * rewrite occurs_String, Hp, orb_true_r. discriminate.
    + destruct (Ascii.eqb c "/") eqn:Hc.
      * apply Ascii.eqb_eq in Hc as ->. split; [exact Hp|]. split.
        -- exists "/". split; [reflexivity|]. right. by exists "".
        -- rewrite occurs_String. discriminate.
      * split; [by rewrite occurs_String, Ascii.eqb_sym, Hc, Hp|]. split.
        -- exists "". auto.
        -- done.
Qed.

(** ** Boundaries *)

Lemma length_string_of_list_ascii l :
  String.length (string_of_list_ascii l) = length l.
Proof. induction l as [|c l IH]; cbn; [reflexivity | by rewrite IH]. Qed.

Lemma new_boundary_shape kind w :
  exists suffix,
    new_boundary kind w =
      (Returned ("----=_" +:+ kind +:+ "_" +:+ pretty (now w) +:+ "_" +:+ suffix),
       set_random w (drop 1 (random w)))
    /\ (String.length suffix <= 9)%nat
    /\ token_text suffix = true.
Proof.
  unfold new_boundary, bind, random_suffix, ret.
  destruct (random w) as [|digits rest] eqn:Hr.
  - exists "". split; [|split; [cbn; lia | reflexivity]].
    f_equal. destruct w; cbn in *. by subst.
  - eexists. split; [reflexivity|]. split; [|apply token_digits].
    rewrite length_string_of_list_ascii, length_map, length_take. lia.
Qed.

Lemma base36_digits ds :
  all_chars base36_digit (string_of_list_ascii (map digit36 ds)) = true.
Proof.
  induction ds as [|d ds IH]; [reflexivity|].
  cbn [map string_of_list_ascii all_chars]. rewrite IH, andb_true_r.
  unfold digit36.
  assert (Hlt : (d mod 36 < 36)%nat) by (apply Nat.mod_upper_bound; lia).
  generalize dependent (d mod 36)%nat. intros k Hk.
  do 36 (destruct k as [|k]; [reflexivity|]). lia.
Qed.

(** X20.  A boundary is the fixed prefix, the kind, the clock in decimal and
    the first nine base-36 digits of the next random draw (all of them when
    the draw has fewer); it holds no quote and no line break when the kind
    holds none.  Making it consumes that draw and changes nothing else of
    the world. *)
Theorem boundary_well_formed (kind : string) (w w' : world) (b : string) :
  new_boundary kind w = (Returned b, w') ->
  let suffix :=
    string_of_list_ascii (map digit36 (take 9 (default [] (head (random w))))) in
  b = "----=_" +:+ kind +:+ "_" +:+ pretty (now w) +:+ "_" +:+ suffix
  /\ (String.length suffix <= 9)%nat
  /\ all_chars base36_digit suffix = true
  /\ (token_text kind = true -> token_text b = true)
  /\ random w' = drop 1 (random w)
  /\ same_but_random w w'.
Proof.
  intros Hb suffix.
  assert (Hrun : b = "----=_" +:+ kind +:+ "_" +:+ pretty (now w) +:+ "_" +:+ suffix
                 /\ random w' = drop 1 (random w) /\ same_but_random w w').
  { subst suffix. unfold new_boundary, bind, random_suffix, ret in Hb.
    destruct (random w) as [|digits rest] eqn:Hr; inversion Hb; subst; clear Hb;
      cbn [head default from_option id drop]; unfold same_but_random; cbn;
      rewrite ?Hr; by repeat split. }
  destruct Hrun as (Hshape & Hrandom & Hsame).
  split; [exact Hshape|]. split; [|split; [apply base36_digits|]].
  - subst suffix. rewrite length_string_of_list_ascii, length_map, length_take. lia.
  - split; [|by split]. intros Hkind. rewrite Hshape.
    subst suffix. by rewrite !token_text_append, Hkind, token_pretty, token_digits.
Qed.

Lemma boundary_well_formed_witness :
  "----=_Mixed_1600000000000_123" =
    "----=_" +:+ "Mixed" +:+ "_" +:+ pretty (now ready_world) +:+ "_" +:+
    string_of_list_ascii (map digit36 (take 9 (default [] (head (random ready_world)))))
  /\ random (set_random ready_world [[4; 5; 6]%nat]) = drop 1 (random ready_world).
Proof.
  destruct (boundary_well_formed "Mixed" ready_world (set_random ready_world [[4; 5; 6]%nat])
              "----=_Mixed_1600000000000_123") as (Hshape & _ & _ & _ & Hrandom & _).
  - vm_compute. reflexivity.
  - split; [exact Hshape | exact Hrandom].
Defined.

(** X21.  The boundaries of the two levels of a message never coincide,
    even when the clock and the random draw are the same: no delimiter line
    of the alternative part is a delimiter line of the mixed body, and the
    other way round. *)
Theorem boundaries_never_collide (w w' wa wb : world) (mixedBoundary altBoundary : string) :
  new_boundary "Mixed" w = (Returned mixedBoundary, wa) ->
  new_boundary "Alternative" w' = (Returned altBoundary, wb) ->
  mixedBoundary <> altBoundary
  /\ boundary_free mixedBoundary [delimiter altBoundary; close_delimiter altBoundary] = true
  /\ boundary_free altBoundary [delimiter mixedBoundary; close_delimiter mixedBoundary] = true.
Proof.
  intros Hm Ha.
  destruct (new_boundary_shape "Mixed" w) as (s1 & Hm' & _).
  destruct (new_boundary_shape "Alternative" w') as (s2 & Ha' & _).
  rewrite Hm' in Hm. rewrite Ha' in Ha. inversion Hm; inversion Ha; subst.
  split; [|split].
  - apply String.eqb_neq. reflexivity.
  - reflexivity.
  - reflexivity.
Qed.

Lemma boundaries_never_collide_witness :
  "----=_Mixed_1600000000000_123" <> "----=_Alternative_1600000000000_123".
Proof.
  apply (boundaries_never_collide ready_world ready_world
           (set_random ready_world [[4; 5; 6]%nat]) (set_random ready_world [[4; 5; 6]%nat])
           "----=_Mixed_1600000000000_123" "----=_Alternative_1600000000000_123");
    vm_compute; reflexivity.
Defined.

(** ** Messages without attachments, read back *)

Lemma join_String sep c l ls : join sep (String c l :: ls) = String c (join sep (l :: ls)).
Proof. by destruct ls. Qed.

(** Joining the lines of a text with CRLF gives the text back. *)
Lemma join_lines s : join CRLF (lines s) = s.
Proof.
  assert (H : join CRLF (lines s) = s /\ forall c, join CRLF (lines (String c s)) = String c s).
  { induction s as [|d s [IH0 IH1]]; [by split|].
    split; [exact (IH1 d)|]. intros c.
    destruct (Ascii.eqb c CR && Ascii.eqb d LF) eqn:Hbreak.
    - rewrite lines_unfold, Hbreak.
      apply andb_prop in Hbreak as [Hc Hd].
      apply Ascii.eqb_eq in Hc as ->. apply Ascii.eqb_eq in Hd as ->.
      pose proof (lines_not_nil s) as Hne.
      destruct (lines s) as [|l ls] eqn:E; [done|].
      change (join CRLF ("" :: l :: ls)) with (CRLF +:+ join CRLF (l :: ls)).
      by rewrite IH0.
    - destruct (lines_String_next c d s Hbreak) as (l & ls & Hl & ->).
      rewrite join_String, <- Hl. by rewrite (IH1 d). }
  apply H.
Qed.

Lemma build_email_plain args w :
  truthy_str (htmlBody args) = false ->
  attachments args = None \/ attachments args = Some [] ->
  build_email args w =
  (Returned (join CRLF (send_headers args) +:+ CRLF +:+
             plain_type_line +:+ CRLF +:+ encoding_line +:+ CRLF +:+
             "" +:+ CRLF +:+ default "" (body args)), w).
Proof.
  intros Hhtml Hatts. unfold build_email, ret, plain_type_line, encoding_line.
  destruct Hatts as [-> | ->]; rewrite Hhtml; by rewrite !append_assoc.
Qed.

(** X22.  A send request with a plain body only, whose header values hold
    no line break, draws no boundary, and the message it sends reads back
    as it was meant: the payload decodes to the message, whose header
    fields are the header lines of the request followed by the two content
    lines, whose type is plain text, and whose body is the body of the
    request, character for character. *)
Theorem plain_message_read_back (args : arguments) (w w1 : world) (c : gmail_client) :
  getGmailClient w = (Returned c, w1) ->
  truthy_str (to args) = true ->
  truthy_str (subject args) = true ->
  truthy_str (body args) = true ->
  truthy_str (htmlBody args) = false ->
  attachments args = None \/ attachments args = Some [] ->
  forallb no_line_break (send_headers args) = true ->
  exists raw message,
    api_calls (net (snd (sendEmail args w))) =
      api_calls (net w) ++
      [MessagesSend raw (if truthy_str (threadId args) then threadId args else None)]
    /\ build_email args w1 = (Returned message, w1)
    /\ base64url_decode raw = Some message
    /\ fields (parse_message message) = send_headers args ++ [plain_type_line; encoding_line]
    /\ content_type (parse_message message) = "text/plain; charset=UTF-8"
    /\ join CRLF (content (parse_message message)) = default "" (body args).
Proof.
  intros Hc Hto Hsubject Hbody Hhtml Hatts Hhs.
  pose proof (build_email_plain args w1 Hhtml Hatts) as Hbuild.
  match type of Hbuild with
  | _ = (Returned ?m, _) => set (message := m) in *
  end.
  exists (base64url message), message.
  split.
  { apply (sendEmail_request args w c w1 message w1 Hc Hto Hsubject); [|exact Hbuild].
    by rewrite Hbody. }
  split; [exact Hbuild|]. split; [apply base64url_round_trip|].
  assert (Hlines : lines message =
            (send_headers args ++ [plain_type_line; encoding_line]) ++
            "" :: lines (default "" (body args))).
  { subst message.
    rewrite lines_append_CRLF, lines_join by (done || by unfold send_headers).
    rewrite lines_append_CRLF, (lines_single plain_type_line) by reflexivity.
    rewrite lines_append_CRLF, (lines_single encoding_line) by reflexivity.
    rewrite lines_append_CRLF. change (lines "") with [EmptyString].
    by rewrite <- !app_assoc. }
  unfold parse_message. rewrite Hlines. unfold parse_entity.
  rewrite split_blank_fields.
  2: { apply Forall_app. split.
       - eapply Forall_impl; [apply send_headers_fields|]. by intros h [? _].
       - repeat constructor; discriminate. }
  cbn [fields content]. split; [reflexivity|]. split; [|apply join_lines].
  unfold content_type. cbn [fields]. rewrite field_value_skip.
  - reflexivity.
  - eapply Forall_impl; [apply send_headers_fields|]. by intros h [_ ?].
Qed.

Lemma plain_message_read_back_witness :
  exists raw message,
    api_calls (net (snd (sendEmail sample_note ready_world))) = [MessagesSend raw None]
    /\ base64url_decode raw = Some message
    /\ content (parse_message message) = ["First line."; "Second line."].
Proof.
  destruct (plain_message_read_back sample_note ready_world ready_world sample_client)
    as (raw & message & Hsent & Hbuild & Hdecode & _).
  - reflexivity.
  - reflexivity.
  - reflexivity.
  - reflexivity.
  - reflexivity.
  - right. reflexivity.
  - reflexivity.
  - exists raw, message. split; [exact Hsent|]. split; [exact Hdecode|].
    assert (Hm : message = email_text sample_note ready_world).
    { unfold email_text. by rewrite Hbuild. }
    rewrite Hm. vm_compute. reflexivity.
Defined.

Lemma build_email_alternative args w wa boundary :
  truthy_str (htmlBody args) = true ->
  attachments args = None \/ attachments args = Some [] ->
  new_boundary "Part" w = (Returned boundary, wa) ->
  build_email args w =
  (Returned (join CRLF (send_headers args) +:+ CRLF +:+
             "MIME-Version: 1.0" +:+ CRLF +:+
             ("Content-Type: " +:+ alternative_content_type boundary) +:+ CRLF +:+
             "" +:+ CRLF +:+
             alternative_versions boundary args +:+ CRLF), wa).
Proof.
  intros Hhtml Hatts Hb. unfold build_email, alternative_content_type.
  destruct Hatts as [-> | ->]; rewrite Hhtml; unfold bind; rewrite Hb; unfold ret;
    by rewrite !append_assoc.
Qed.

Lemma boundary_parameter_alternative boundary :
  token_text boundary = true ->
  boundary_parameter (alternative_content_type boundary) = Some boundary.
Proof.
  intros Htoken. unfold boundary_parameter, alternative_content_type.
  change (after ("boundary=" +:+ quote)
            ("multipart/alternative; boundary=" +:+ quote +:+ boundary +:+ quote))
    with (Some (boundary +:+ quote +:+ "")).
  cbn [mbind option_bind]. by apply until_quote.
Qed.

Lemma parse_alternative_lines hs boundary p ps :
  Forall (fun h => h <> "" /\ strip_prefix "Content-Type: " h = None) hs ->
  token_text boundary = true ->
  boundary_free boundary p = true ->
  Forall (fun q => boundary_free boundary q = true) ps ->
  parse_multipart "alternative"
    (parse_entity
       ((hs ++ ["MIME-Version: 1.0"; "Content-Type: " +:+ alternative_content_type boundary])
        ++ "" :: delimiter boundary ::
           (p ++ concat (map (cons (delimiter boundary)) ps)
              ++ close_delimiter boundary :: [""])))
  = Some (map parse_entity (p :: ps)).
Proof.
  intros Hhs Htoken Hp Hps.
  unfold parse_entity. rewrite split_blank_fields.
  2: { apply Forall_app. split.
       - eapply Forall_impl; [exact Hhs|]. by intros h [? _].
       - repeat constructor; [discriminate|]. by rewrite append_String. }
  unfold parse_multipart, content_type. cbn [fields content].
  rewrite field_value_skip.
  2: { eapply Forall_impl; [exact Hhs|]. by intros h [_ ?]. }
  change (field_value "Content-Type"
            ["MIME-Version: 1.0"; "Content-Type: " +:+ alternative_content_type boundary])
    with (Some (alternative_content_type boundary)).
  cbn [default from_option id].
  change (String.prefix ("multipart/" +:+ "alternative") (alternative_content_type boundary))
    with true.
  cbv iota. rewrite (boundary_parameter_alternative _ Htoken).
  cbn [multipart_body]. rewrite String.eqb_refl.
  by rewrite (parts_after_parts _ _ _ _ Hp Hps).
Qed.

(** The lines of a message with both versions, up to the versions *)
Lemma lines_alternative_email args boundary versions :
  forallb no_line_break (send_headers args) = true ->
  token_text boundary = true ->
  lines (join CRLF (send_headers args) +:+ CRLF +:+
         "MIME-Version: 1.0" +:+ CRLF +:+
         ("Content-Type: " +:+ alternative_content_type boundary) +:+ CRLF +:+
         "" +:+ CRLF +:+ versions) =
  (send_headers args ++
   ["MIME-Version: 1.0"; "Content-Type: " +:+ alternative_content_type boundary])
  ++ "" :: lines versions.
Proof.
  intros Hhs Htoken.
  pose proof (token_text_no_line_break _ Htoken) as Hline.
  rewrite lines_append_CRLF, lines_join by (done || by unfold send_headers).
  rewrite lines_append_CRLF, (lines_single "MIME-Version: 1.0") by reflexivity.
  rewrite lines_append_CRLF, (lines_single ("Content-Type: " +:+ _)).
  2: { unfold alternative_content_type. rewrite !no_line_break_append, Hline. reflexivity. }
  rewrite lines_append_CRLF. change (lines "") with [EmptyString].
  by rewrite <- !app_assoc.
Qed.

Lemma no_line_break_delimiters boundary :
  token_text boundary = true ->
  no_line_break (delimiter boundary) = true /\ no_line_break (close_delimiter boundary) = true.
Proof.
  intros Htoken. pose proof (token_text_no_line_break _ Htoken) as Hline.
  unfold delimiter, close_delimiter. rewrite !no_line_break_append, Hline. by split.
Qed.

(** The lines of the two versions when the request has no plain body *)
Lemma lines_versions_html_only args boundary :
  truthy_str (body args) = false ->
  token_text boundary = true ->
  lines (alternative_versions boundary args +:+ CRLF) =
  delimiter boundary ::
  ([plain_type_line; encoding_line; ""] ++
   lines (strip_tags (default "" (htmlBody args))) ++ [""])
  ++ concat (map (cons (delimiter boundary))
       [[html_type_line; encoding_line; ""] ++ lines (default "" (htmlBody args)) ++ [""]])
  ++ close_delimiter boundary :: [""].
Proof.
  intros Hbody Htoken. destruct (no_line_break_delimiters _ Htoken) as [Hd Hc].
  unfold alternative_versions, plain_version. rewrite Hbody.
  set (plain := strip_tags (default "" (htmlBody args))).
  set (html := default "" (htmlBody args)).
  replace (_ +:+ CRLF)
    with (delimiter boundary +:+ CRLF +:+ plain_type_line +:+ CRLF +:+ encoding_line +:+ CRLF
          +:+ "" +:+ CRLF +:+ plain +:+ CRLF +:+ "" +:+ CRLF +:+
          delimiter boundary +:+ CRLF +:+ html_type_line +:+ CRLF +:+ encoding_line +:+ CRLF
          +:+ "" +:+ CRLF +:+ html +:+ CRLF +:+ "" +:+ CRLF +:+
          close_delimiter boundary +:+ CRLF +:+ "")
    by (unfold delimiter, close_delimiter, plain_type_line, html_type_line, encoding_line;
        by rewrite !append_assoc).
  rewrite lines_append_CRLF, (lines_single _ Hd).
  rewrite lines_append_CRLF, (lines_single plain_type_line) by reflexivity.
  rewrite lines_append_CRLF, (lines_single encoding_line) by reflexivity.
  rewrite lines_append_CRLF. change (lines "") with [EmptyString].
  rewrite (lines_append_CRLF plain), (lines_append_CRLF "").
  change (lines "") with [EmptyString].
  rewrite lines_append_CRLF, (lines_single _ Hd).
  rewrite lines_append_CRLF, (lines_single html_type_line) by reflexivity.
  rewrite lines_append_CRLF, (lines_single encoding_line) by reflexivity.
  rewrite lines_append_CRLF. change (lines "") with [EmptyString].
  rewrite (lines_append_CRLF html), (lines_append_CRLF "").
  change (lines "") with [EmptyString].
  rewrite lines_append_CRLF, (lines_single _ Hc).
  cbn [map concat app]. rewrite <- !app_assoc. reflexivity.
Qed.

(** The lines of the two versions when the request has a plain body: the
    delimiter before the HTML version continues the last line of the
    body. *)
Lemma lines_versions_both args boundary :
  truthy_str (body args) = true ->
  token_text boundary = true ->
  lines (alternative_versions boundary args +:+ CRLF) =
  delimiter boundary ::
  ([plain_type_line; encoding_line; ""] ++
   lines (default "" (body args) +:+ delimiter boundary) ++
   [html_type_line; encoding_line; ""] ++ lines (default "" (htmlBody args)) ++ [""])
  ++ concat (map (cons (delimiter boundary)) [])
  ++ close_delimiter boundary :: [""].
Proof.
  intros Hbody Htoken. destruct (no_line_break_delimiters _ Htoken) as [Hd Hc].
  unfold alternative_versions, plain_version. rewrite Hbody.
  set (plain := default "" (body args)).
  set (html := default "" (htmlBody args)).
  replace (_ +:+ CRLF)
    with (delimiter boundary +:+ CRLF +:+ plain_type_line +:+ CRLF +:+ encoding_line +:+ CRLF
          +:+ "" +:+ CRLF +:+ (plain +:+ delimiter boundary) +:+ CRLF +:+
          html_type_line +:+ CRLF +:+ encoding_line +:+ CRLF
          +:+ "" +:+ CRLF +:+ html +:+ CRLF +:+ "" +:+ CRLF +:+
          close_delimiter boundary +:+ CRLF +:+ "")
    by (unfold delimiter, close_delimiter, plain_type_line, html_type_line, encoding_line;
        by rewrite !append_assoc).
  rewrite lines_append_CRLF, (lines_single _ Hd).
  rewrite lines_append_CRLF, (lines_single plain_type_line) by reflexivity.
  rewrite lines_append_CRLF, (lines_single encoding_line) by reflexivity.
  rewrite lines_append_CRLF. change (lines "") with [EmptyString].
  rewrite (lines_append_CRLF (plain +:+ delimiter boundary)).
  rewrite lines_append_CRLF, (lines_single html_type_line) by reflexivity.
  rewrite lines_append_CRLF, (lines_single encoding_line) by reflexivity.
  rewrite lines_append_CRLF. change (lines "") with [EmptyString].
  rewrite (lines_append_CRLF html), (lines_append_CRLF "").
  change (lines "") with [EmptyString].
  rewrite lines_append_CRLF, (lines_single _ Hc).
  change (lines "") with [EmptyString].
  cbn [map concat app]. rewrite <- ?app_assoc. cbn [app].
  rewrite <- ?app_assoc. reflexivity.
Qed.

(** Framing lines of a version are no delimiters. *)
Lemma boundary_free_framed boundary type_line middle :
  String.prefix "Content-Type: " type_line = true ->
  boundary_free boundary middle = true ->
  boundary_free boundary ([type_line; encoding_line; ""] ++ middle ++ [""]) = true.
Proof.
  intros Htype Hmid. unfold boundary_free in *. rewrite !forallb_app, Hmid.
  destruct type_line as [|c t]; [discriminate|].
  cbn [String.prefix] in Htype. destruct (Ascii.ascii_dec "C" c) as [<-|]; [|discriminate].
  reflexivity.
Qed.

Lemma parse_entity_framed type_line middle :
  type_line <> "" ->
  parse_entity ([type_line; encoding_line; ""] ++ middle ++ [""]) =
  {| fields := [type_line; encoding_line]; content := middle ++ [""] |}.
Proof.
  intros Hne. unfold parse_entity.
  change ([type_line; encoding_line; ""] ++ middle ++ [""])
    with ([type_line; encoding_line] ++ "" :: (middle ++ [""])).
  rewrite split_blank_fields; [reflexivity|].
  repeat constructor; [exact Hne | discriminate].
Qed.

(** X23. A request with an HTML body, no plain body and no attachment is
    sent as one multipart/alternative message with two versions: the HTML
    body with its tags removed as text/plain, then the HTML body as
    text/html, each followed by an empty line. This holds when the header
    values are single lines and no line of either version is a delimiter of
    the boundary drawn for the message. *)
Theorem html_only_two_versions (args : arguments) (w w1 wa : world) (c : gmail_client)
    (boundary : string) :
  getGmailClient w = (Returned c, w1) ->
  truthy_str (to args) = true ->
  truthy_str (subject args) = true ->
  truthy_str (body args) = false ->
  truthy_str (htmlBody args) = true ->
  attachments args = None \/ attachments args = Some [] ->
  new_boundary "Part" w1 = (Returned boundary, wa) ->
  forallb no_line_break (send_headers args) = true ->
  boundary_free boundary (lines (strip_tags (default "" (htmlBody args)))) = true ->
  boundary_free boundary (lines (default "" (htmlBody args))) = true ->
  exists raw message,
    api_calls (net (snd (sendEmail args w))) =
      api_calls (net w) ++
      [MessagesSend raw (if truthy_str (threadId args) then threadId args else None)]
    /\ build_email args w1 = (Returned message, wa)
    /\ base64url_decode raw = Some message
    /\ parse_multipart "alternative" (parse_message message) =
       Some [ {| fields := [plain_type_line; encoding_line];
                 content := lines (strip_tags (default "" (htmlBody args))) ++ [""] |};
              {| fields := [html_type_line; encoding_line];
                 content := lines (default "" (htmlBody args)) ++ [""] |} ].
Proof.
  intros Hc Hto Hsubject Hbody Hhtml Hatts Hb Hhs Hplain Hpage.
  pose proof (build_email_alternative args w1 wa boundary Hhtml Hatts Hb) as Hbuild.
  pose proof (new_boundary_token "Part" w1 boundary wa eq_refl Hb) as Htoken.
  match type of Hbuild with
  | _ = (Returned ?m, _) => set (message := m) in *
  end.
  exists (base64url message), message.
  split.
  { apply (sendEmail_request args w c w1 message wa Hc Hto Hsubject); [|exact Hbuild].
    rewrite Hhtml. apply orb_true_r. }
  split; [exact Hbuild|]. split; [apply base64url_round_trip|].
  subst message. unfold parse_message.
  rewrite (lines_alternative_email _ _ _ Hhs Htoken).
  rewrite (lines_versions_html_only _ _ Hbody Htoken).
  rewrite parse_alternative_lines.
  - cbn [map]. by rewrite !parse_entity_framed.
  - apply send_headers_fields.
  - exact Htoken.
  - by apply boundary_free_framed.
  - repeat constructor. by apply boundary_free_framed.
Qed.

Lemma html_only_two_versions_witness :
  exists raw message,
    api_calls (net (snd (sendEmail sample_page ready_world))) = [MessagesSend raw None]
    /\ base64url_decode raw = Some message
    /\ parse_multipart "alternative" (parse_message message) =
       Some [ {| fields := [plain_type_line; encoding_line];
                 content := ["Hello there"; ""] |};
              {| fields := [html_type_line; encoding_line];
                 content := ["<p>Hello <b>there</b></p>"; ""] |} ].
Proof.
  destruct (html_only_two_versions sample_page ready_world ready_world
              (set_random ready_world [[4; 5; 6]%nat]) sample_client
              "----=_Part_1600000000000_123")
    as (raw & message & Hsent & _ & Hdecode & Hparse).
  - reflexivity.
  - reflexivity.
  - reflexivity.
  - reflexivity.
  - reflexivity.
  - left. reflexivity.
  - vm_compute. reflexivity.
  - reflexivity.
  - vm_compute. reflexivity.
  - vm_compute. reflexivity.
  - exists raw, message. split; [exact Hsent|]. split; [exact Hdecode|]. exact Hparse.
Defined.

(** X24. A request with both a plain and an HTML body and no attachment is
    sent as a multipart/alternative message that reads back with one
    version only: no line break follows the plain body, so the delimiter of
    the HTML version continues the last line of the body, and the header
    lines and the text of the HTML version are content of the text/plain
    version. This holds when the header values are single lines and no line
    of that content is a delimiter of the boundary drawn for the message. *)
Theorem both_bodies_one_version (args : arguments) (w w1 wa : world) (c : gmail_client)
    (boundary : string) :
  getGmailClient w = (Returned c, w1) ->
  truthy_str (to args) = true ->
  truthy_str (subject args) = true ->
  truthy_str (body args) = true ->
  truthy_str (htmlBody args) = true ->
  attachments args = None \/ attachments args = Some [] ->
  new_boundary "Part" w1 = (Returned boundary, wa) ->
  forallb no_line_break (send_headers args) = true ->
  boundary_free boundary
    (lines (default "" (body args) +:+ delimiter boundary) ++
     [html_type_line; encoding_line; ""] ++ lines (default "" (htmlBody args))) = true ->
  exists raw message,
    api_calls (net (snd (sendEmail args w))) =
      api_calls (net w) ++
      [MessagesSend raw (if truthy_str (threadId args) then threadId args else None)]
    /\ build_email args w1 = (Returned message, wa)
    /\ base64url_decode raw = Some message
    /\ parse_multipart "alternative" (parse_message message) =
       Some [ {| fields := [plain_type_line; encoding_line];
                 content := lines (default "" (body args) +:+ delimiter boundary) ++
                            [html_type_line; encoding_line; ""] ++
                            lines (default "" (htmlBody args)) ++ [""] |} ].
Proof.
  intros Hc Hto Hsubject Hbody Hhtml Hatts Hb Hhs Hfree.
  pose proof (build_email_alternative args w1 wa boundary Hhtml Hatts Hb) as Hbuild.
  pose proof (new_boundary_token "Part" w1 boundary wa eq_refl Hb) as Htoken.
  match type of Hbuild with
  | _ = (Returned ?m, _) => set (message := m) in *
  end.
  exists (base64url message), message.
  split.
  { apply (sendEmail_request args w c w1 message wa Hc Hto Hsubject); [|exact Hbuild].
    rewrite Hhtml. apply orb_true_r. }
  split; [exact Hbuild|]. split; [apply base64url_round_trip|].
  subst message. unfold parse_message.
  rewrite (lines_alternative_email _ _ _ Hhs Htoken).
  rewrite (lines_versions_both _ _ Hbody Htoken).
  set (merged := lines (default "" (body args) +:+ delimiter boundary) ++
                 [html_type_line; encoding_line; ""] ++ lines (default "" (htmlBody args))).
  assert (Hframed :
    [plain_type_line; encoding_line; ""] ++
    lines (default "" (body args) +:+ delimiter boundary) ++
    [html_type_line; encoding_line; ""] ++ lines (default "" (htmlBody args)) ++ [""] =
    [plain_type_line; encoding_line; ""] ++ merged ++ [""]).
  { subst merged. rewrite <- !app_assoc. reflexivity. }
  assert (Hcontent :
    lines (default "" (body args) +:+ delimiter boundary) ++
    [html_type_line; encoding_line; ""] ++ lines (default "" (htmlBody args)) ++ [""] =
    merged ++ [""]).
  { subst merged. rewrite <- !app_assoc. reflexivity. }
  rewrite Hframed, Hcontent.
  rewrite parse_alternative_lines.
  - cbn [map]. by rewrite parse_entity_framed.
  - apply send_headers_fields.
  - exact Htoken.
  - by apply boundary_free_framed.
  - constructor.
Qed.

Lemma both_bodies_one_version_witness :
  exists raw message,
    api_calls (net (snd (sendEmail sample_both ready_world))) = [MessagesSend raw None]
    /\ base64url_decode raw = Some message
    /\ parse_multipart "alternative" (parse_message message) =
       Some [ {| fields := [plain_type_line; encoding_line];
                 content := ["Hello there------=_Part_1600000000000_123";
                             html_type_line; encoding_line; "";
                             "<p>Hello <b>there</b></p>"; ""] |} ].
Proof.
  destruct (both_bodies_one_version sample_both ready_world ready_world
              (set_random ready_world [[4; 5; 6]%nat]) sample_client
              "----=_Part_1600000000000_123")
    as (raw & message & Hsent & _ & Hdecode & Hparse).
  - reflexivity.
  - reflexivity.
  - reflexivity.
  - reflexivity.
  - reflexivity.
  - left. reflexivity.
  - vm_compute. reflexivity.
  - reflexivity.
  - vm_compute. reflexivity.
  - exists raw, message. split; [exact Hsent|]. split; [exact Hdecode|]. exact Hparse.
Defined.

(** ** Attachments, continued *)

Lemma build_email_mixed_plain args w wa mixedBoundary atts contents :
  truthy_str (htmlBody args) = false ->
  attachments args = Some atts ->
  atts <> [] ->
  new_boundary "Mixed" w = (Returned mixedBoundary, wa) ->
  Forall2 (fun a fileContent => path a ≫= (fun p => files w !! p) = Some fileContent)
    atts contents ->
  build_email args w =
  (Returned
     (join CRLF (send_headers args) +:+ CRLF +:+
      "MIME-Version: 1.0" +:+ CRLF +:+
      ("Content-Type: " +:+ mixed_content_type mixedBoundary) +:+ CRLF +:+
      "" +:+ CRLF +:+
      delimiter mixedBoundary +:+ CRLF +:+
      body_part_text "" args +:+
      attachments_text mixedBoundary atts contents +:+
      close_delimiter mixedBoundary +:+ CRLF), wa).
Proof.
  intros Hhtml Hatts Hne Hm Hread.
  assert (Hf1 : files wa = files w).
  { destruct (new_boundary_same "Mixed" w) as (b1 & w1 & Hm' & (_ & _ & Hf)).
    congruence. }
  unfold build_email. rewrite Hatts. destruct atts as [|a atts]; [done|].
  unfold bind at 1. rewrite Hm. unfold bind at 1. rewrite Hhtml. unfold ret at 1.
  unfold bind at 1. rewrite (add_attachments_text _ _ contents).
  - unfold ret, mixed_content_type, delimiter, close_delimiter.
    by rewrite !append_assoc.
  - rewrite Hf1. exact Hread.
Qed.

Lemma part_lines_plain_body altBoundary args :
  truthy_str (htmlBody args) = false ->
  part_lines (body_part_text altBoundary args) =
  [plain_type_line; encoding_line; ""] ++ lines (default "" (body args)) ++ [""].
Proof.
  intros Hhtml. unfold part_lines, body_part_text. rewrite Hhtml.
  change ("Content-Type: text/plain; charset=UTF-8" +:+ CRLF +:+
          "Content-Transfer-Encoding: 7bit" +:+ CRLF +:+ CRLF +:+
          default "" (body args) +:+ CRLF +:+ CRLF)
    with (plain_type_line +:+ CRLF +:+ encoding_line +:+ CRLF +:+ "" +:+ CRLF +:+
          default "" (body args) +:+ CRLF +:+ "" +:+ CRLF +:+ "").
  rewrite lines_append_CRLF, (lines_single plain_type_line) by reflexivity.
  rewrite lines_append_CRLF, (lines_single encoding_line) by reflexivity.
  rewrite lines_append_CRLF. change (lines "") with [EmptyString].
  rewrite (lines_append_CRLF (default "" (body args))), (lines_append_CRLF "").
  change (lines "") with [EmptyString].
  cbn [app].
  rewrite !removelast_cons by (by destruct (lines (default "" (body args)))).
  rewrite (removelast_app (lines (default "" (body args))) (l' := [""; ""])) by discriminate.
  reflexivity.
Qed.

(** X25. A request with a plain body, no HTML body and at least one
    attachment whose files exist is sent as one multipart/mixed message:
    read back, its first part is the plain body as text/plain followed by
    an empty line, and after it comes one part per attachment, in order,
    each with the content type declared for the attachment when that is a
    single line. This holds when the header values are single lines and no
    line of a part is a delimiter of the boundary drawn for the message. *)
Theorem plain_with_attachments_read_back (args : arguments) (w w1 wa : world)
    (c : gmail_client) (mixedBoundary : string) (atts : list attachment)
    (contents : list string) :
  getGmailClient w = (Returned c, w1) ->
  truthy_str (to args) = true ->
  truthy_str (subject args) = true ->
  truthy_str (body args) = true ->
  truthy_str (htmlBody args) = false ->
  attachments args = Some atts ->
  atts <> [] ->
  Forall2 (fun a fileContent => path a ≫= (fun p => files w1 !! p) = Some fileContent)
    atts contents ->
  new_boundary "Mixed" w1 = (Returned mixedBoundary, wa) ->
  forallb no_line_break (send_headers args) = true ->
  boundary_free mixedBoundary (lines (default "" (body args))) = true ->
  Forall2 (fun a fileContent =>
             boundary_free mixedBoundary (part_lines (attachment_text a fileContent)) = true)
    atts contents ->
  let attached :=
    zip_with (fun a fileContent => parse_entity (part_lines (attachment_text a fileContent)))
      atts contents in
  exists raw message,
    api_calls (net (snd (sendEmail args w))) =
      api_calls (net w) ++
      [MessagesSend raw (if truthy_str (threadId args) then threadId args else None)]
    /\ build_email args w1 = (Returned message, wa)
    /\ base64url_decode raw = Some message
    /\ parse_multipart "mixed" (parse_message message) =
       Some ({| fields := [plain_type_line; encoding_line];
                content := lines (default "" (body args)) ++ [""] |} :: attached)
    /\ length attached = length atts
    /\ Forall2 (fun a part => no_line_break (declared_type a) = true ->
                             content_type part = declared_type a) atts attached.
Proof.
  intros Hc Hto Hsubject Hbody Hhtml Hatts Hne Hread Hm Hhs Hfree Hfrees attached.
  pose proof (build_email_mixed_plain _ _ _ _ _ _ Hhtml Hatts Hne Hm Hread) as Hbuild.
  pose proof (new_boundary_token "Mixed" w1 mixedBoundary wa eq_refl Hm) as Htoken.
  assert (Hlen : length atts = length contents)
    by (eapply Forall2_length; exact Hread).
  match type of Hbuild with
  | _ = (Returned ?m, _) => set (message := m) in *
  end.
  exists (base64url message), message.
  split; [|split; [exact Hbuild|split; [apply base64url_round_trip|]]].
  - apply (sendEmail_request args w c w1 message wa Hc Hto Hsubject); [|exact Hbuild].
    by rewrite Hbody.
  - subst message. split; [|split].
    + unfold parse_message. rewrite (lines_mixed_email _ _ _ _ _ Hhs Htoken Hlen).
      rewrite parse_mixed_lines.
      * subst attached. cbn [map]. f_equal. f_equal.
        -- rewrite (part_lines_plain_body _ _ Hhtml). by apply parse_entity_framed.
        -- clear. revert contents. induction atts as [|a atts IH]; intros [|x xs];
             cbn; try reflexivity. by rewrite IH.
      * apply send_headers_fields.
      * exact Htoken.
      * rewrite (part_lines_plain_body _ _ Hhtml). by apply boundary_free_framed.
      * clear -Hfrees. induction Hfrees; cbn; constructor; auto.
    + subst attached. clear -Hlen. revert contents Hlen.
      induction atts as [|a atts IH]; intros [|x xs] Hlen; cbn in *; try done.
      f_equal. apply IH. lia.
    + subst attached. clear -Hlen. revert contents Hlen.
      induction atts as [|a atts IH]; intros [|x xs] Hlen; cbn in *; try done.
      constructor; [|apply IH; lia].
      intros Hline. by apply attachment_part_type.
Qed.

Lemma plain_with_attachments_read_back_witness :
  exists raw message,
    api_calls (net (snd (sendEmail sample_plain_report ready_world))) = [MessagesSend raw None]
    /\ base64url_decode raw = Some message
    /\ (exists attached,
          parse_multipart "mixed" (parse_message message) =
          Some [ {| fields := [plain_type_line; encoding_line];
                    content := ["See attached."; ""] |}; attached ]
          /\ content_type attached = "application/pdf").
Proof.
  destruct (plain_with_attachments_read_back sample_plain_report ready_world ready_world
              (set_random ready_world [[4; 5; 6]%nat]) sample_client
              "----=_Mixed_1600000000000_123"
              [{| path := Some "/tmp/a.bin"; filename := Some "a.bin";
                  contentType := Some "application/pdf" |}]
              ["hello"])
    as (raw & message & Hsent & _ & Hdecode & Hparse & _ & Htypes).
  - reflexivity.
  - reflexivity.
  - reflexivity.
  - reflexivity.
  - reflexivity.
  - reflexivity.
  - discriminate.
  - repeat constructor.
  - vm_compute. reflexivity.
  - reflexivity.
  - vm_compute. reflexivity.
  - repeat constructor.
  - exists raw, message. split; [exact Hsent|]. split; [exact Hdecode|].
    eexists. split; [exact Hparse|].
    inversion Htypes as [|? ? ? ? Htype _]; subst. apply Htype. reflexivity.
Defined.

Lemma add_attachments_missing mixedBoundary before a after contents w :
  Forall2 (fun b fileContent => path b ≫= (fun p => files w !! p) = Some fileContent)
    before contents ->
  path a ≫= (fun p => files w !! p) = None ->
  forall email,
    add_attachments mixedBoundary (before ++ a :: after) email w =
    (Thrown (Error ("Attachment file not found: " +:+ default "undefined" (path a))), w).
Proof.
  intros Hread Hmissing. induction Hread as [|b x before contents Hb _ IH]; intros email.
  - cbn [app add_attachments]. unfold bind, read_attachment. by rewrite Hmissing.
  - cbn [app add_attachments]. unfold bind at 1. unfold read_attachment at 1.
    rewrite Hb. apply IH.
Qed.

Lemma build_email_missing args w before a after contents :
  attachments args = Some (before ++ a :: after) ->
  Forall2 (fun b fileContent => path b ≫= (fun p => files w !! p) = Some fileContent)
    before contents ->
  path a ≫= (fun p => files w !! p) = None ->
  exists w',
    build_email args w =
    (Thrown (Error ("Attachment file not found: " +:+ default "undefined" (path a))), w')
    /\ same_outside w w'.
Proof.
  intros Hatts Hread Hmissing. unfold build_email. rewrite Hatts.
  destruct (before ++ a :: after) as [|a0 rest] eqn:Hl; [by destruct before|].
  rewrite <- Hl in *. clear Hl a0 rest.
  destruct (new_boundary_same "Mixed" w) as (mixedBoundary & wa & Hm & Hsa).
  unfold bind at 1. rewrite Hm.
  assert (Halt : exists altBoundary wb,
            (if truthy_str (htmlBody args) then new_boundary "Alternative" else ret EmptyString)
              wa = (Returned altBoundary, wb) /\ same_outside wa wb).
  { destruct (truthy_str (htmlBody args)).
    - apply new_boundary_same.
    - exists EmptyString, wa. split; [reflexivity | apply same_outside_refl]. }
  destruct Halt as (altBoundary & wb & Halt & Hsb).
  unfold bind at 1. rewrite Halt.
  pose proof (same_outside_trans _ _ _ Hsa Hsb) as Hsame.
  unfold bind at 1. rewrite (add_attachments_missing _ before a after contents).
  - exists wb. by split.
  - destruct Hsame as (_ & _ & ->). exact Hread.
  - destruct Hsame as (_ & _ & ->). exact Hmissing.
Qed.

(** X26. When the file of an attachment does not exist, and the files of
    the attachments before it do, a well-formed send request fails with the
    error that names the missing path, and nothing is sent: the provider
    is not called. *)
Theorem missing_attachment_stops_send (args : arguments) (w w1 : world) (c : gmail_client)
    (before after : list attachment) (a : attachment) (contents : list string) :
  getGmailClient w = (Returned c, w1) ->
  truthy_str (to args) = true ->
  truthy_str (subject args) = true ->
  truthy_str (body args) || truthy_str (htmlBody args) = true ->
  attachments args = Some (before ++ a :: after) ->
  Forall2 (fun b fileContent => path b ≫= (fun p => files w1 !! p) = Some fileContent)
    before contents ->
  path a ≫= (fun p => files w1 !! p) = None ->
  fst (sendEmail args w) =
    Thrown (Error ("Attachment file not found: " +:+ default "undefined" (path a)))
  /\ api_calls (net (snd (sendEmail args w))) = api_calls (net w).
Proof.
  intros Hc Hto Hsubject Hbody Hatts Hread Hmissing.
  destruct (build_email_missing args w1 before a after contents Hatts Hread Hmissing)
    as (w2 & Hbuild & Hnet & _ & _).
  assert (Hrun : sendEmail args w =
            (Thrown (Error ("Attachment file not found: " +:+ default "undefined" (path a))),
             w2)).
  { unfold sendEmail, bind at 1. rewrite Hc, Hto, Hsubject.
    replace (negb true || negb true ||
             negb (truthy_str (body args)) && negb (truthy_str (htmlBody args)))
      with false
      by (destruct (truthy_str (body args)), (truthy_str (htmlBody args)); done).
    unfold bind at 1. by rewrite Hbuild. }
  rewrite Hrun. cbn [fst snd]. split; [reflexivity|].
  by rewrite Hnet, (getGmailClient_api_calls _ _ _ Hc).
Qed.

Lemma missing_attachment_stops_send_witness :
  fst (sendEmail sample_missing ready_world) =
    Thrown (Error "Attachment file not found: /tmp/none.bin")
  /\ api_calls (net (snd (sendEmail sample_missing ready_world))) = [].
Proof.
  apply (missing_attachment_stops_send sample_missing ready_world ready_world sample_client
           [{| path := Some "/tmp/a.bin"; filename := None; contentType := None |}]
           []
           {| path := Some "/tmp/none.bin"; filename := None; contentType := None |}
           ["hello"]).
  - reflexivity.
  - reflexivity.
  - reflexivity.
  - reflexivity.
  - reflexivity.
  - repeat constructor.
  - reflexivity.
Defined.

(** X27. The outcome of a well-formed send request whose message could be
    built is the provider's: when the provider accepts the message the
    result carries the identifiers of its answer, the recipient and the
    subject of the request and the number of attachments, and when the
    provider refuses, its error is thrown unchanged. *)
Theorem send_outcome (args : arguments) (w w1 w2 : world) (c : gmail_client)
    (email : string) :
  getGmailClient w = (Returned c, w1) ->
  truthy_str (to args) = true ->
  truthy_str (subject args) = true ->
  truthy_str (body args) || truthy_str (htmlBody args) = true ->
  build_email args w1 = (Returned email, w2) ->
  fst (sendEmail args w) =
  match messages_send (gmail w) (net w1)
          (MessagesSend (base64url email)
             (if truthy_str (threadId args) then threadId args else None)) with
  | Success response =>
    Returned (Sent {| sr_messageId := sent_id response;
                      sr_threadId := sent_threadId response;
                      sr_to := to args;
                      sr_subject := subject args;
                      sr_attachmentsCount := length (default [] (attachments args)) |})
  | Failure e => Thrown e
  end.
Proof.
  intros Hc Hto Hsubject Hbody Hbuild.
  destruct (build_email_run _ _ _ _ Hbuild) as ((Hnet & Hgmail & _) & _).
  destruct (getGmailClient_trace _ _ _ Hc) as (Hgmail1 & _).
  unfold sendEmail, bind at 1. rewrite Hc, Hto, Hsubject.
  replace (negb true || negb true ||
           negb (truthy_str (body args)) && negb (truthy_str (htmlBody args)))
    with false
    by (destruct (truthy_str (body args)), (truthy_str (htmlBody args)); done).
  unfold bind at 1. rewrite Hbuild. unfold bind, await, ret.
  rewrite Hnet, Hgmail, Hgmail1.
  destruct (messages_send _ _ _); cbn [fst]; [reflexivity|].
  by destruct (attachments args) as [[|a atts]|].
Qed.

Lemma send_outcome_witness :
  fst (sendEmail sample_plain_report ready_world) =
  Returned (Sent {| sr_messageId := "s1"; sr_threadId := "t1";
                    sr_to := Some "a@example.com"; sr_subject := Some "Report";
                    sr_attachmentsCount := 1 |}).
Proof.
  apply (send_outcome sample_plain_report ready_world ready_world
           (set_random ready_world [[4; 5; 6]%nat]) sample_client
           (email_text sample_plain_report ready_world)).
  - reflexivity.
  - reflexivity.
  - reflexivity.
  - reflexivity.
  - vm_compute. reflexivity.
Defined.
